(** * PaperClip (bot.py): the multi-provider dispatch engine

    A shallow embedding of [bot.py]: the retry-delay parser
    ([parse_retry_delay_seconds]), the response post-processor
    ([minimalize_response]), the provider loader ([load_providers]), the two
    provider adapters ([call_provider]), the dispatcher ([send_prompt]), the
    sessions ([start_session], [save_session]), the prompt handler
    ([process_clip_as_prompt]) and the bodies of the two loops
    ([clipboard_watcher], [stdin_loop]).

    Conventions.
    - Python [str] values are lists of characters ([text]) with code points
      below 256 (Latin-1); [\d], [\w], [\s], [str.isspace], [str.strip],
      [str.lower] and [str.splitlines] are the Python ones on these
      characters, which for a [str] are the Unicode classes (the no-break
      space is white space, NEL ends a line, the accented letters are word
      characters).
    - Decoded JSON is the inductive [json]; a Python operation that can raise
      returns a [res]. [int] of a string raises above 4300 digits.
    - [time.time()] readings are rationals. A sum of floats is rounded to
      the nearest double ([float_add]); an int that is added to a float is
      converted first, which raises [OverflowError] from about 1.8e308.
    - The network, the clock and the disk are an environment [Env] of
      oracles; the dispatcher threads the program state [Sys] explicitly.
    - [send_prompt] is a coroutine. [send_prompt], [dispatch] and [attempts]
      describe a submission that runs alone; the tasks that
      [clipboard_watcher] creates can be in flight together, and
      [send_prompt_co] with [interleave] describe that: a task runs from one
      wait to the next on the globals that the others share with it. *)

From Stdlib Require Import List Ascii String ZArith QArith Qabs Bool Lia Arith.
From Stdlib Require Import Sorting.Sorted Sorting.Permutation.
Import ListNotations.

Close Scope Q_scope.
Open Scope Z_scope.
Open Scope list_scope.

(* ================================================================== *)
(** ** Text *)
(* ================================================================== *)

Definition text := list ascii.

Definition str (s : string) : text := list_ascii_of_string s.

(** [len] *)
Definition len {A : Type} (l : list A) : nat := List.length l.

Definition code (c : ascii) : nat := nat_of_ascii c.

Definition between (lo hi : nat) (c : ascii) : bool :=
  (lo <=? code c)%nat && (code c <=? hi)%nat.

(** [\d]: among the characters below 256 the decimal digits are the ASCII
    ones. *)
Definition is_digit (c : ascii) : bool := between 48 57 c.

(** The letters of Latin-1 besides the ASCII ones: the two ordinal
    indicators, the micro sign, and the accented letters (the multiplication
    and the division sign, 215 and 247, are none). *)
Definition is_latin1_letter (c : ascii) : bool :=
  (code c =? 170)%nat || (code c =? 181)%nat || (code c =? 186)%nat
  || between 192 214 c || between 216 246 c || between 248 255 c.

(** The numeric characters of Latin-1 besides the digits: the superscripts
    2, 3 and 1 and the three fractions. *)
Definition is_latin1_numeric (c : ascii) : bool :=
  (code c =? 178)%nat || (code c =? 179)%nat || (code c =? 185)%nat || between 188 190 c.

(** [\w] of a [str] pattern: the alphanumeric characters and the underscore *)
Definition is_word (c : ascii) : bool :=
  between 97 122 c || between 65 90 c || is_digit c || (code c =? 95)%nat
  || is_latin1_letter c || is_latin1_numeric c.

(** [\s] and [str.isspace]: TAB, LF, VT, FF, CR, FS, GS, RS, US, SPACE, NEL
    (133) and the no-break space (160) *)
Definition is_space (c : ascii) : bool :=
  between 9 13 c || between 28 32 c || (code c =? 133)%nat || (code c =? 160)%nat.

(** line boundaries of [str.splitlines]: LF, VT, FF, CR, FS, GS, RS, NEL *)
Definition is_linebreak (c : ascii) : bool :=
  between 10 13 c || between 28 30 c || (code c =? 133)%nat.

Definition LF : ascii := ascii_of_nat 10.
Definition CR : ascii := ascii_of_nat 13.

Definition ascii_eqb (a b : ascii) : bool := Ascii.eqb a b.

Arguments ascii_eqb : simpl never.
Arguments is_digit : simpl never.
Arguments is_word : simpl never.
Arguments is_space : simpl never.
Arguments is_linebreak : simpl never.

Fixpoint text_eqb (a b : text) : bool :=
  match a, b with
  | [], [] => true
  | x :: a', y :: b' => ascii_eqb x y && text_eqb a' b'
  | _, _ => false
  end.

(** [str.lower]: the ASCII capitals and those of Latin-1 (192-222 without
    the multiplication sign) are 32 below their small letters. *)
Definition lower_char (c : ascii) : ascii :=
  if between 65 90 c || between 192 214 c || between 216 222 c
  then ascii_of_nat (code c + 32) else c.

Definition lower (s : text) : text := map lower_char s.

(** [s.startswith(p)] *)
Fixpoint startswith (p s : text) : bool :=
  match p, s with
  | [], _ => true
  | x :: p', y :: s' => ascii_eqb x y && startswith p' s'
  | _ :: _, [] => false
  end.

(** [p in s] for two strings *)
Fixpoint contains (p s : text) : bool :=
  startswith p s ||
  match s with
  | [] => false
  | _ :: s' => contains p s'
  end.

(** [s.endswith(p)] *)
Definition endswith (p s : text) : bool := startswith (rev p) (rev s).

Fixpoint dropwhile (f : ascii -> bool) (s : text) : text :=
  match s with
  | [] => []
  | c :: s' => if f c then dropwhile f s' else s
  end.

Fixpoint takewhile (f : ascii -> bool) (s : text) : text :=
  match s with
  | [] => []
  | c :: s' => if f c then c :: takewhile f s' else []
  end.

(** [s.rstrip(chars)], by the predicate of the stripped characters *)
Fixpoint rstrip_by (f : ascii -> bool) (s : text) : text :=
  match s with
  | [] => []
  | c :: s' =>
      match rstrip_by f s' with
      | [] => if f c then [] else [c]
      | r => c :: r
      end
  end.

Definition rstrip (s : text) : text := rstrip_by is_space s.
Definition lstrip (s : text) : text := dropwhile is_space s.
Definition strip (s : text) : text := rstrip (lstrip s).

(** [s.splitlines()] *)
Fixpoint splitlines (s : text) : list text :=
  match s with
  | [] => []
  | c :: rest =>
      if is_linebreak c then
        [] :: match rest with
              | d :: rest' =>
                  if ascii_eqb c CR && ascii_eqb d LF
                  then splitlines rest'
                  else splitlines rest
              | [] => []
              end
      else
        match splitlines rest with
        | [] => [[c]]
        | l :: ls => (c :: l) :: ls
        end
  end.

(** [sep.join(parts)] *)
Fixpoint join (sep : text) (parts : list text) : text :=
  match parts with
  | [] => []
  | [p] => p
  | p :: ps => p ++ sep ++ join sep ps
  end.

(** The number that a string of decimal digits denotes. *)
Definition digit_val (c : ascii) : Z := Z.of_nat (code c) - 48.

Definition decimal_value (ds : text) : Z :=
  fold_left (fun acc c => 10 * acc + digit_val c) ds 0.

(** [sys.get_int_max_str_digits()]: the longest string of digits that [int]
    converts. *)
Definition MAX_STR_DIGITS : nat := 4300.

(** [$] without [re.M]: the end, or just before a final newline *)
Definition at_dollar (s : text) : bool :=
  match s with
  | [] => true
  | [c] => ascii_eqb c LF
  | _ => false
  end.

(* ================================================================== *)
(** ** Python values, exceptions *)
(* ================================================================== *)

(** A decoded JSON document ([json.loads], [resp.json()]). An object is the
    list of its items; [dict.get] reads the first item with the key. *)
#[warnings="-register-all"]
Inductive json : Type :=
| JNull
| JBool (b : bool)
| JInt (z : Z)
| JFloat (q : Q)
| JStr (s : text)
| JArr (items : list json)
| JObj (items : list (text * json)).

Inductive ExnKind : Type :=
| AttributeError      (* method of a value that has none, e.g. [None.get] *)
| TypeError           (* [x in None], [None["k"]], [5[0]], ... *)
| KeyError
| IndexError
| OverflowError       (* [int(float("inf"))], [x + n] for a float and a huge int *)
| ValueError          (* [int(s)] for more than 4300 digits *)
| ClientError         (* [session.post] or [resp.text()] failed *)
| DecodeError         (* [resp.json()] on a body that is not JSON *)
| OSError             (* [Path.write_text] failed *)
| HttpStatus (status : Z)          (* [Exception(f"HTTP {status}: ...")] *)
| MissingModel                     (* [Exception("Gemini provider missing 'model' field ...")] *)
| InvalidResponse.                 (* [Exception("Invalid response structure")] *)

(** A raised exception: what it is, and the [retry_seconds] attribute that
    [call_provider] attaches to the exception of a 429 reply
    ([getattr(e, "retry_seconds", None)]). *)
Record PyExn : Type := Exn { kind : ExnKind; retry_seconds : option Z }.

Definition plain (k : ExnKind) : PyExn := Exn k None.

Inductive res (A : Type) : Type :=
| Ok (a : A)
| Raise (e : PyExn).
Arguments Ok {A} a.
Arguments Raise {A} e.

Definition bind {A B : Type} (m : res A) (k : A -> res B) : res B :=
  match m with
  | Ok a => k a
  | Raise e => Raise e
  end.

Notation "'do' x <- m ; k" := (bind m (fun x => k))
  (at level 10, x name, m at level 100, k at level 200).

Definition dflt {A : Type} (d : A) (o : option A) : A :=
  match o with Some x => x | None => d end.

(** [bool(v)] *)
Definition truthy (v : json) : bool :=
  match v with
  | JNull => false
  | JBool b => b
  | JInt z => negb (z =? 0)
  | JFloat q => negb (Qeq_bool q 0)
  | JStr s => match s with [] => false | _ => true end
  | JArr l => match l with [] => false | _ => true end
  | JObj l => match l with [] => false | _ => true end
  end.

Fixpoint assoc (k : text) (items : list (text * json)) : option json :=
  match items with
  | [] => None
  | (k', v) :: rest => if text_eqb k k' then Some v else assoc k rest
  end.

(** [v.get(k, dflt)]: only a dict has [get] *)
Definition get (v : json) (k : text) (d : json) : res json :=
  match v with
  | JObj items => Ok (dflt d (assoc k items))
  | _ => Raise (plain AttributeError)
  end.

(** [k in v] for a string [k] *)
Definition py_in (k : text) (v : json) : res bool :=
  match v with
  | JStr s => Ok (contains k s)
  | JArr l => Ok (existsb (fun e => match e with JStr s => text_eqb k s | _ => false end) l)
  | JObj items => Ok (match assoc k items with Some _ => true | None => false end)
  | _ => Raise (plain TypeError)
  end.

(** [for d in v]: the values a [for] loop visits *)
Definition py_iter (v : json) : res (list json) :=
  match v with
  | JArr l => Ok l
  | JStr s => Ok (map (fun c => JStr [c]) s)
  | JObj items => Ok (map (fun kv => JStr (fst kv)) items)
  | _ => Raise (plain TypeError)
  end.

(** [int(float(ds))] for a string of digits that denotes [n]: the nearest
    double (ties to even), which [int] returns exactly; [float] has no limit
    on the digits, gives [inf] when the nearest double would be [2^1024] or
    more, and [int(inf)] raises. *)
Definition int_of_float (n : Z) : res Z :=
  let bits := Z.log2 n + 1 in
  if bits <=? 53 then Ok n
  else
    let sh := bits - 53 in
    let q := Z.shiftr n sh in
    let r := Z.land n (Z.ones sh) in
    let half := Z.shiftl 1 (sh - 1) in
    let q' := if (half <? r) || ((r =? half) && Z.odd q) then q + 1 else q in
    let v := Z.shiftl q' sh in
    if Z.shiftl 1 1024 <=? v then Raise (plain OverflowError) else Ok v.

(** [float(n)] for an int, as [x + n] converts it for a float [x]: the
    nearest double, ties to even; [OverflowError] when that would be
    [2^1024] or more in size. *)
Definition float_of_int (n : Z) : res Q :=
  do v <- int_of_float (Z.abs n);
  Ok (inject_Z (Z.sgn n * v)).

(** The integer nearest to [n / d] for [0 < d], the even one of two. *)
Definition round_half_even (n d : Z) : Z :=
  let q := n / d in
  let r2 := 2 * (n mod d) in
  if r2 <? d then q
  else if d <? r2 then q + 1
  else if Z.even q then q else q + 1.

(** For [0 < n] and [0 < d]: the exponent of the last binary place of the
    double that holds [n / d], which has 53 places and none below [2^-1074]. *)
Definition last_place (n d : Z) : Z :=
  let k := Z.log2 n - Z.log2 d in
  let below := if 0 <=? k then n <? d * 2 ^ k else n * 2 ^ (- k) <? d in
  Z.max ((if below then k - 1 else k) - 52) (-1074).

(** The double nearest to [q], ties to even. *)
Definition round_double (q : Q) : Q :=
  let n := Z.abs (Qnum q) in
  let d := Zpos (Qden q) in
  if n =? 0 then 0%Q
  else
    let e := last_place n d in
    let m := if 0 <=? e then round_half_even n (d * 2 ^ e)
             else round_half_even (n * 2 ^ (- e)) d in
    let v := if 0 <=? e then inject_Z (m * 2 ^ e) else Qmake m (Z.to_pos (2 ^ (- e))) in
    if Qnum q <? 0 then Qopp v else v.

(** [a + b] for two floats: the double nearest to the sum. (IEEE gives
    [inf] when that double would be [2^1024] or more in size; the number is
    kept here, and [finite] says that it is below.) *)
Definition float_add (a b : Q) : Q := round_double (Qplus a b).

Definition finite (x : Q) : Prop := (Qabs x < inject_Z (2 ^ 1024))%Q.

(* ================================================================== *)
(** ** parse_retry_delay_seconds *)
(* ================================================================== *)

(** [re.match(r"^(\d+)(?:\.\d+)?s$", s)]: group 1 when it matches. The
    classes of digits, of the dot and of [s] are disjoint, so the match is
    decided by reading the longest run of digits. *)
Definition match_seconds (s : text) : option text :=
  let ds := takewhile is_digit s in
  let r := dropwhile is_digit s in
  match ds, r with
  | _ :: _, c :: r1 =>
      if ascii_eqb c "s" then (if at_dollar r1 then Some ds else None)
      else if ascii_eqb c "." then
        match takewhile is_digit r1, dropwhile is_digit r1 with
        | _ :: _, c2 :: r2 =>
            if ascii_eqb c2 "s" && at_dollar r2 then Some ds else None
        | _, _ => None
        end
      else None
  | _, _ => None
  end.

(** One optional component [(?:(\d+)X)?]: its group and the rest. *)
Definition iso_component (letter : ascii) (s : text) : option text * text :=
  match takewhile is_digit s, dropwhile is_digit s with
  | (_ :: _) as ds, c :: r => if ascii_eqb c letter then (Some ds, r) else (None, s)
  | _, _ => (None, s)
  end.

(** [re.match(r"^PT(?:(\d+)H)?(?:(\d+)M)?(?:(\d+)S)?$", s)]: groups 1-3. *)
Definition match_iso (s : text) : option (option text * option text * option text) :=
  match s with
  | p :: t :: r0 =>
      if ascii_eqb p "P" && ascii_eqb t "T" then
        let '(h, r1) := iso_component "H" r0 in
        let '(m, r2) := iso_component "M" r1 in
        let '(sec, r3) := iso_component "S" r2 in
        if at_dollar r3 then Some (h, m, sec) else None
      else None
  | _ => None
  end.

(** [int(ds)] for a string of digits: the leading zeros count for the
    limit. *)
Definition py_int (ds : text) : res Z :=
  if (len ds <=? MAX_STR_DIGITS)%nat then Ok (decimal_value ds)
  else Raise (plain ValueError).

(** [int(g or 0)] for a group [g] *)
Definition int_or_0 (g : option text) : res Z :=
  match g with
  | Some ds => py_int ds
  | None => Ok 0
  end.

Section PythonLibrary.

(** [str(v)] of a value that is not a string (its [repr]): a library
    function, taken as it is. *)
Variable py_repr : json -> text.

(** [str(v)] *)
Definition py_str (v : json) : text :=
  match v with
  | JStr s => s
  | _ => py_repr v
  end.

(** The [for d in details] loop: [Ok (Some n)] is [return n], [Ok None] is
    the loop running to its end. *)
Fixpoint scan_details (details : list json) : res (option Z) :=
  match details with
  | [] => Ok None
  | d :: rest =>
      do ty <- get d (str "@type") (JStr []);
      do is_retry_info <- py_in (str "RetryInfo") ty;
      if is_retry_info then
        do rd <- get d (str "retryDelay") JNull;
        if truthy rd then
          let s := strip (py_str rd) in
          match match_seconds s with
          | Some g1 => do n <- int_of_float (decimal_value g1); Ok (Some n)
          | None =>
              match match_iso s with
              | Some (h, m, sec) =>
                  do hours <- int_or_0 h;
                  do mins <- int_or_0 m;
                  do secs <- int_or_0 sec;
                  Ok (Some (hours * 3600 + mins * 60 + secs))
              | None => scan_details rest
              end
          end
        else scan_details rest
      else scan_details rest
  end.

(** The body of the [try]. *)
Definition parse_retry_delay_body (error_json : json) : res (option Z) :=
  do err <- get error_json (str "error") (JObj []);
  do details <- get err (str "details") (JArr []);
  do ds <- py_iter details;
  scan_details ds.

Definition parse_retry_delay_seconds (error_json : json) : Z :=
  match parse_retry_delay_body error_json with
  | Ok (Some n) => n
  | Ok None => 10          (* fell out of the loop *)
  | Raise _ => 10          (* [except Exception: pass] *)
  end.

End PythonLibrary.

(* ================================================================== *)
(** ** minimalize_response *)
(* ================================================================== *)

Definition FENCE : text := str "```".

(** The lazy [(.*?)] followed by the closing fence: the text before the
    first fence of [s]. *)
Fixpoint until_fence (s : text) : option text :=
  if startswith FENCE s then Some []
  else match s with
       | [] => None
       | c :: r => option_map (cons c) (until_fence r)
       end.

(** [_CODE_FENCE_RE] matched at the head of [s]: group 1 and the length of
    the match. After the three backquotes come the word characters of the
    optional tag, then a newline, then the shortest text up to a fence. *)
Definition fence_at (s : text) : option (text * nat) :=
  if startswith FENCE s then
    let r := skipn 3 s in
    match dropwhile is_word r with
    | c :: body =>
        if ascii_eqb c LF then
          match until_fence body with
          | Some g => Some (g, (3 + len (takewhile is_word r) + 1 + len g + 3)%nat)
          | None => None
          end
        else None
    | [] => None
    end
  else None.

(** [_CODE_FENCE_RE.findall]: scan from the left; [skip] characters are
    still covered by the last match. *)
Fixpoint findall_from (skip : nat) (s : text) : list text :=
  match s with
  | [] => []
  | _ :: rest =>
      match skip with
      | S k => findall_from k rest
      | O =>
          match fence_at s with
          | Some (g, n) => g :: findall_from (n - 1) rest
          | None => findall_from 0 rest
          end
      end
  end.

Definition findall_fences (s : text) : list text := findall_from 0 s.

(** [list.sort]: stable; [before x y] says that [x] may stay in front of
    [y]. With [reverse=True] elements of equal key keep their order too. *)
Section Sort.
Variable A : Type.
Variable before : A -> A -> bool.

Fixpoint insert (x : A) (l : list A) : list A :=
  match l with
  | [] => [x]
  | y :: l' => if before x y then x :: l else y :: insert x l'
  end.

Fixpoint sort (l : list A) : list A :=
  match l with
  | [] => []
  | x :: l' => insert x (sort l')
  end.
End Sort.
Arguments insert {A} before x l.
Arguments sort {A} before l.

(** [blocks.sort(key=lambda b: len(b), reverse=True)] *)
Definition longer_first (a b : text) : bool := (len b <=? len a)%nat.

(** [[\w\.\-\_]] *)
Definition is_ident (c : ascii) : bool :=
  is_word c || ascii_eqb c "." || ascii_eqb c "-".

Definition KEYWORDS : list text :=
  map str ["def"; "class"; "for"; "while"; "if"; "return"; "print"]%string.

(** a keyword and then [\b] *)
Definition keyword_at (s kw : text) : bool :=
  startswith kw s &&
  match skipn (len kw) s with
  | [] => true
  | c :: _ => negb (is_word c)
  end.

(** [INLINE_CODE_RE.match(s)]: after the white space, a comment mark, or
    [name =], or a keyword. The [.*$] of the first and the third alternative
    always match. *)
Definition inline_code_match (s : text) : bool :=
  let s1 := dropwhile is_space s in
  startswith (str "#") s1 || startswith (str "//") s1
  || (match takewhile is_ident s1 with [] => false | _ => true end
      && startswith (str "=") (dropwhile is_space (dropwhile is_ident s1)))
  || existsb (keyword_at s1) KEYWORDS.

Definition code_like (ln : text) : bool := inline_code_match (strip ln).

(** The loop over the lines, with its two accumulators. *)
Fixpoint group_lines (lines code_lines curr : list text) : list text :=
  match lines with
  | [] => match curr with [] => code_lines | _ => code_lines ++ curr end
  | ln :: rest =>
      if code_like ln then group_lines rest code_lines (curr ++ [ln])
      else match curr with
           | [] => group_lines rest code_lines []
           | _ => group_lines rest (code_lines ++ (curr ++ [[]])) []
           end
  end.

Definition nonblank (l : text) : bool :=
  match strip l with [] => false | _ => true end.

Definition EXTRACTED : text := str "// code (extracted)" ++ [LF].
Definition HEURISTIC : text := str "// code (heuristic)" ++ [LF].
Definition MINIMAL : text := str "// response (minimal)" ++ [LF].

(** The three results, named. *)
Definition extracted_form (block : text) : text :=
  let code := rstrip block in
  let code := if endswith [LF] code then code else code ++ [LF] in
  EXTRACTED ++ code.

Definition heuristic_form (code_lines : list text) : text :=
  HEURISTIC ++ (strip (join [LF] code_lines) ++ [LF]).

Definition compressed (t : text) : text :=
  firstn 1200 (join (str " ") (splitlines (strip t))).

Definition minimal_form (t : text) : text := MINIMAL ++ compressed t.

(** Lines 100-123, for a text that is not empty. *)
Definition minimalize_text (t : text) : text :=
  match sort longer_first (findall_fences t) with
  | b :: _ => extracted_form b
  | [] =>
      let code_lines := group_lines (splitlines t) [] [] in
      if (2 <=? len (filter nonblank code_lines))%nat
      then heuristic_form code_lines
      else minimal_form t
  end.

(** [minimalize_response(text)]; [None] is Python's [None]. *)
Definition minimalize_response (input : option text) : text :=
  match input with
  | None => []
  | Some [] => []
  | Some t => minimalize_text t
  end.

(* ================================================================== *)
(** ** Providers, load_providers *)
(* ================================================================== *)

Definition MAX_PROVIDER_RETRIES : nat := 2.

(** An entry of [providers.json]: a dict whose keys may be missing ([None]
    is a missing key). [_disabled_until] is the key that [send_prompt]
    attaches at run time. *)
Record Provider : Type := mkProvider {
  prov_id : option text;          (* "id" *)
  prov_name : option text;        (* "name" *)
  prov_type : option text;        (* "type" *)
  base_url : option text;
  model : option text;
  api_key : option text;
  max_tokens : option Z;
  priority : option Z;
  enabled : option bool;
  _disabled_until : option Q
}.

(** [p.get("enabled", True)], [x.get("priority", 100)], [p.get("id", "")] *)
Definition get_enabled (p : Provider) : bool := dflt true (enabled p).
Definition get_priority (p : Provider) : Z := dflt 100 (priority p).
Definition get_id (p : Provider) : text := dflt [] (prov_id p).

(** [s or d] for an optional string *)
Definition or_text (s : option text) (d : text) : text :=
  match s with
  | Some (c :: r) => c :: r
  | _ => d
  end.

(** The three [setdefault] calls; [fresh] is [str(uuid.uuid4())[:8]]. *)
Definition set_defaults (fresh : text) (p : Provider) : Provider :=
  {| prov_id := Some (match prov_id p with
                      | Some i => i
                      | None => or_text (prov_name p) fresh
                      end);
     prov_name := prov_name p;
     prov_type := prov_type p;
     base_url := base_url p;
     model := model p;
     api_key := api_key p;
     max_tokens := max_tokens p;
     priority := Some (get_priority p);
     enabled := Some (get_enabled p);
     _disabled_until := _disabled_until p |}.

Fixpoint set_defaults_all (uuid8 : nat -> text) (n : nat) (raw : list Provider)
  : list Provider :=
  match raw with
  | [] => []
  | p :: rest => set_defaults (uuid8 n) p :: set_defaults_all uuid8 (S n) rest
  end.

(** [key=lambda x: x.get("priority", 100)], ascending *)
Definition by_priority (a b : Provider) : bool := get_priority a <=? get_priority b.

(** [load_providers()]; [file] is the decoded [providers.json], [None] when
    the file does not exist; [uuid8 n] is the identifier generated for the
    [n]-th entry. *)
Definition load_providers (uuid8 : nat -> text) (file : option (list Provider))
  : list Provider :=
  match file with
  | None => []
  | Some raw =>
      let raw := set_defaults_all uuid8 0 raw in
      let active := filter get_enabled raw in
      sort by_priority active
  end.

(* ================================================================== *)
(** ** The selection order of send_prompt *)
(* ================================================================== *)

Definition opt_text_eqb (a b : option text) : bool :=
  match a, b with
  | Some x, Some y => text_eqb x y
  | None, None => true
  | _, _ => false
  end.

Definition opt_eqb {A : Type} (eqb : A -> A -> bool) (a b : option A) : bool :=
  match a, b with
  | Some x, Some y => eqb x y
  | None, None => true
  | _, _ => false
  end.

(** [p == q] for two provider dicts: the same keys with equal values *)
Definition provider_eqb (p q : Provider) : bool :=
  opt_text_eqb (prov_id p) (prov_id q) &&
  opt_text_eqb (prov_name p) (prov_name q) &&
  opt_text_eqb (prov_type p) (prov_type q) &&
  opt_text_eqb (base_url p) (base_url q) &&
  opt_text_eqb (model p) (model q) &&
  opt_text_eqb (api_key p) (api_key q) &&
  opt_eqb Z.eqb (max_tokens p) (max_tokens q) &&
  opt_eqb Z.eqb (priority p) (priority q) &&
  opt_eqb Bool.eqb (enabled p) (enabled q) &&
  opt_eqb Qeq_bool (_disabled_until p) (_disabled_until q).

(** [p.get("type") == preferred or preferred in p.get("id","").lower()] *)
Definition prefers (preferred : text) (p : Provider) : bool :=
  opt_text_eqb (prov_type p) (Some preferred) || contains preferred (lower (get_id p)).

(** The providers are dicts shared with the global list: the loop works on
    references, here the positions in the store. *)
Definition deref (store : list Provider) (i : nat) : option Provider := nth_error store i.

Definition holds (store : list Provider) (f : Provider -> bool) (i : nat) : bool :=
  match deref store i with
  | Some p => f p
  | None => false
  end.

(** [p in matching] *)
Definition ref_in (store : list Provider) (refs : list nat) (i : nat) : bool :=
  match deref store i with
  | Some p => existsb (holds store (provider_eqb p)) refs
  | None => false
  end.

(** Lines 262-268: the enabled providers, those of the preferred type first. *)
Definition enabled_refs (store : list Provider) : list nat :=
  filter (holds store get_enabled) (seq 0 (len store)).

Definition selection_order (preferred : text) (store : list Provider) : list nat :=
  let provs := enabled_refs store in
  match preferred with
  | [] => provs
  | _ =>
      let matching := filter (holds store (prefers preferred)) provs in
      let others := filter (fun i => negb (ref_in store matching i)) provs in
      matching ++ others
  end.

(** The providers behind a list of references. *)
Fixpoint derefs (store : list Provider) (refs : list nat) : list Provider :=
  match refs with
  | [] => []
  | i :: rest =>
      match deref store i with
      | Some p => p :: derefs store rest
      | None => derefs store rest
      end
  end.

Definition call_order (preferred : text) (store : list Provider) : list Provider :=
  derefs store (selection_order preferred store).

(* ================================================================== *)
(** ** The process, its environment, one submission *)
(* ================================================================== *)

(** An entry of [current_session["messages"]]; the key "provider" exists on
    assistant messages only. *)
Record Message : Type := mkMessage {
  role : text;
  msg_text : json;
  ts : Z;
  msg_provider : option (option text)
}.

Record Session : Type := mkSession {
  session_id : text;
  session_name : text;
  created_at : Z;
  messages : list Message
}.

(** What one round trip gives: [resp.status], [resp.text()] and
    [resp.json()] ([None] when decoding raises). *)
Record Reply : Type := mkReply {
  status : Z;
  body : text;
  body_json : option json
}.

Inductive NetOutcome : Type :=
| NoReply                 (* [session.post] or [resp.text()] raised *)
| Replied (r : Reply).

(** The environment: the successive readings of [time.time()], the outcomes
    of the successive round trips, and whether the successive writes of
    [save_session] succeed. *)
Record Env : Type := mkEnv {
  time_at : nat -> Q;
  post_at : nat -> NetOutcome;
  save_ok : nat -> bool
}.

(** The globals of the module and the position in the environment. *)
Record Sys : Type := mkSys {
  providers : list Provider;
  current_session : option Session;
  preferred_provider_type : text;
  clock_reads : nat;
  posts : nat;
  saves : nat
}.

(** What [call_provider] sends. *)
Inductive Request : Type :=
| GenerateContent (url : text) (prompt : text) (max_output_tokens : Z)
| ChatCompletions (url : text) (model_name : text) (context : list (text * json))
                  (max_out : Z).

(** What a submission does, in order. [Try] carries the number of clock
    readings taken before the call. *)
Inductive Event : Type :=
| Skip (i : nat) (now : Q)                 (* [SKIP]: cooldown compared at [now], active *)
| Select (i : nat) (now : option Q)        (* the provider passes line 271; [now] if read *)
| Try (i : nat) (attempt : nat) (reads : nat)   (* [call_provider] entered *)
| Sent (req : Request)                     (* [session.post] *)
| Saved (ok : bool)                        (* [save_session] wrote the file, or raised *)
| Disabled (i : nat) (now : Q) (secs : Z)  (* [WARN] rate-limited; cooldown written *)
| Failed (i : nat) (attempt : nat) (e : PyExn)  (* [WARN] attempt failed *)
| Sleep (tenths : nat)                     (* [asyncio.sleep(0.4 * attempt)], in 0.1 s *)
| Answered (i : nat).                      (* [OK] *)

(** The globals with the locals of one [send_prompt]. *)
Record Run : Type := mkRun {
  sys : Sys;
  last_exc : option PyExn;
  trace : list Event
}.

Definition emit (e : Event) (r : Run) : Run :=
  mkRun (sys r) (last_exc r) (trace r ++ [e]).

Definition with_sys (f : Sys -> Sys) (r : Run) : Run :=
  mkRun (f (sys r)) (last_exc r) (trace r).

(** One more reading of the clock, one more round trip, one more write. *)
Definition ticked (s : Sys) : Sys :=
  mkSys (providers s) (current_session s) (preferred_provider_type s)
        (S (clock_reads s)) (posts s) (saves s).

Definition posted (s : Sys) : Sys :=
  mkSys (providers s) (current_session s) (preferred_provider_type s)
        (clock_reads s) (S (posts s)) (saves s).

Definition written (s : Sys) : Sys :=
  mkSys (providers s) (current_session s) (preferred_provider_type s)
        (clock_reads s) (posts s) (S (saves s)).

(** [time.time()] *)
Definition read_clock (env : Env) (r : Run) : Q * Run :=
  (time_at env (clock_reads (sys r)), with_sys ticked r).

(** [int(x)] for a float: the fraction is dropped, towards zero. *)
Definition int_of_time (t : Q) : Z := Z.quot (Qnum t) (Zpos (Qden t)).

(** [now_ts()] *)
Definition now_ts (env : Env) (r : Run) : Z * Run :=
  let '(t, r) := read_clock env r in (int_of_time t, r).

(** [session.post(...)] and [resp.text()] *)
Definition post (env : Env) (req : Request) (r : Run) : res Reply * Run :=
  (match post_at env (posts (sys r)) with
   | NoReply => Raise (plain ClientError)
   | Replied rep => Ok rep
   end,
   with_sys posted (emit (Sent req) r)).

(** [resp.json()] *)
Definition reply_json (rep : Reply) : res json :=
  match body_json rep with
  | Some j => Ok j
  | None => Raise (plain DecodeError)
  end.

(* ================================================================== *)
(** ** call_provider *)
(* ================================================================== *)

Definition is_dict (v : json) : bool :=
  match v with JObj _ => true | _ => false end.
Definition is_list (v : json) : bool :=
  match v with JArr _ => true | _ => false end.

(** [v[k]] for a string key *)
Definition getitem (v : json) (k : text) : res json :=
  match v with
  | JObj items =>
      match assoc k items with
      | Some x => Ok x
      | None => Raise (plain KeyError)
      end
  | _ => Raise (plain TypeError)
  end.

(** [v[0]] *)
Definition first_item (v : json) : res json :=
  match v with
  | JArr (x :: _) => Ok x
  | JArr [] => Raise (plain IndexError)
  | JStr (c :: _) => Ok (JStr [c])
  | JStr [] => Raise (plain IndexError)
  | JObj _ => Raise (plain KeyError)
  | _ => Raise (plain TypeError)
  end.

(** [a or b] *)
Definition py_or (a b : json) : json := if truthy a then a else b.

(** [(p.get("base_url") or "").rstrip("/")] and the rest of
    [provider_endpoint] *)
Definition provider_endpoint (p : Provider) : text :=
  let base := rstrip_by (ascii_eqb "/") (or_text (base_url p) []) in
  let base := match base with [] => str "https://openrouter.ai" | _ => base end in
  if contains (str "/v1") base || contains (str "/v1beta") base
     || endswith (str "/chat/completions") base
  then base
  else base ++ str "/v1/chat/completions".

Definition is_gemini (prov : Provider) : bool :=
  text_eqb (lower (or_text (prov_type prov) [])) (str "gemini")
  || contains (str "generativelanguage.googleapis.com") (or_text (base_url prov) []).

Record CallResult : Type := mkCallResult {
  ok : bool;
  result_text : json;          (* "text" *)
  raw : json;
  provider_id : option text
}.

(** [data] of a 429 reply: the decoded body, [{}] when decoding raises. *)
Definition error_data (rep : Reply) : json :=
  match body_json rep with
  | Some j => j
  | None => JObj []
  end.

Section Adapters.

Variable py_repr : json -> text.
Variable json_dumps : json -> text.

(** The error of a 429 reply, lines 160-167 and 221-228. *)
Definition rate_limit_error (rep : Reply) : PyExn :=
  Exn (HttpStatus 429) (Some (parse_retry_delay_seconds py_repr (error_data rep))).

(** Lines 175-206: the text of a Gemini reply. *)
Definition gemini_pieces (out : list json) : res (list json) :=
  fold_right (fun o acc =>
      do ps <- acc;
      match o with
      | JObj _ =>
          do c <- get o (str "content") JNull;
          do t <- get o (str "text") JNull;
          Ok (py_or (py_or c t) (JStr []) :: ps)
      | JStr _ => Ok (o :: ps)
      | _ => Ok ps
      end) (Ok []) out.

(** ["\n".join(p for p in parts if p)]: every piece must be a string *)
Fixpoint join_pieces (ps : list json) : res (list text) :=
  match ps with
  | [] => Ok []
  | JStr s :: rest => do r <- join_pieces rest; Ok (s :: r)
  | _ :: _ => Raise (plain TypeError)
  end.

Definition gemini_content (data : json) : res json :=
  if is_dict data then
    do has_cand <- py_in (str "candidates") data;
    do cands <- (if has_cand then getitem data (str "candidates") else Ok JNull);
    if has_cand && truthy cands then
      do cand <- first_item cands;
      do has_content <- py_in (str "content") cand;
      do inner <- (if has_content then getitem cand (str "content") else Ok JNull);
      do has_parts <- (if has_content && is_dict inner then py_in (str "parts") inner
                       else Ok false);
      if has_content && is_dict inner && has_parts then
        do parts <- getitem inner (str "parts");
        if truthy parts && is_list parts then
          do p0 <- first_item parts;
          get p0 (str "text") (JStr [])
        else Ok (JStr [])
      else
        do c <- get cand (str "content") JNull;
        do o <- get cand (str "output") JNull;
        do t <- get cand (str "text") JNull;
        Ok (py_or (py_or (py_or c o) t) (JStr []))
    else
      do has_output <- py_in (str "output") data;
      if has_output then
        do out <- getitem data (str "output");
        match out with
        | JStr _ => Ok out
        | JArr l =>
            do ps <- gemini_pieces l;
            do ss <- join_pieces (filter truthy ps);
            Ok (JStr (join [LF] ss))
        | _ => Ok (JStr (json_dumps out))
        end
      else
        do has_result <- py_in (str "result") data;
        if negb has_cand && has_result then
          do r <- getitem data (str "result");
          Ok (JStr (json_dumps r))
        else Ok (JStr (json_dumps data))
  else Ok (JStr (py_str py_repr data)).

(** Lines 231-239: the text of an OpenAI/OpenRouter reply. *)
Definition chat_content (data : json) : res json :=
  do has_choices <- py_in (str "choices") data;
  do choices <- (if has_choices then getitem data (str "choices") else Ok JNull);
  if has_choices && truthy choices then
    do ch <- first_item choices;
    do has_message <- py_in (str "message") ch;
    do msg <- (if has_message then getitem ch (str "message") else Ok JNull);
    if has_message && is_dict msg then
      get msg (str "content") JNull
    else
      do t <- get ch (str "text") JNull;
      Ok (py_or t (JStr (json_dumps ch)))
  else Ok (JStr (json_dumps data)).

(** The status policy shared by the two branches, then the parsing. *)
Definition read_reply (parse : json -> res json) (pid : option text) (rep : Reply)
  : res CallResult :=
  if status rep =? 429 then Raise (rate_limit_error rep)
  else if negb (status rep =? 200) then Raise (plain (HttpStatus (status rep)))
  else
    do data <- reply_json rep;
    do content <- parse data;
    Ok (mkCallResult true content data pid).

(** The adapter of the branch that [call_provider] takes for [prov]. *)
Definition content_of (prov : Provider) : json -> res json :=
  if is_gemini prov then gemini_content else chat_content.

(** [call_provider(session, prov, messages, prompt_text)] *)
Definition call_provider (env : Env) (prov : Provider) (context : list (text * json))
  (prompt_text : text) (r : Run) : res CallResult * Run :=
  let pid := prov_id prov in
  if is_gemini prov then
    match base_url prov with
    | None => (Raise (plain AttributeError), r)          (* [None.rstrip] *)
    | Some b =>
        let base := rstrip_by (ascii_eqb "/") b in
        match model prov with
        | None | Some [] => (Raise (plain MissingModel), r)
        | Some m =>
            let model_path := if startswith (str "models/") m then m else str "models/" ++ m in
            let url := if endswith (str ":generate") base || contains (str "models/") base
                       then base
                       else base ++ str "/" ++ model_path ++ str ":generateContent" in
            let '(rep, r1) := post env (GenerateContent url prompt_text
                                          (dflt 4096 (max_tokens prov))) r in
            (do rep <- rep; read_reply gemini_content pid rep, r1)
        end
    end
  else
    let url := provider_endpoint prov in
    let '(rep, r1) := post env (ChatCompletions url (or_text (model prov) (str "openrouter/auto"))
                                  context (dflt 8192 (max_tokens prov))) r in
    (do rep <- rep; read_reply chat_content pid rep, r1).

(** What [call_provider] does before its first [await]: the request that it
    is about to post, or the exception raised before anything is sent. *)
Definition call_request (prov : Provider) (context : list (text * json))
  (prompt_text : text) : res Request :=
  if is_gemini prov then
    match base_url prov with
    | None => Raise (plain AttributeError)
    | Some b =>
        let base := rstrip_by (ascii_eqb "/") b in
        match model prov with
        | None | Some [] => Raise (plain MissingModel)
        | Some m =>
            let model_path := if startswith (str "models/") m then m else str "models/" ++ m in
            let url := if endswith (str ":generate") base || contains (str "models/") base
                       then base
                       else base ++ str "/" ++ model_path ++ str ":generateContent" in
            Ok (GenerateContent url prompt_text (dflt 4096 (max_tokens prov)))
        end
    end
  else
    Ok (ChatCompletions (provider_endpoint prov)
                        (or_text (model prov) (str "openrouter/auto"))
                        context (dflt 8192 (max_tokens prov))).

End Adapters.

(* ================================================================== *)
(** ** send_prompt *)
(* ================================================================== *)

Definition SYSTEM_MSG : text :=
  str "You are a helpful coding assistant. Provide complete, detailed responses without truncating or summarizing. When asked for code, return the full code with explanations if needed. Do not limit response length. The questions which will be asked are mostly hard coding, debugging, programming and object oriented programming questions. Your solutions must satisfy all test cases, handle edge cases, and use efficient algorithms and clean, readable style.".

(** [l[-n:]] *)
Definition last_n {A : Type} (n : nat) (l : list A) : list A := skipn (len l - n) l.

(** Lines 247-258: the context handed to the adapters. *)
Definition build_context (cs : option Session) (prompt_text : text) : list (text * json) :=
  (str "system", JStr SYSTEM_MSG)
  :: map (fun m => (role m, msg_text m))
         (match cs with Some c => last_n 30 (messages c) | None => [] end)
  ++ [(str "user", JStr prompt_text)].

(** What [send_prompt] returns. *)
Record Answer : Type := mkAnswer {
  answer_provider : option text;
  answer_raw : json;
  answer_text : json
}.

(** How a submission ends: the returned dict, one of the three exceptions
    that [send_prompt] raises itself, or an exception raised in the [except]
    clause, which nothing in [send_prompt] catches. *)
Inductive Outcome : Type :=
| Returned (a : Answer)
| NoProviders
| NoEnabledProviders
| AllProvidersFailed (last : option PyExn)
| Escaped (e : PyExn).

Definition Qltb (a b : Q) : bool := negb (Qle_bool b a).

(** [current_session["messages"].append(m)] *)
Definition append_message (m : Message) (s : Sys) : Sys :=
  mkSys (providers s)
        (option_map (fun c => mkSession (session_id c) (session_name c) (created_at c)
                                        (messages c ++ [m])) (current_session s))
        (preferred_provider_type s) (clock_reads s) (posts s) (saves s).

(** [save_session()]: the write of the session file, which can fail. *)
Definition save_session (env : Env) (r : Run) : res unit * Run :=
  match current_session (sys r) with
  | None => (Ok tt, r)
  | Some _ =>
      let good := save_ok env (saves (sys r)) in
      (if good then Ok tt else Raise (plain OSError),
       with_sys written (emit (Saved good) r))
  end.

Fixpoint update_nth {A : Type} (i : nat) (f : A -> A) (l : list A) : list A :=
  match i, l with
  | _, [] => []
  | O, x :: l' => f x :: l'
  | S j, x :: l' => x :: update_nth j f l'
  end.

(** [prov["_disabled_until"] = t] on the dict at position [i] *)
Definition set_disabled_until (t : Q) (p : Provider) : Provider :=
  mkProvider (prov_id p) (prov_name p) (prov_type p) (base_url p) (model p) (api_key p)
             (max_tokens p) (priority p) (enabled p) (Some t).

Definition disable (i : nat) (t : Q) (s : Sys) : Sys :=
  mkSys (update_nth i (set_disabled_until t) (providers s)) (current_session s)
        (preferred_provider_type s) (clock_reads s) (posts s) (saves s).

(** Lines 279-291, the rest of the [try] after [call_provider] returned. *)
Definition record_answer (env : Env) (i : nat) (pid : option text) (prompt_text : text)
  (cr : CallResult) (r : Run) : res Answer * Run :=
  if ok cr then
    let raw_text := py_or (result_text cr) (JStr []) in
    match current_session (sys r) with
    | None => (Raise (plain TypeError), r)          (* [None["messages"]] *)
    | Some _ =>
        let '(t1, r) := now_ts env r in
        let r := with_sys (append_message (mkMessage (str "user") (JStr prompt_text) t1 None)) r in
        let '(t2, r) := now_ts env r in
        let r := with_sys (append_message (mkMessage (str "assistant") raw_text t2 (Some pid))) r in
        let '(saved, r) := save_session env r in
        match saved with
        | Raise e => (Raise e, r)
        | Ok _ => (Ok (mkAnswer pid (raw cr) raw_text), emit (Answered i) r)
        end
    end
  else (Raise (plain InvalidResponse), r).

Section Dispatcher.

Variable py_repr : json -> text.
Variable json_dumps : json -> text.
Variable env : Env.

(** The body of the [try]: the call and, when it returns, the rest. *)
Definition one_attempt (i : nat) (prov : Provider) (context : list (text * json))
  (prompt_text : text) (attempt : nat) (r : Run) : res Answer * Run :=
  let r := emit (Try i attempt (clock_reads (sys r))) r in
  let '(called, r) := call_provider py_repr json_dumps env prov context prompt_text r in
  match called with
  | Ok cr => record_answer env i (prov_id prov) prompt_text cr r
  | Raise e => (Raise e, r)
  end.

(** [if retry_secs:] on [getattr(e, "retry_seconds", None)]: the seconds
    when there are some and they are not zero. *)
Definition rate_limit_of (e : PyExn) : option Z :=
  match retry_seconds e with
  | Some secs => if secs =? 0 then None else Some secs
  | None => None
  end.

(** Lines 296-298: the cooldown is written, then [break]. In
    [time.time() + retry_secs] the clock is read, then the seconds are
    converted to a float; when that raises, in the [except] clause, the
    exception leaves [send_prompt] and nothing is written. *)
Definition rate_limited (i : nat) (secs : Z) (r : Run) : res unit * Run :=
  let '(now, r) := read_clock env r in
  match float_of_int secs with
  | Raise e => (Raise e, r)
  | Ok f =>
      (Ok tt, emit (Disabled i now secs) (with_sys (disable i (float_add now f)) r))
  end.

(** Lines 299-301: the warning, the sleep, [continue]. *)
Definition failed_attempt (i attempt : nat) (e : PyExn) (r : Run) : Run :=
  emit (Sleep (4 * attempt)) (emit (Failed i attempt e) r).

(** [last_exc = e] *)
Definition caught (e : PyExn) (r : Run) : Run := mkRun (sys r) (Some e) (trace r).

(** The [for attempt in range(1, MAX_PROVIDER_RETRIES+1)] loop on the
    provider at position [i], for a submission that runs alone: [Ok None]
    when the loop ends without a [return] (its end or the [break]), [Raise]
    when an exception leaves it. *)
Fixpoint attempts (i : nat) (prov : Provider) (context : list (text * json))
  (prompt_text : text) (todo : list nat) (r : Run) : res (option Answer) * Run :=
  match todo with
  | [] => (Ok None, r)
  | attempt :: rest =>
      let '(done, r) := one_attempt i prov context prompt_text attempt r in
      match done with
      | Ok a => (Ok (Some a), r)
      | Raise e =>
          let r := caught e r in
          match rate_limit_of e with
          | Some secs =>
              let '(written, r) := rate_limited i secs r in
              (do _ <- written; Ok None, r)
          | None =>
              attempts i prov context prompt_text rest (failed_attempt i attempt e r)
          end
      end
  end.

(** Line 271, [if disabled_until and time.time() < disabled_until]: the
    clock is read only when [disabled_until] is not zero. *)
Inductive Check : Type :=
| Cooling (now : Q)
| Available (now : option Q).

Definition check_cooldown (prov : Provider) (r : Run) : Check * Run :=
  let disabled_until := dflt 0%Q (_disabled_until prov) in
  if negb (Qeq_bool disabled_until 0) then
    let '(now, r) := read_clock env r in
    if Qltb now disabled_until then (Cooling now, r) else (Available (Some now), r)
  else (Available None, r).

(** The [for prov in provs] loop, for a submission that runs alone. *)
Fixpoint dispatch (context : list (text * json)) (prompt_text : text) (refs : list nat)
  (r : Run) : res (option Answer) * Run :=
  match refs with
  | [] => (Ok None, r)
  | i :: rest =>
      match deref (providers (sys r)) i with
      | None => dispatch context prompt_text rest r
      | Some prov =>
          match check_cooldown prov r with
          | (Cooling now, r) =>
              let '(_, r) := read_clock env r in      (* [remain], for the message *)
              dispatch context prompt_text rest (emit (Skip i now) r)
          | (Available now, r) =>
              match attempts i prov context prompt_text (seq 1 MAX_PROVIDER_RETRIES)
                             (emit (Select i now) r) with
              | (Ok None, r) => dispatch context prompt_text rest r
              | done => done
              end
          end
      end
  end.

(** [send_prompt(prompt_text)] for a submission that runs alone (no other
    task runs while it waits): the outcome, the globals afterwards, and what
    was done. *)
Definition send_prompt (prompt_text : text) (s : Sys) : Outcome * Sys * list Event :=
  match providers s with
  | [] => (NoProviders, s, [])
  | _ =>
      let context := build_context (current_session s) prompt_text in
      match enabled_refs (providers s) with
      | [] => (NoEnabledProviders, s, [])
      | _ =>
          let provs := selection_order (preferred_provider_type s) (providers s) in
          match dispatch context prompt_text provs (mkRun s None []) with
          | (Ok (Some a), r) => (Returned a, sys r, trace r)
          | (Ok None, r) => (AllProvidersFailed (last_exc r), sys r, trace r)
          | (Raise e, r) => (Escaped e, sys r, trace r)
          end
      end
  end.

End Dispatcher.

(* ================================================================== *)
(** ** Submissions in flight together *)
(* ================================================================== *)

(** [clipboard_watcher] starts every submission with [asyncio.create_task]
    (lines 330 and 335) and goes on polling, so a submission can begin while
    another one is waiting. A task waits where it awaits something that is
    not ready: the reply, in [call_provider] ([session.post] and
    [resp.text()], taken here as one wait), and [asyncio.sleep]. Between two
    waits it runs without interruption; in particular the test of line 271
    and the first [session.post] on the provider are not separated.

    The globals (with the provider dicts, which [provs] only references),
    the clock and the network are shared. [last_exc], [messages], [provs]
    and the position in the two loops belong to the task, and so does its
    trace. The reply to a request is the one that the environment gives to
    the request of that number, whenever the task comes to read it.

    A task is what is left of it: it has ended, with its result, or it
    waits, and goes on from the globals that it finds when it is resumed. *)
Inductive Co (A : Type) : Type :=
| Finished (a : A) (r : Run)
| Await (r : Run) (k : Run -> Co A).

Arguments Finished {A} a r.
Arguments Await {A} r k.

Fixpoint bind_co {A B : Type} (c : Co A) (f : A -> Run -> Co B) : Co B :=
  match c with
  | Finished a r => f a r
  | Await r k => Await r (fun r' => bind_co (k r') f)
  end.

(** The state in which a task has stopped. *)
Definition state_of {A : Type} (c : Co A) : Run :=
  match c with Finished _ r => r | Await r _ => r end.

Section InFlight.

Variable py_repr : json -> text.
Variable json_dumps : json -> text.
Variable env : Env.

(** The body of the [try], with the wait for the reply. *)
Definition one_attempt_co (i : nat) (prov : Provider) (context : list (text * json))
  (prompt_text : text) (attempt : nat) (r : Run) : Co (res Answer) :=
  let r := emit (Try i attempt (clock_reads (sys r))) r in
  match call_request prov context prompt_text with
  | Raise e => Finished (Raise e) r
  | Ok req =>
      let '(rep, r) := post env req r in
      Await r (fun r =>
        match (do rep <- rep;
               read_reply py_repr (content_of py_repr json_dumps prov) (prov_id prov) rep) with
        | Ok cr =>
            let '(done, r) := record_answer env i (prov_id prov) prompt_text cr r in
            Finished done r
        | Raise e => Finished (Raise e) r
        end)
  end.

(** The attempts on one provider, with the wait of [asyncio.sleep]. *)
Fixpoint attempts_co (i : nat) (prov : Provider) (context : list (text * json))
  (prompt_text : text) (todo : list nat) (r : Run) : Co (res (option Answer)) :=
  match todo with
  | [] => Finished (Ok None) r
  | attempt :: rest =>
      bind_co (one_attempt_co i prov context prompt_text attempt r) (fun done r =>
        match done with
        | Ok a => Finished (Ok (Some a)) r
        | Raise e =>
            let r := caught e r in
            match rate_limit_of e with
            | Some secs =>
                let '(written, r) := rate_limited env i secs r in
                Finished (do _ <- written; Ok None) r
            | None =>
                Await (failed_attempt i attempt e r)
                      (fun r => attempts_co i prov context prompt_text rest r)
            end
        end)
  end.

(** The [for prov in provs] loop. The provider is looked up, and its
    [_disabled_until] read, when the loop comes to it. *)
Fixpoint dispatch_co (context : list (text * json)) (prompt_text : text) (refs : list nat)
  (r : Run) : Co (res (option Answer)) :=
  match refs with
  | [] => Finished (Ok None) r
  | i :: rest =>
      match deref (providers (sys r)) i with
      | None => dispatch_co context prompt_text rest r
      | Some prov =>
          match check_cooldown env prov r with
          | (Cooling now, r) =>
              let '(_, r) := read_clock env r in
              dispatch_co context prompt_text rest (emit (Skip i now) r)
          | (Available now, r) =>
              bind_co (attempts_co i prov context prompt_text (seq 1 MAX_PROVIDER_RETRIES)
                                   (emit (Select i now) r))
                      (fun done r =>
                         match done with
                         | Ok None => dispatch_co context prompt_text rest r
                         | _ => Finished done r
                         end)
          end
      end
  end.

(** [send_prompt(prompt_text)] as a task, from the moment it first runs. *)
Definition send_prompt_co (prompt_text : text) (r : Run) : Co Outcome :=
  let s := sys r in
  match providers s with
  | [] => Finished NoProviders r
  | _ =>
      let context := build_context (current_session s) prompt_text in
      match enabled_refs (providers s) with
      | [] => Finished NoEnabledProviders r
      | _ =>
          let provs := selection_order (preferred_provider_type s) (providers s) in
          bind_co (dispatch_co context prompt_text provs r)
                  (fun done r =>
                     Finished (match done with
                           | Ok (Some a) => Returned a
                           | Ok None => AllProvidersFailed (last_exc r)
                           | Raise e => Escaped e
                           end) r)
      end
  end.

(** A task that was created and has not run yet. *)
Definition submit (prompt_text : text) : Co Outcome :=
  Await (mkRun (mkSys [] None [] 0 0 0) None []) (send_prompt_co prompt_text).

End InFlight.

(** A task that nothing interrupts: every wait ends with the globals as the
    task left them. *)
Fixpoint run_alone {A : Type} (c : Co A) : A * Run :=
  match c with
  | Finished a r => (a, r)
  | Await r k => run_alone (k r)
  end.

(** The event loop: the globals, the tasks, and what the tasks have done so
    far, each event with the number of its task. *)
Record Pool (A : Type) : Type := mkPool {
  shared : Sys;
  tasks : list (Co A);
  log : list (nat * Event)
}.

Arguments mkPool {A} shared tasks log.
Arguments shared {A} p.
Arguments tasks {A} p.
Arguments log {A} p.

(** The task [j] is resumed and runs up to its next wait, or to its end. It
    finds the globals as the other tasks have left them, and its own
    locals. *)
Definition resume {A : Type} (j : nat) (p : Pool A) : Pool A :=
  match nth_error (tasks p) j with
  | Some (Await r k) =>
      let c := k (mkRun (shared p) (last_exc r) (trace r)) in
      mkPool (sys (state_of c)) (update_nth j (fun _ => c) (tasks p))
             (log p ++ map (pair j) (skipn (len (trace r)) (trace (state_of c))))
  | _ => p
  end.

(** The tasks are resumed in the order in which their waits end. *)
Definition interleave {A : Type} (schedule : list nat) (p : Pool A) : Pool A :=
  fold_left (fun p j => resume j p) schedule p.

(* ================================================================== *)
(** * The rest of the module: sessions, the clipboard, the console *)
(* ================================================================== *)

(** ** start_session *)

(** [current_session = cs] *)
Definition set_session (cs : Session) (s : Sys) : Sys :=
  mkSys (providers s) (Some cs) (preferred_provider_type s) (clock_reads s) (posts s)
        (saves s).

(** [start_session(name)]; [sid] is [str(uuid.uuid4())[:8]]. The global is
    assigned before the file is written, so a failed write leaves the new
    session in place. *)
Definition start_session (env : Env) (sid : text) (name : text) (r : Run)
  : res Session * Run :=
  let '(t, r) := now_ts env r in
  let cs := mkSession sid (name ++ str "_" ++ sid) t [] in
  let r := with_sys (set_session cs) r in
  let '(saved, r) := save_session env r in
  match saved with
  | Raise e => (Raise e, r)
  | Ok _ => (Ok cs, r)
  end.

(** ** The globals of the two loops *)

(** The globals of the module: those of [send_prompt], and [mode],
    [last_clip], [last_response_time] and [running]. *)
Record App : Type := mkApp {
  app_sys : Sys;
  mode : text;                    (* "off" | "all" *)
  last_clip : text;
  last_response_time : Q;
  running : bool
}.

Definition with_app_sys (s : Sys) (a : App) : App :=
  mkApp s (mode a) (last_clip a) (last_response_time a) (running a).

Definition set_mode (m : text) (a : App) : App :=
  mkApp (app_sys a) m (last_clip a) (last_response_time a) (running a).

Definition set_last_clip (t : text) (a : App) : App :=
  mkApp (app_sys a) (mode a) t (last_response_time a) (running a).

Definition set_running (b : bool) (a : App) : App :=
  mkApp (app_sys a) (mode a) (last_clip a) (last_response_time a) b.

Definition set_preferred (t : text) (a : App) : App :=
  with_app_sys (mkSys (providers (app_sys a)) (current_session (app_sys a)) t
                      (clock_reads (app_sys a)) (posts (app_sys a)) (saves (app_sys a))) a.

(** Lines 25-30 and 48: the globals when the module is loaded. *)
Definition initial_app (loaded : list Provider) : App :=
  mkApp (mkSys loaded None (str "openrouter") 0 0 0) (str "off") [] 0%Q true.

(** ** process_clip_as_prompt *)

(** How [process_clip_as_prompt] ends: the [SKIP] line, the [Done] line, or
    the [ERROR] line with the exception of [start_session] or of
    [send_prompt]. *)
Inductive Handled : Type :=
| TooSoon
| Done (a : Answer)
| StartFailed (e : PyExn)
| SendFailed (o : Outcome).

Section Prompting.

Variable py_repr : json -> text.
Variable json_dumps : json -> text.
Variable env : Env.

(** [process_clip_as_prompt(prompt_text)], run as a whole: no other task
    runs while it waits for [send_prompt]. [sid] is the identifier that
    [uuid] gives if a session has to be started. The result comes with what
    was done. *)
Definition process_clip_as_prompt (sid : text) (prompt_text : text) (a : App)
  : Handled * App * list Event :=
  let '(current_time, r1) := read_clock env (mkRun (app_sys a) None []) in
  if Qltb (Qminus current_time (last_response_time a)) 2 then
    (TooSoon, with_app_sys (sys r1) a, [])
  else
    let '(started, r2) :=
      match current_session (sys r1) with
      | Some _ => (Ok tt, r1)
      | None =>
          let '(cs, r) := start_session env sid (str "local_session") r1 in
          (do _ <- cs; Ok tt, r)
      end in
    match started with
    | Raise e => (StartFailed e, with_app_sys (sys r2) a, trace r2)
    | Ok _ =>
        let '(outcome, s3, events) :=
          send_prompt py_repr json_dumps env prompt_text (sys r2) in
        match outcome with
        | Returned ans =>
            let '(t, r4) := read_clock env (mkRun s3 None []) in
            (Done ans,
             mkApp (sys r4) (mode a) (last_clip a) t (running a),
             trace r2 ++ events)
        | _ => (SendFailed outcome, with_app_sys s3 a, trace r2 ++ events)
        end
    end.

End Prompting.

(** ** clipboard_watcher *)

(** What one poll of the clipboard does. *)
Inductive ClipEvent : Type :=
| Unchanged                       (* empty, or the text of the poll before *)
| PreferGemini                    (* [MODE] preferred provider -> gemini *)
| PreferOpenRouter                (* [MODE] preferred provider -> openrouter *)
| PromptAllOn                     (* [MODE] agent.promptall ON *)
| PromptOff                       (* [MODE] agent.prompt OFF *)
| TriggerAll (t : text)           (* [TRIGGER] promptall; the task is created *)
| TriggerInline (rest : text)     (* [TRIGGER] inline agent.prompt; the task is created *)
| TokenSeen                       (* [TRIGGER] 'agent.prompt' token seen *)
| NotForTheBot.                   (* a new text that is no command, mode off *)

Definition is_sep (c : ascii) : bool := ascii_eqb c ":" || is_space c.

(** [re.sub(r"^agent\.prompt[:\s]*", "", t, flags=re.I)] *)
Definition strip_agent_prompt (t : text) : text :=
  if startswith (str "agent.prompt") (lower t)
  then dropwhile is_sep (skipn 12 t)
  else t.

(** The body of the loop, lines 309-337; [pasted] is what
    [pyperclip.paste()] gives, [None] when it raises or returns [None]. *)
Definition clipboard_poll (pasted : option text) (a : App) : ClipEvent * App :=
  let txt := or_text pasted [] in
  match txt with
  | [] => (Unchanged, a)
  | _ =>
      if text_eqb txt (last_clip a) then (Unchanged, a)
      else
        let a := set_last_clip txt a in
        let t := strip txt in
        let lo := lower t in
        if startswith (str "model.gem") lo || text_eqb lo (str "model.gem") then
          (PreferGemini, set_preferred (str "gemini") a)
        else if startswith (str "model.openr") lo || text_eqb lo (str "model.openr") then
          (PreferOpenRouter, set_preferred (str "openrouter") a)
        else if startswith (str "agent.promptall") lo then
          (PromptAllOn, set_mode (str "all") a)
        else if startswith (str "agent.promptone") lo
                || startswith (str "agent.prompt off") lo then
          (PromptOff, set_mode (str "off") a)
        else if text_eqb (mode a) (str "all") then
          (TriggerAll t, a)
        else if startswith (str "agent.prompt") lo then
          let rest := strip_agent_prompt t in
          match strip rest with
          | [] => (TokenSeen, a)
          | _ => (TriggerInline rest, a)
          end
        else (NotForTheBot, a)
  end.

(** The loop, for the successive values of the clipboard: it goes on while
    [running] holds. *)
Fixpoint clipboard_watcher (pastes : list (option text)) (a : App)
  : list ClipEvent * App :=
  match pastes with
  | [] => ([], a)
  | p :: rest =>
      if running a then
        let '(e, a) := clipboard_poll p a in
        let '(es, a) := clipboard_watcher rest a in
        (e :: es, a)
      else ([], a)
  end.

(** ** stdin_loop *)

(** [cmd.split(None, 1)]: the first word, and the rest of the text without
    the white space before it when there is one. *)
Definition split_first (cmd : text) : text * option text :=
  let s := lstrip cmd in
  let word := takewhile (fun c => negb (is_space c)) s in
  match lstrip (dropwhile (fun c => negb (is_space c)) s) with
  | [] => (word, None)
  | r => (word, Some r)
  end.

(** Why the loop ended with an exception. *)
Inductive LoopError : Type :=
| UnpackError                     (* [_, val = ...] on a list of one element *)
| SessionError (e : PyExn).       (* [start_session()] raised *)

(** What one line of input does. *)
Inductive ConsoleEvent : Type :=
| NoCommand                       (* an empty line *)
| HelpShown
| StatusShown (mode preferred session : text) (enabled_providers : nat)
| SessionStarted (cs : Session)
| ProvidersListed (lines : list (Provider * text))   (* each with its endpoint *)
| ModeSet (m : text)              (* Mode set to all / off *)
| ModeRejected                    (* mode must be: all or off *)
| ModelSet (preferred : text)     (* Preferred provider set to ... *)
| ModelRejected                   (* model must be: gem or openr *)
| ShutDown                        (* quit, exit, or the end of the input *)
| UnknownCommand
| Crashed (e : LoopError).        (* the exception leaves the loop *)

(** The body of the loop, lines 372-410; [line] is what [input] returns,
    [None] for [EOFError] and [KeyboardInterrupt]; [sid] is the identifier
    for a new session. *)
Definition stdin_command (env : Env) (sid : text) (line : option text) (a : App)
  : ConsoleEvent * App :=
  let cmd := strip (match line with Some l => l | None => str "quit" end) in
  match cmd with
  | [] => (NoCommand, a)
  | _ =>
      if text_eqb cmd (str "h") || text_eqb cmd (str "help") then (HelpShown, a)
      else if text_eqb cmd (str "status") then
        (StatusShown (mode a)
           (match preferred_provider_type (app_sys a) with
            | [] => str "none"
            | p => p
            end)
           (match current_session (app_sys a) with
            | Some cs => session_name cs
            | None => str "none"
            end)
           (len (filter get_enabled (providers (app_sys a)))),
         a)
      else if text_eqb cmd (str "new") then
        let '(started, r) :=
          start_session env sid (str "local_session") (mkRun (app_sys a) None []) in
        match started with
        | Ok cs => (SessionStarted cs, with_app_sys (sys r) a)
        | Raise e => (Crashed (SessionError e), with_app_sys (sys r) a)
        end
      else if text_eqb cmd (str "providers") then
        (ProvidersListed (map (fun p => (p, provider_endpoint p)) (providers (app_sys a))), a)
      else if startswith (str "mode ") cmd then
        match snd (split_first cmd) with
        | None => (Crashed UnpackError, a)
        | Some val =>
            if text_eqb val (str "all") then (ModeSet (str "all"), set_mode (str "all") a)
            else if text_eqb val (str "off") || text_eqb val (str "one") then
              (ModeSet (str "off"), set_mode (str "off") a)
            else (ModeRejected, a)
        end
      else if startswith (str "model ") cmd then
        match snd (split_first cmd) with
        | None => (Crashed UnpackError, a)
        | Some val =>
            if text_eqb val (str "gem") then
              (ModelSet (str "gemini"), set_preferred (str "gemini") a)
            else if text_eqb val (str "openr") then
              (ModelSet (str "openrouter"), set_preferred (str "openrouter") a)
            else (ModelRejected, a)
        end
      else if text_eqb cmd (str "quit") || text_eqb cmd (str "exit") then
        (ShutDown, set_running false a)
      else (UnknownCommand, a)
  end.

(* ================================================================== *)
(** * Properties *)
(* ================================================================== *)

(** ** Text *)

(** The text functions on small inputs. *)

Example strip_example :
  strip ([ascii_of_nat 31; " "] ++ str "x" ++ [" "; ascii_of_nat 28])%char = str "x".
Proof. reflexivity. Qed.

Example splitlines_examples :
  splitlines (str "ab" ++ [LF]) = [str "ab"]
  /\ splitlines [LF] = [[]]
  /\ splitlines (str "a" ++ [CR; LF] ++ str "b") = [str "a"; str "b"]
  /\ splitlines (str "a" ++ [LF; LF]) = [str "a"; []].
Proof. repeat split. Qed.

Lemma ascii_eqb_eq (a b : ascii) : ascii_eqb a b = true <-> a = b.
Proof. apply Ascii.eqb_eq. Qed.

Lemma ascii_eqb_refl (a : ascii) : ascii_eqb a a = true.
Proof. apply Ascii.eqb_refl. Qed.

Lemma text_eqb_eq (a b : text) : text_eqb a b = true <-> a = b.
Proof.
  revert b; induction a as [|x a IH]; intros [|y b]; simpl; split; intro H;
    try reflexivity; try discriminate.
  - apply andb_true_iff in H as [Hx Hr]. apply ascii_eqb_eq in Hx. apply IH in Hr.
    now subst.
  - injection H as -> ->. rewrite ascii_eqb_refl. now apply IH.
Qed.

Lemma text_eqb_refl (a : text) : text_eqb a a = true.
Proof. now apply text_eqb_eq. Qed.

Lemma startswith_app (p b : text) : startswith p (p ++ b) = true.
Proof.
  induction p as [|x p IH]; [reflexivity|]. cbn [app startswith].
  now rewrite ascii_eqb_refl.
Qed.

Lemma startswith_app_l (p a b : text) :
  startswith p a = true -> startswith p (a ++ b) = true.
Proof.
  revert a. induction p as [|x p IH]; intros [|y a] H; try reflexivity; try discriminate.
  cbn [app startswith] in *. apply andb_true_iff in H as [Hx Hp].
  now rewrite Hx, IH.
Qed.

Lemma startswith_skipn (p s : text) :
  startswith p s = true -> s = p ++ skipn (List.length p) s.
Proof.
  revert s. induction p as [|x p IH]; intros [|y s] H; try reflexivity; try discriminate.
  cbn [startswith] in H. apply andb_true_iff in H as [Hx Hp].
  apply ascii_eqb_eq in Hx. subst y. cbn [List.length skipn app]. f_equal. now apply IH.
Qed.

Lemma takewhile_forallb (f : ascii -> bool) (s : text) : forallb f (takewhile f s) = true.
Proof.
  induction s as [|c s IH]; [reflexivity|]. cbn [takewhile].
  destruct (f c) eqn:E; [|reflexivity]. cbn [forallb]. now rewrite E.
Qed.

Lemma skipn_prefix {A : Type} (p s : list A) : skipn (List.length p) (p ++ s) = s.
Proof. rewrite skipn_app, skipn_all, Nat.sub_diag. reflexivity. Qed.

Lemma strip_head (c : ascii) (s : text) : is_space c = false -> strip (c :: s) <> [].
Proof.
  intro H. unfold strip, lstrip, rstrip. cbn [dropwhile]. rewrite H. cbn [rstrip_by].
  destruct (rstrip_by is_space s); [rewrite H|]; discriminate.
Qed.

Lemma takewhile_app (f : ascii -> bool) (ds r : text) :
  forallb f ds = true ->
  match r with [] => True | c :: _ => f c = false end ->
  takewhile f (ds ++ r) = ds /\ dropwhile f (ds ++ r) = r.
Proof.
  intros Hds Hr. induction ds as [|d ds IH]; simpl in *.
  - destruct r as [|c r]; simpl; [now split|]. now rewrite Hr.
  - apply andb_true_iff in Hds as [Hd Hds]. rewrite Hd.
    destruct (IH Hds) as [-> ->]. now split.
Qed.

Lemma takewhile_dropwhile (f : ascii -> bool) (s : text) :
  takewhile f s ++ dropwhile f s = s.
Proof.
  induction s as [|c s IH]; simpl; [reflexivity|].
  destruct (f c); simpl; [now rewrite IH | reflexivity].
Qed.

Lemma rstrip_by_last (f : ascii -> bool) (s r : text) (c : ascii) :
  rstrip_by f s = r ++ [c] -> f c = false.
Proof.
  revert r; induction s as [|x s IH]; intros r H; simpl in H.
  - now destruct r.
  - destruct (rstrip_by f s) as [|y t] eqn:E.
    + destruct (f x) eqn:Fx; [now destruct r|].
      destruct r as [|z r]; [now injection H as <-|].
      injection H as _ H. now destruct r.
    + destruct r as [|z r]; [discriminate|].
      injection H as _ H. now apply (IH r).
Qed.

(** After [rstrip] nothing is left to strip, and no newline ends the text. *)
Lemma rstrip_no_trailing_space (s r : text) (c : ascii) :
  rstrip s = r ++ [c] -> is_space c = false.
Proof. apply rstrip_by_last. Qed.

Lemma endswith_LF_rstrip (s : text) : endswith [LF] (rstrip s) = false.
Proof.
  unfold endswith. destruct (rev (rstrip s)) as [|c t] eqn:E; [reflexivity|].
  assert (H : rstrip s = rev t ++ [c]).
  { rewrite <- (rev_involutive (rstrip s)), E. reflexivity. }
  apply rstrip_no_trailing_space in H. simpl.
  destruct (ascii_eqb LF c) eqn:Ec; [|reflexivity].
  apply ascii_eqb_eq in Ec. subst c. discriminate.
Qed.

(** ** parse_retry_delay_seconds *)

(** The two patterns and the conversion on small inputs. *)

Example match_seconds_examples :
  match_seconds (str "13s") = Some (str "13")
  /\ match_seconds (str "13.5s") = Some (str "13")
  /\ match_seconds (str "13s" ++ [LF]) = Some (str "13")
  /\ match_seconds (str "13.s") = None
  /\ match_seconds (str ".5s") = None
  /\ match_seconds (str "13") = None.
Proof. repeat split. Qed.

Example match_iso_examples :
  match_iso (str "PT") = Some (None, None, None)
  /\ match_iso (str "PT5M") = Some (None, Some (str "5"), None)
  /\ match_iso (str "PT1H2M3S") = Some (Some (str "1"), Some (str "2"), Some (str "3"))
  /\ match_iso (str "PT1M1H") = None
  /\ match_iso (str "P1DT2H") = None.
Proof. repeat split. Qed.

Example int_of_float_examples :
  int_of_float 13 = Ok 13
  /\ int_of_float 18014398509481987 = Ok 18014398509481988
  /\ int_of_float (10 ^ 400) = Raise (plain OverflowError).
Proof. repeat split. Qed.

Example int_of_time_examples :
  int_of_time (7 # 2) = 3 /\ int_of_time (- 1 # 2) = 0 /\ int_of_time (- 3 # 2) = -1
  /\ int_of_time (inject_Z 1700000000) = 1700000000.
Proof. repeat split. Qed.

(** 1700000000.0 + 30; 0.1 + 0.2, which is not 0.3; 2.0**53 + 1.0;
    float(2**53 + 1); the last int that converts, and the first that does
    not. *)
Example float_add_examples :
  (float_add (inject_Z 1700000000) (inject_Z 30) == inject_Z 1700000030)%Q
  /\ (float_add (3602879701896397 # 36028797018963968) (3602879701896397 # 18014398509481984)
      == 1351079888211149 # 4503599627370496)%Q
  /\ (float_add (inject_Z (2 ^ 53)) 1 == inject_Z (2 ^ 53))%Q
  /\ float_of_int (2 ^ 53 + 1) = Ok (inject_Z (2 ^ 53))
  /\ float_of_int (2 ^ 1024 - 2 ^ 970 - 1) = Ok (inject_Z (2 ^ 1024 - 2 ^ 971))
  /\ float_of_int (2 ^ 1024 - 2 ^ 970) = Raise (plain OverflowError).
Proof. repeat split. Qed.

Definition digits (ds : text) : Prop := ds <> [] /\ forallb is_digit ds = true.

Lemma decimal_value_nonneg_from (ds : text) (acc : Z) :
  forallb is_digit ds = true -> 0 <= acc ->
  0 <= fold_left (fun a c => 10 * a + digit_val c) ds acc.
Proof.
  revert acc; induction ds as [|d ds IH]; intros acc Hds Hacc; cbn [fold_left];
    [assumption|].
  simpl in Hds. apply andb_true_iff in Hds as [Hd Hds]. apply IH; [assumption|].
  unfold is_digit, between in Hd. apply andb_true_iff in Hd as [Hlo _].
  apply Nat.leb_le in Hlo. unfold digit_val.
  assert (48 <= Z.of_nat (code d)) by (apply (Nat2Z.inj_le 48); exact Hlo). lia.
Qed.

Lemma decimal_value_nonneg (ds : text) :
  forallb is_digit ds = true -> 0 <= decimal_value ds.
Proof. intro H. apply decimal_value_nonneg_from; [assumption | lia]. Qed.

(** Below [2^53] every integer is a double. *)
Lemma int_of_float_exact (n : Z) :
  0 <= n < 2 ^ 53 -> int_of_float n = Ok n.
Proof.
  intros [Hlo Hhi]. unfold int_of_float.
  assert (Hb : Z.log2 n + 1 <= 53).
  { destruct (Z.eq_dec n 0) as [->|Hn]; [simpl; lia|].
    assert (Z.log2 n < 53) by (apply Z.log2_lt_pow2; lia). lia. }
  apply Z.leb_le in Hb. now rewrite Hb.
Qed.

Lemma match_seconds_plain (ds : text) :
  digits ds -> match_seconds (ds ++ str "s") = Some ds.
Proof.
  intros [Hne Hds]. unfold match_seconds.
  destruct (takewhile_app is_digit ds (str "s") Hds) as [-> ->]; [reflexivity|].
  destruct ds; [congruence|]. reflexivity.
Qed.

Lemma match_seconds_fraction (ds fs : text) :
  digits ds -> digits fs -> match_seconds (ds ++ str "." ++ fs ++ str "s") = Some ds.
Proof.
  intros [Hne Hds] [Hnf Hfs]. unfold match_seconds.
  destruct (takewhile_app is_digit ds (str "." ++ fs ++ str "s") Hds) as [-> ->];
    [reflexivity|].
  destruct ds; [congruence|]. cbn [str list_ascii_of_string app ascii_eqb].
  change (ascii_eqb "." "s") with false. change (ascii_eqb "." ".") with true. cbv iota.
  destruct (takewhile_app is_digit fs (str "s") Hfs) as [E1 E2]; [reflexivity|].
  cbn [str list_ascii_of_string app] in E1, E2. rewrite E1, E2.
  destruct fs; [congruence|]. reflexivity.
Qed.

(** The text of an ISO-style duration with the given components. *)
Definition component (letter : ascii) (g : option text) : text :=
  match g with
  | Some ds => ds ++ [letter]
  | None => []
  end.

Definition opt_digits (g : option text) : Prop :=
  match g with
  | Some ds => digits ds
  | None => True
  end.

Definition iso_text (h m sec : option text) : text :=
  str "PT" ++ component "H" h ++ component "M" m ++ component "S" sec.

Lemma iso_component_here (letter : ascii) (ds r : text) :
  digits ds -> is_digit letter = false ->
  iso_component letter (ds ++ letter :: r) = (Some ds, r).
Proof.
  intros [Hne Hds] Hl. unfold iso_component.
  destruct (takewhile_app is_digit ds (letter :: r) Hds Hl) as [-> ->].
  destruct ds; [congruence|]. now rewrite ascii_eqb_refl.
Qed.

Lemma iso_component_other (letter c : ascii) (ds r : text) :
  forallb is_digit ds = true -> is_digit c = false -> ascii_eqb c letter = false ->
  iso_component letter (ds ++ c :: r) = (None, ds ++ c :: r).
Proof.
  intros Hds Hc Hne. unfold iso_component.
  destruct (takewhile_app is_digit ds (c :: r) Hds Hc) as [-> ->].
  destruct ds; [reflexivity|]. now rewrite Hne.
Qed.

Lemma iso_component_nil (letter : ascii) : iso_component letter [] = (None, []).
Proof. reflexivity. Qed.

Lemma match_iso_text (h m sec : option text) :
  opt_digits h -> opt_digits m -> opt_digits sec ->
  match_iso (iso_text h m sec) = Some (h, m, sec).
Proof.
  intros Hh Hm Hs. unfold iso_text, match_iso.
  cbn [str list_ascii_of_string app].
  change (ascii_eqb "P" "P" && ascii_eqb "T" "T") with true. cbv iota.
  destruct h as [dh|], m as [dm|], sec as [dsec|]; cbn [component opt_digits] in *;
    repeat rewrite <- app_assoc; cbn [app];
    repeat first
      [ rewrite iso_component_here by (assumption || reflexivity)
      | rewrite iso_component_other by
          (first [apply Hh | apply Hm | apply Hs | reflexivity])
      | rewrite iso_component_nil
      | rewrite (iso_component_here "S" _ []) by (assumption || reflexivity) ];
    try reflexivity.
Qed.

Section ParserFacts.

Variable py_repr : json -> text.

Let scan := scan_details py_repr.
Let parse := parse_retry_delay_seconds py_repr.

Definition type_of (items : list (text * json)) : json :=
  dflt (JStr []) (assoc (str "@type") items).

Definition delay_of (items : list (text * json)) : json :=
  dflt JNull (assoc (str "retryDelay") items).

(** A detail that the loop passes over without returning or raising: a dict
    that is not a RetryInfo, or has no delay, or whose delay matches neither
    pattern. *)
Definition passes_over (d : json) : Prop :=
  exists items b,
    d = JObj items /\
    py_in (str "RetryInfo") (type_of items) = Ok b /\
    (b = false \/ truthy (delay_of items) = false \/
     (match_seconds (strip (py_str py_repr (delay_of items))) = None /\
      match_iso (strip (py_str py_repr (delay_of items))) = None)).

(** A RetryInfo detail whose delay is the non-empty string [s]. *)
Definition retry_detail (d : json) (s : text) : Prop :=
  exists items,
    d = JObj items /\
    py_in (str "RetryInfo") (type_of items) = Ok true /\
    assoc (str "retryDelay") items = Some (JStr s) /\ s <> [].

(** The payload is a dict whose "error" is a dict whose "details" is the
    list [ds]. *)
Definition has_details (error_json : json) (ds : list json) : Prop :=
  exists top err,
    error_json = JObj top /\
    assoc (str "error") top = Some (JObj err) /\
    assoc (str "details") err = Some (JArr ds).

Lemma scan_passes_over (d : json) (rest : list json) :
  passes_over d -> scan (d :: rest) = scan rest.
Proof.
  intros (items & b & -> & Hin & Hb). unfold scan. cbn [scan_details get bind].
  fold (type_of items). rewrite Hin. cbn [bind].
  destruct b; [|reflexivity].
  fold (delay_of items).
  destruct Hb as [Hb | [Hb | [H1 H2]]]; [discriminate | now rewrite Hb |].
  destruct (truthy (delay_of items)); [|reflexivity].
  now rewrite H1, H2.
Qed.

Lemma scan_prefix (pre rest : list json) :
  Forall passes_over pre -> scan (pre ++ rest) = scan rest.
Proof.
  induction 1 as [|d pre Hd _ IH]; [reflexivity|].
  cbn [app]. now rewrite scan_passes_over.
Qed.

Lemma scan_retry_detail (d : json) (s : text) (rest : list json) :
  retry_detail d s ->
  scan (d :: rest) =
  match match_seconds (strip s) with
  | Some g1 => do n <- int_of_float (decimal_value g1); Ok (Some n)
  | None =>
      match match_iso (strip s) with
      | Some (h, m, sec) =>
          do hours <- int_or_0 h;
          do mins <- int_or_0 m;
          do secs <- int_or_0 sec;
          Ok (Some (hours * 3600 + mins * 60 + secs))
      | None => scan rest
      end
  end.
Proof.
  intros (items & -> & Hin & Hrd & Hne). unfold scan. cbn [scan_details get bind].
  fold (type_of items). rewrite Hin. cbn [bind]. rewrite Hrd. cbn [dflt py_str truthy].
  destruct s; [congruence|]. reflexivity.
Qed.

Lemma parse_has_details (j : json) (ds : list json) :
  has_details j ds -> parse_retry_delay_body py_repr j = scan ds.
Proof.
  intros (top & err & -> & He & Hd). unfold scan, parse_retry_delay_body.
  cbn [get bind]. rewrite He. cbn [get bind dflt]. rewrite Hd. reflexivity.
Qed.

(** Anything but a list of details ends in the default. *)
Lemma parse_details_not_list (top err : list (text * json)) (v : json) :
  assoc (str "error") top = Some (JObj err) ->
  assoc (str "details") err = Some v ->
  is_list v = false ->
  parse (JObj top) = 10.
Proof.
  intros He Hd Hv. unfold parse, parse_retry_delay_seconds, parse_retry_delay_body.
  cbn [get bind]. rewrite He. cbn [get bind dflt]. rewrite Hd. cbn [dflt].
  destruct v as [| | | |s|l|items]; try reflexivity; try discriminate; cbn [py_iter bind].
  - destruct s as [|c s]; reflexivity.
  - destruct items as [|[k x] items]; reflexivity.
Qed.

End ParserFacts.

(** The number of a component of an ISO-style duration, and whether [int]
    converts it. *)
Definition value_of (g : option text) : Z :=
  match g with
  | Some ds => decimal_value ds
  | None => 0
  end.

Definition within_limit (g : option text) : bool :=
  match g with
  | Some ds => (len ds <=? MAX_STR_DIGITS)%nat
  | None => true
  end.

Lemma int_or_0_eq (g : option text) :
  int_or_0 g = if within_limit g then Ok (value_of g) else Raise (plain ValueError).
Proof. destruct g; reflexivity. Qed.

Lemma match_seconds_iso_text (h m sec : option text) :
  match_seconds (iso_text h m sec) = None.
Proof.
  unfold match_seconds, iso_text. cbn [str list_ascii_of_string app takewhile].
  change (is_digit "P") with false. reflexivity.
Qed.

Lemma match_seconds_shape (ds frac : text) :
  digits ds ->
  (frac = [] \/ exists fs, digits fs /\ frac = str "." ++ fs) ->
  match_seconds (ds ++ frac ++ str "s") = Some ds.
Proof.
  intros Hds [-> | (fs & Hfs & ->)].
  - now apply match_seconds_plain.
  - rewrite <- app_assoc. now apply match_seconds_fraction.
Qed.

(** C5 (as amended). The parser returns the value of the first RetryInfo
    detail whose delay, white space around it removed, matches one of the
    two patterns.
    For a decimal-seconds string with a trailing [s] that value is the
    integer part (the fraction is dropped) whenever the integer part is below
    [2^53], where the conversion through a double is exact.
    For the ISO-style [PT[n]H[n]M[n]S] it is hours*3600 + minutes*60 + seconds
    when no component has more than 4300 digits; with a longer component
    [int] raises and the result is 10.
    It is exactly 10 when the payload lacks the RetryInfo shape (not a dict,
    no "error", no "details", "details" not a list), when every detail is
    passed over (no RetryInfo, no delay, neither pattern matching), and when
    any step of the body raises: nothing is raised to the caller. *)
Theorem parse_retry_delay_seconds_spec (py_repr : json -> text) :
  (forall j pre d post s ds frac,
      has_details j (pre ++ d :: post) ->
      Forall (passes_over py_repr) pre ->
      retry_detail d s ->
      digits ds -> (frac = [] \/ exists fs, digits fs /\ frac = str "." ++ fs) ->
      strip s = ds ++ frac ++ str "s" ->
      decimal_value ds < 2 ^ 53 ->
      parse_retry_delay_seconds py_repr j = decimal_value ds)
  /\ (forall j pre d post s h m sec,
      has_details j (pre ++ d :: post) ->
      Forall (passes_over py_repr) pre ->
      retry_detail d s ->
      opt_digits h -> opt_digits m -> opt_digits sec ->
      strip s = iso_text h m sec ->
      parse_retry_delay_seconds py_repr j
      = if within_limit h && within_limit m && within_limit sec
        then value_of h * 3600 + value_of m * 60 + value_of sec
        else 10)
  /\ (forall j, is_dict j = false -> parse_retry_delay_seconds py_repr j = 10)
  /\ (forall top, assoc (str "error") top = None ->
      parse_retry_delay_seconds py_repr (JObj top) = 10)
  /\ (forall top v, assoc (str "error") top = Some v -> is_dict v = false ->
      parse_retry_delay_seconds py_repr (JObj top) = 10)
  /\ (forall top err, assoc (str "error") top = Some (JObj err) ->
      assoc (str "details") err = None ->
      parse_retry_delay_seconds py_repr (JObj top) = 10)
  /\ (forall top err v, assoc (str "error") top = Some (JObj err) ->
      assoc (str "details") err = Some v -> is_list v = false ->
      parse_retry_delay_seconds py_repr (JObj top) = 10)
  /\ (forall j ds, has_details j ds -> Forall (passes_over py_repr) ds ->
      parse_retry_delay_seconds py_repr j = 10)
  /\ (forall j e, parse_retry_delay_body py_repr j = Raise e ->
      parse_retry_delay_seconds py_repr j = 10).
Proof.
  repeat split.
  - intros j pre d post s ds frac Hj Hpre Hd Hds Hfrac Hs Hlt.
    unfold parse_retry_delay_seconds.
    erewrite parse_has_details by eassumption. rewrite scan_prefix by assumption.
    erewrite scan_retry_detail by eassumption. rewrite Hs, match_seconds_shape by assumption.
    rewrite int_of_float_exact; [reflexivity|].
    split; [apply decimal_value_nonneg, Hds | assumption].
  - intros j pre d post s h m sec Hj Hpre Hd Hh Hm Hsec Hs.
    unfold parse_retry_delay_seconds.
    erewrite parse_has_details by eassumption. rewrite scan_prefix by assumption.
    erewrite scan_retry_detail by eassumption. rewrite Hs, match_seconds_iso_text.
    rewrite match_iso_text by assumption. rewrite !int_or_0_eq.
    destruct (within_limit h); [|reflexivity].
    destruct (within_limit m); [|reflexivity].
    destruct (within_limit sec); reflexivity.
  - intros j Hj. destruct j; try reflexivity. discriminate.
  - intros top He. unfold parse_retry_delay_seconds, parse_retry_delay_body.
    cbn [get bind]. now rewrite He.
  - intros top v He Hv. unfold parse_retry_delay_seconds, parse_retry_delay_body.
    cbn [get bind]. rewrite He. destruct v; try reflexivity. discriminate.
  - intros top err He Hd. unfold parse_retry_delay_seconds, parse_retry_delay_body.
    cbn [get bind]. rewrite He. cbn [get bind dflt]. now rewrite Hd.
  - intros top err v. apply parse_details_not_list.
  - intros j ds Hj Hds. unfold parse_retry_delay_seconds.
    erewrite parse_has_details by eassumption.
    rewrite <- (app_nil_r ds), scan_prefix by assumption. reflexivity.
  - intros j e He. unfold parse_retry_delay_seconds. now rewrite He.
Qed.

(** A payload with one RetryInfo detail, as the Google APIs send it. *)
Definition retry_info (delay : json) : json :=
  JObj [(str "error", JObj [(str "code", JInt 429); (str "details",
     JArr [JObj [(str "@type", JStr (str "type.googleapis.com/google.rpc.RetryInfo"));
                 (str "retryDelay", delay)]])])].

Definition sample_repr : json -> text := fun _ => str "<object>".
Definition sample_dumps : json -> text := fun _ => str "<json>".

Lemma retry_info_has_details (delay : json) :
  has_details (retry_info delay)
    ([] ++ JObj [(str "@type", JStr (str "type.googleapis.com/google.rpc.RetryInfo"));
                 (str "retryDelay", delay)] :: []).
Proof. eexists _, _. repeat split; reflexivity. Qed.

Lemma retry_info_detail (s : text) :
  s <> [] ->
  retry_detail (JObj [(str "@type", JStr (str "type.googleapis.com/google.rpc.RetryInfo"));
                      (str "retryDelay", JStr s)]) s.
Proof. intro H. eexists. repeat split; try reflexivity. exact H. Qed.

Lemma parse_retry_delay_seconds_spec_witness :
  parse_retry_delay_seconds sample_repr (retry_info (JStr (str "13s"))) = 13
  /\ parse_retry_delay_seconds sample_repr (retry_info (JStr (str "13.5s"))) = 13
  /\ parse_retry_delay_seconds sample_repr (retry_info (JStr (str "PT1H2M3S"))) = 3723
  /\ parse_retry_delay_seconds sample_repr (JObj []) = 10
  /\ parse_retry_delay_seconds sample_repr (retry_info (JStr (str "soon"))) = 10.
Proof.
  destruct (parse_retry_delay_seconds_spec sample_repr)
    as (Hsec & Hiso & _ & Hnoerr & _ & _ & _ & Hnone & _).
  refine (conj _ (conj _ (conj _ (conj _ _)))).
  - change 13 with (decimal_value (str "13")).
    eapply (Hsec _ [] _ [] (str "13s") (str "13") []);
      [ apply retry_info_has_details | constructor
      | apply retry_info_detail; discriminate
      | split; [discriminate | reflexivity] | now left | reflexivity | reflexivity ].
  - change 13 with (decimal_value (str "13")).
    eapply (Hsec _ [] _ [] (str "13.5s") (str "13") (str ".5"));
      [ apply retry_info_has_details | constructor
      | apply retry_info_detail; discriminate
      | split; [discriminate | reflexivity]
      | right; exists (str "5"); split; [split; [discriminate | reflexivity] | reflexivity]
      | reflexivity | reflexivity ].
  - rewrite (Hiso (retry_info (JStr (str "PT1H2M3S"))) []
               (JObj [(str "@type", JStr (str "type.googleapis.com/google.rpc.RetryInfo"));
                      (str "retryDelay", JStr (str "PT1H2M3S"))])
               [] (str "PT1H2M3S") (Some (str "1")) (Some (str "2")) (Some (str "3")));
      [ reflexivity | apply retry_info_has_details | constructor
      | apply retry_info_detail; discriminate
      | split; [discriminate | reflexivity] | split; [discriminate | reflexivity]
      | split; [discriminate | reflexivity] | reflexivity ].
  - apply Hnoerr. reflexivity.
  - apply (Hnone _ _ (retry_info_has_details _)). constructor; [|constructor].
    eexists _, true. repeat split; try reflexivity. right; right. split; reflexivity.
Defined.

(** C5, the claim as stated fails: the integer part 2^53 + 1 is not a
    double, and [int(float("9007199254740993"))] is 2^53. *)
Lemma parse_retry_delay_seconds_not_floor :
  parse_retry_delay_seconds sample_repr (retry_info (JStr (str "9007199254740993s")))
    = 9007199254740992
  /\ decimal_value (str "9007199254740993") = 9007199254740993
  /\ parse_retry_delay_seconds sample_repr (retry_info (JStr (str "9007199254740993s")))
     <> decimal_value (str "9007199254740993").
Proof. repeat split; vm_compute; congruence. Qed.

(** ** minimalize_response *)

Example findall_fences_examples :
  findall_fences (str "````" ++ [LF] ++ str "```") = [[]]
  /\ findall_fences (str "```js code```") = []
  /\ findall_fences (str "hello ```js" ++ [LF] ++ str "abc  " ++ [LF] ++ str "``` and ```"
                      ++ [LF] ++ str "abcdefghi```")
     = [str "abc  " ++ [LF]; str "abcdefghi"]
  /\ findall_fences (str "```a" ++ [LF] ++ str "x```" ++ [LF] ++ str "y```") = [str "x"].
Proof. repeat split. Qed.

Example inline_code_match_examples :
  map inline_code_match
      (map str ["x = 1"; "x == 1"; "format"; "for x"; "print(3)"; "printf"; "a.b-c= 1";
                ""; "if"; "="; "// note"; "# note"]%string)
  = [true; true; false; true; true; false; true; false; true; false; true; true].
Proof. reflexivity. Qed.

Example sort_longer_first_example :
  sort longer_first (map str ["aa"; "bb"; "c"; "dd"]%string)
  = map str ["aa"; "bb"; "dd"; "c"]%string.
Proof. reflexivity. Qed.

(** The head of the sorted blocks is the first of the longest ones. *)
Lemma sort_longer_first_head (blocks : list text) :
  blocks <> [] ->
  exists pre b post rest,
    blocks = pre ++ b :: post /\
    sort longer_first blocks = b :: rest /\
    (forall x, In x pre -> (len x < len b)%nat) /\
    (forall x, In x post -> (len x <= len b)%nat).
Proof.
  induction blocks as [|x l IH]; [congruence|]. intros _.
  destruct l as [|y l'].
  - exists [], x, [], []. repeat split; intros z [].
  - destruct IH as (pre & b & post & rest & Hl & Hs & Hpre & Hpost); [discriminate|].
    cbn [sort] in *. rewrite Hs. cbn [insert]. unfold longer_first at 1.
    destruct (len b <=? len x)%nat eqn:E.
    + apply Nat.leb_le in E. exists [], x, (y :: l'), (b :: rest).
      repeat split; [intros z [] |].
      intros z Hz. rewrite Hl in Hz. apply in_app_or in Hz as [Hz | [<- | Hz]].
      * apply Hpre in Hz. lia.
      * exact E.
      * apply Hpost in Hz. lia.
    + apply Nat.leb_gt in E. exists (x :: pre), b, post, (insert longer_first x rest).
      rewrite Hl. repeat split; [|assumption].
      intros z [<- | Hz]; [exact E | now apply Hpre].
Qed.

Lemma extracted_form_eq (b : text) :
  extracted_form b = EXTRACTED ++ rstrip b ++ [LF].
Proof. unfold extracted_form. now rewrite endswith_LF_rstrip. Qed.

Lemma code_like_nonblank (ln : text) : code_like ln = true -> nonblank ln = true.
Proof.
  unfold code_like, nonblank. destruct (strip ln); [discriminate | reflexivity].
Qed.

Lemma filter_nonblank_code (curr : list text) :
  forallb code_like curr = true -> filter nonblank curr = curr.
Proof.
  induction curr as [|c curr IH]; [reflexivity|]. cbn [forallb filter].
  intros H. apply andb_true_iff in H as [Hc Hr].
  now rewrite (code_like_nonblank _ Hc), IH.
Qed.

(** The lines of the grouped text that are not blank are the code-like
    lines of the input, in their order. *)
Lemma group_lines_nonblank (lines code_lines curr : list text) :
  forallb code_like curr = true ->
  filter nonblank (group_lines lines code_lines curr)
  = filter nonblank code_lines ++ curr ++ filter code_like lines.
Proof.
  revert code_lines curr. induction lines as [|ln lines IH]; intros cl curr Hcurr.
  - cbn [group_lines filter]. rewrite app_nil_r.
    destruct curr as [|c curr]; [now rewrite app_nil_r|].
    now rewrite filter_app, (filter_nonblank_code (c :: curr) Hcurr).
  - cbn [group_lines filter]. destruct (code_like ln) eqn:E.
    + rewrite IH.
      * now rewrite <- app_assoc.
      * rewrite forallb_app, Hcurr. cbn. now rewrite E.
    + destruct curr as [|c curr].
      * now rewrite IH.
      * rewrite IH by reflexivity. rewrite !filter_app.
        rewrite (filter_nonblank_code (c :: curr) Hcurr).
        cbn [filter]. change (nonblank []) with false. cbv iota.
        rewrite app_nil_r. cbn [app]. now rewrite <- app_assoc.
Qed.

Lemma group_lines_code_like (lines : list text) :
  filter nonblank (group_lines lines [] []) = filter code_like lines.
Proof. now rewrite group_lines_nonblank. Qed.

Definition one_line (s : text) : Prop := forallb (fun c => negb (is_linebreak c)) s = true.

Lemma splitlines_one_line (s : text) : Forall one_line (splitlines s).
Proof.
  assert (H : forall n s, (List.length s <= n)%nat -> Forall one_line (splitlines s)).
  { clear s. induction n as [|n IH]; intros [|c rest] Hn; cbn [splitlines];
      try (constructor; fail); [cbn in Hn; lia|].
    cbn [List.length] in Hn.
    destruct (is_linebreak c) eqn:E.
    - constructor; [reflexivity|].
      destruct rest as [|d rest']; [constructor|].
      cbn [List.length] in Hn.
      destruct (ascii_eqb c CR && ascii_eqb d LF); apply IH; cbn [List.length]; lia.
    - assert (Hr : Forall one_line (splitlines rest)) by (apply IH; lia).
      destruct (splitlines rest) as [|l ls]; constructor; try constructor.
      + unfold one_line. cbn [forallb]. now rewrite E.
      + inversion Hr as [|? ? Hl _]; subst. unfold one_line in *. cbn [forallb].
        now rewrite E, Hl.
      + now inversion Hr. }
  now apply (H (List.length s)).
Qed.

Lemma join_one_line (sep : text) (parts : list text) :
  one_line sep -> Forall one_line parts -> one_line (join sep parts).
Proof.
  intros Hsep. induction 1 as [|p ps Hp _ IH]; [reflexivity|].
  cbn [join]. destruct ps as [|q qs]; [assumption|].
  unfold one_line in *. now rewrite !forallb_app, Hp, Hsep, IH.
Qed.

Lemma firstn_one_line (n : nat) (s : text) : one_line s -> one_line (firstn n s).
Proof.
  unfold one_line. revert n. induction s as [|c s IH]; intros [|n] H; try reflexivity.
  cbn [firstn forallb] in *. apply andb_true_iff in H as [Hc Hs].
  now rewrite Hc, IH.
Qed.

Lemma compressed_one_line (t : text) : one_line (compressed t).
Proof.
  apply firstn_one_line, join_one_line; [reflexivity | apply splitlines_one_line].
Qed.


Lemma minimalize_response_nonempty (t : text) :
  t <> [] -> minimalize_response (Some t) = minimalize_text t.
Proof. destruct t; [congruence | reflexivity]. Qed.

Lemma minimalize_text_no_fence (t : text) :
  findall_fences t = [] ->
  minimalize_text t =
  if (2 <=? len (filter code_like (splitlines t)))%nat
  then heuristic_form (group_lines (splitlines t) [] [])
  else minimal_form t.
Proof.
  intro H. unfold minimalize_text. rewrite H. cbn [sort].
  now rewrite group_lines_code_like.
Qed.

(** *** What the regular expression says *)



Lemma startswith_true (p s : text) :
  startswith p s = true <-> exists b, s = p ++ b.
Proof.
  split.
  - intro H. exists (skipn (List.length p) s). now apply startswith_skipn.
  - intros [b ->]. apply startswith_app.
Qed.










(** *** What the text functions give *)




(** *** What the line expression says *)

(** A match of [INLINE_CODE_RE] at the head of a text: after white space, a
    comment mark; or a name of word characters, dots and dashes, white
    space and an equals sign; or one of the keywords, not followed by a word
    character. What comes after does not matter. *)
Inductive code_match : text -> Prop :=
| code_comment (ws mark r : text) :
    forallb is_space ws = true -> mark = str "#" \/ mark = str "//" ->
    code_match (ws ++ mark ++ r)
| code_assignment (ws name ws2 r : text) :
    forallb is_space ws = true -> name <> [] -> forallb is_ident name = true ->
    forallb is_space ws2 = true ->
    code_match (ws ++ name ++ ws2 ++ str "=" ++ r)
| code_keyword (ws kw r : text) :
    forallb is_space ws = true -> In kw KEYWORDS ->
    match r with [] => True | c :: _ => is_word c = false end ->
    code_match (ws ++ kw ++ r).

Lemma ident_not_space (c : ascii) : is_ident c = true -> is_space c = false.
Proof.
  destruct c as [b0 b1 b2 b3 b4 b5 b6 b7].
  destruct b0, b1, b2, b3, b4, b5, b6, b7; vm_compute; congruence.
Qed.

Lemma space_not_ident (c : ascii) : is_space c = true -> is_ident c = false.
Proof.
  intro H. destruct (is_ident c) eqn:E; [|reflexivity].
  apply ident_not_space in E. congruence.
Qed.

Lemma dropwhile_app_head (f : ascii -> bool) (ws x : text) :
  forallb f ws = true ->
  match x with [] => True | c :: _ => f c = false end ->
  dropwhile f (ws ++ x) = x.
Proof. intros Hws Hx. now destruct (takewhile_app f ws x Hws Hx). Qed.

Lemma inline_code_match_spec (s : text) :
  inline_code_match s = true <-> code_match s.
Proof.
  unfold inline_code_match. split.
  - pose proof (takewhile_dropwhile is_space s) as Hs.
    pose proof (takewhile_forallb is_space s) as Hws.
    set (ws := takewhile is_space s) in *. set (s1 := dropwhile is_space s) in *.
    intro H. rewrite !orb_true_iff in H. destruct H as [[[H | H] | H] | H].
    + apply startswith_true in H as [r Hr]. rewrite <- Hs, Hr.
      apply code_comment; [exact Hws | now left].
    + apply startswith_true in H as [r Hr]. rewrite <- Hs, Hr.
      apply code_comment; [exact Hws | now right].
    + apply andb_true_iff in H as [Hname Heq].
      apply startswith_true in Heq as [r Hr].
      pose proof (takewhile_dropwhile is_ident s1) as H1.
      pose proof (takewhile_dropwhile is_space (dropwhile is_ident s1)) as H2.
      rewrite Hr in H2. rewrite <- Hs, <- H1, <- H2.
      apply code_assignment; try apply takewhile_forallb; try exact Hws.
      intro E. now rewrite E in Hname.
    + apply existsb_exists in H as (kw & Hin & Hkw). unfold keyword_at in Hkw.
      apply andb_true_iff in Hkw as [Hst Hb].
      pose proof (startswith_skipn kw s1 Hst) as Hr.
      rewrite <- Hs, Hr. apply code_keyword; [exact Hws | exact Hin |].
      unfold len in Hb. destruct (skipn (List.length kw) s1) as [|c r]; [exact I|].
      now apply negb_true_iff in Hb.
  - intros [ws mark r Hws Hmark | ws name ws2 r Hws Hne Hname Hws2 | ws kw r Hws Hin Hb];
      rewrite !orb_true_iff.
    + left; left. rewrite dropwhile_app_head; [| exact Hws | now destruct Hmark as [-> | ->]].
      destruct Hmark as [-> | ->]; [left | right]; apply startswith_app.
    + left; right.
      assert (Hhead : match name ++ ws2 ++ str "=" ++ r with
                      | [] => True | c :: _ => is_space c = false end).
      { destruct name as [|c name]; [congruence|]. cbn [app forallb] in *.
        apply andb_true_iff in Hname as [Hc _]. now apply ident_not_space. }
      rewrite (dropwhile_app_head is_space ws _ Hws Hhead).
      assert (Hnext : match ws2 ++ str "=" ++ r with
                      | [] => True | c :: _ => is_ident c = false end).
      { destruct ws2 as [|c ws2]; [reflexivity|]. cbn [app forallb] in *.
        apply andb_true_iff in Hws2 as [Hc _]. now apply space_not_ident. }
      destruct (takewhile_app is_ident name _ Hname Hnext) as [-> ->].
      rewrite (dropwhile_app_head is_space ws2 (str "=" ++ r) Hws2 eq_refl).
      rewrite startswith_app, andb_true_r. now destruct name.
    + right.
      assert (Hhead : match kw ++ r with
                      | [] => True | c :: _ => is_space c = false end).
      { cbn in Hin. decompose [or] Hin; subst; try reflexivity. contradiction. }
      rewrite (dropwhile_app_head is_space ws _ Hws Hhead).
      apply existsb_exists. exists kw. split; [exact Hin|]. unfold keyword_at.
      rewrite startswith_app. unfold len. rewrite skipn_prefix. cbn [andb].
      destruct r as [|c r]; [reflexivity | now rewrite Hb].
Qed.

Lemma code_like_spec (ln : text) : code_like ln = true <-> code_match (strip ln).
Proof. apply inline_code_match_spec. Qed.

(** *** The grouping of the code-like lines *)




Lemma until_fence_split (s g : text) :
  until_fence s = Some g -> exists rest, s = g ++ FENCE ++ rest.
Proof.
  revert g. induction s as [|c r IH]; intros g; cbn [until_fence].
  - intro H. discriminate H.
  - destruct (startswith FENCE (c :: r)) eqn:E.
    + intro H. injection H as <-. exists (skipn (List.length FENCE) (c :: r)).
      now apply startswith_skipn.
    + destruct (until_fence r) as [g'|]; [|discriminate]. cbn [option_map].
      intro H. injection H as <-. destruct (IH g' eq_refl) as [rest ->].
      now exists rest.
Qed.


(** *** Running it again on a minimal form *)

Definition no_lf (s : text) : Prop := forallb (fun c => negb (ascii_eqb c LF)) s = true.

Lemma one_line_no_lf (s : text) : one_line s -> no_lf s.
Proof.
  unfold one_line, no_lf. induction s as [|c s IH]; [reflexivity|].
  cbn [forallb]. intro H. apply andb_true_iff in H as [Hc Hs]. rewrite (IH Hs), andb_true_r.
  destruct (ascii_eqb c LF) eqn:E; [|reflexivity].
  apply ascii_eqb_eq in E. subst c. discriminate.
Qed.

Lemma no_lf_skipn (n : nat) (s : text) : no_lf s -> no_lf (skipn n s).
Proof.
  unfold no_lf. revert s. induction n as [|n IH]; intros [|c s] H; try assumption.
  cbn [skipn]. apply IH. cbn [forallb] in H. now apply andb_true_iff in H as [_ H].
Qed.

Lemma no_lf_dropwhile (f : ascii -> bool) (s : text) : no_lf s -> no_lf (dropwhile f s).
Proof.
  unfold no_lf. induction s as [|c s IH]; intro H; [reflexivity|].
  cbn [dropwhile]. destruct (f c); [|assumption].
  apply IH. cbn [forallb] in H. now apply andb_true_iff in H as [_ H].
Qed.

Lemma fence_at_no_lf (s : text) : no_lf s -> fence_at s = None.
Proof.
  intro H. unfold fence_at. destruct (startswith FENCE s); [|reflexivity].
  pose proof (no_lf_dropwhile is_word _ (no_lf_skipn 3 _ H)) as Hd.
  destruct (dropwhile is_word (skipn 3 s)) as [|c body]; [reflexivity|].
  unfold no_lf in Hd. cbn [forallb] in Hd. apply andb_true_iff in Hd as [Hc _].
  apply negb_true_iff in Hc. now rewrite Hc.
Qed.

Lemma findall_from_no_lf (k : nat) (s : text) : no_lf s -> findall_from k s = [].
Proof.
  revert k. induction s as [|c s IH]; intros k H; [reflexivity|].
  assert (Hs : no_lf s).
  { unfold no_lf in *. cbn [forallb] in H. now apply andb_true_iff in H as [_ H]. }
  cbn [findall_from]. destruct k as [|k]; [|now apply IH].
  rewrite (fence_at_no_lf _ H). now apply IH.
Qed.

Lemma fence_at_not_backquote (x : ascii) (s : text) :
  ascii_eqb "`" x = false -> fence_at (x :: s) = None.
Proof.
  intro H. unfold fence_at, FENCE. cbn [str list_ascii_of_string startswith].
  now rewrite H.
Qed.

Lemma findall_from_plain_prefix (p s : text) :
  forallb (fun x => negb (ascii_eqb "`" x)) p = true ->
  findall_from 0 (p ++ s) = findall_from 0 s.
Proof.
  induction p as [|x p IH]; intro H; [reflexivity|].
  cbn [forallb] in H. apply andb_true_iff in H as [Hx Hp]. apply negb_true_iff in Hx.
  cbn [app findall_from]. rewrite (fence_at_not_backquote _ _ Hx). now apply IH.
Qed.

Lemma splitlines_line_lf (p r : text) :
  one_line p -> splitlines (p ++ LF :: r) = p :: splitlines r.
Proof.
  unfold one_line. induction p as [|x p IH]; intro H.
  - cbn [app splitlines]. change (is_linebreak LF) with true. cbv iota.
    destruct r as [|d r]; [reflexivity|].
    change (ascii_eqb LF CR) with false. reflexivity.
  - cbn [forallb] in H. apply andb_true_iff in H as [Hx Hp]. apply negb_true_iff in Hx.
    cbn [app splitlines]. rewrite Hx, (IH Hp). reflexivity.
Qed.

Lemma splitlines_single (c : text) :
  one_line c -> c <> [] -> splitlines c = [c].
Proof.
  unfold one_line. induction c as [|x c IH]; intros H Hne; [congruence|].
  cbn [forallb] in H. apply andb_true_iff in H as [Hx Hc]. apply negb_true_iff in Hx.
  cbn [splitlines]. rewrite Hx. destruct c as [|y c]; [reflexivity|].
  rewrite (IH Hc) by discriminate. reflexivity.
Qed.

Definition MINIMAL_LINE : text := str "// response (minimal)".

Lemma minimal_form_shape (t : text) :
  minimal_form t = MINIMAL_LINE ++ LF :: compressed t.
Proof. unfold minimal_form, MINIMAL. now rewrite <- app_assoc. Qed.

Lemma minimal_form_no_fence (t : text) : findall_fences (minimal_form t) = [].
Proof.
  unfold findall_fences. rewrite minimal_form_shape.
  change (MINIMAL_LINE ++ LF :: compressed t) with ((MINIMAL_LINE ++ [LF]) ++ compressed t).
  rewrite findall_from_plain_prefix by reflexivity.
  apply findall_from_no_lf, one_line_no_lf, compressed_one_line.
Qed.

Lemma minimal_form_lines (t : text) :
  splitlines (minimal_form t)
  = MINIMAL_LINE :: match compressed t with [] => [] | c => [c] end.
Proof.
  rewrite minimal_form_shape, splitlines_line_lf by reflexivity.
  destruct (compressed t) as [|x c] eqn:E; [reflexivity|].
  rewrite splitlines_single; [reflexivity | | discriminate].
  rewrite <- E. apply compressed_one_line.
Qed.

Lemma code_like_minimal_line : code_like MINIMAL_LINE = true.
Proof. reflexivity. Qed.

(** C9 (as amended). On a text whose extraction took the minimal form, a
    second run finds no fenced block either and returns (the function is
    total, nothing is raised). Its first line [// response (minimal)] is a
    comment line, hence code-like: when the collapsed text is not code-like
    the second result is again a minimal form, with the prefix
    [// response (minimal)]; when the collapsed text is code-like the second
    result is the heuristic form of the two lines, with the prefix
    [// code (heuristic)]. Code-like means that the line expression matches
    the text, stripped. *)
Theorem minimalize_response_twice (t : text) :
  t <> [] ->
  findall_fences t = [] ->
  (len (filter code_like (splitlines t)) < 2)%nat ->
  let out := minimalize_response (Some t) in
  out = minimal_form t
  /\ findall_fences out = []
  /\ (code_like (compressed t) = false ->
      minimalize_response (Some out) = minimal_form out
      /\ startswith (str "// response (minimal)" ++ [LF]) (minimalize_response (Some out)) = true)
  /\ (code_like (compressed t) = true ->
      minimalize_response (Some out)
      = heuristic_form [str "// response (minimal)"; compressed t]
      /\ startswith (str "// code (heuristic)" ++ [LF]) (minimalize_response (Some out)) = true
      /\ startswith (str "// response (minimal)" ++ [LF]) (minimalize_response (Some out)) = false)
  /\ (code_like (compressed t) = true <-> code_match (strip (compressed t)))
  /\ code_match (str "// response (minimal)").
Proof.
  intros Ht Hf Hn out.
  assert (Hout : out = minimal_form t).
  { unfold out. rewrite (minimalize_response_nonempty t Ht), (minimalize_text_no_fence _ Hf).
    apply Nat.leb_gt in Hn. now rewrite Hn. }
  clearbody out. subst out.
  assert (Hne : minimal_form t <> []) by (rewrite minimal_form_shape; discriminate).
  split; [reflexivity|]. split; [apply minimal_form_no_fence|].
  rewrite (minimalize_response_nonempty _ Hne).
  rewrite minimalize_text_no_fence by apply minimal_form_no_fence.
  rewrite minimal_form_lines.
  split; [|split; [|split; [apply code_like_spec
                           | apply (inline_code_match_spec (str "// response (minimal)"));
                             reflexivity]]];
    intro Hc.
  - assert (E : filter code_like (MINIMAL_LINE :: match compressed t with [] => [] | c => [c] end)
                = [MINIMAL_LINE]).
    { cbn [filter]. rewrite code_like_minimal_line.
      destruct (compressed t) as [|x c]; [reflexivity|]. cbn [filter]. now rewrite Hc. }
    rewrite E. cbn [len List.length Nat.leb]. split; [reflexivity|].
    unfold minimal_form at 1. unfold MINIMAL. rewrite <- app_assoc. reflexivity.
  - destruct (compressed t) as [|x c] eqn:E; [discriminate Hc|].
    cbn [filter group_lines]. rewrite code_like_minimal_line. cbn [filter group_lines app].
    rewrite Hc. cbn [len List.length Nat.leb group_lines app].
    split; [reflexivity|]. split; reflexivity.
Qed.

Definition two_fences : text :=
  str "Try ```js" ++ [LF] ++ str "a=1  " ++ [LF] ++ str "``` or ```" ++ [LF]
  ++ str "print(a+b)```".


Lemma minimalize_response_twice_witness :
  let out := minimalize_response (Some (str "hello" ++ [LF] ++ str "world")) in
  out = minimal_form (str "hello" ++ [LF] ++ str "world")
  /\ findall_fences out = []
  /\ (code_like (compressed (str "hello" ++ [LF] ++ str "world")) = false ->
      minimalize_response (Some out) = minimal_form out
      /\ startswith (str "// response (minimal)" ++ [LF]) (minimalize_response (Some out)) = true)
  /\ (code_like (compressed (str "hello" ++ [LF] ++ str "world")) = true ->
      minimalize_response (Some out)
      = heuristic_form [str "// response (minimal)";
                        compressed (str "hello" ++ [LF] ++ str "world")]
      /\ startswith (str "// code (heuristic)" ++ [LF]) (minimalize_response (Some out)) = true
      /\ startswith (str "// response (minimal)" ++ [LF]) (minimalize_response (Some out)) = false)
  /\ (code_like (compressed (str "hello" ++ [LF] ++ str "world")) = true
      <-> code_match (strip (compressed (str "hello" ++ [LF] ++ str "world"))))
  /\ code_match (str "// response (minimal)").
Proof.
  apply (minimalize_response_twice (str "hello" ++ [LF] ++ str "world"));
    [discriminate | reflexivity | vm_compute; lia].
Defined.

(** C9, the claim as stated fails: [x = 1] has no fence and one code-like
    line, so the first run gives the minimal form; in the second run both
    lines are code-like and the result has the prefix [// code (heuristic)]. *)
Lemma minimalize_response_twice_not_minimal :
  findall_fences (str "x = 1") = []
  /\ minimalize_response (Some (str "x = 1")) = str "// response (minimal)" ++ [LF] ++ str "x = 1"
  /\ minimalize_response (Some (minimalize_response (Some (str "x = 1"))))
     = str "// code (heuristic)" ++ [LF] ++ str "// response (minimal)" ++ [LF]
       ++ str "x = 1" ++ [LF]
  /\ startswith (str "// response (minimal)" ++ [LF])
       (minimalize_response (Some (minimalize_response (Some (str "x = 1"))))) = false.
Proof. repeat split. Qed.

(** ** load_providers and the selection order *)

Section SortFacts.
Variable A : Type.
Variable key : A -> Z.

Definition key_le (a b : A) : bool := key a <=? key b.
Definition key_order (a b : A) : Prop := key a <= key b.

Lemma insert_In (x y : A) (l : list A) :
  In y (insert key_le x l) <-> y = x \/ In y l.
Proof.
  induction l as [|z l IH]; cbn [insert].
  - cbn. intuition congruence.
  - destruct (key_le x z); cbn [In]; [intuition congruence|].
    rewrite IH. intuition congruence.
Qed.

Lemma sort_In (y : A) (l : list A) : In y (sort key_le l) <-> In y l.
Proof.
  induction l as [|x l IH]; [reflexivity|].
  cbn [sort In]. rewrite insert_In, IH. intuition congruence.
Qed.

Lemma insert_sorted (x : A) (l : list A) :
  StronglySorted key_order l -> StronglySorted key_order (insert key_le x l).
Proof.
  induction 1 as [|z l Hl IH Hz]; cbn [insert].
  - repeat constructor.
  - unfold key_le at 1. destruct (key x <=? key z) eqn:E.
    + apply Z.leb_le in E. constructor; [now constructor|].
      constructor; [exact E|].
      rewrite Forall_forall in *. intros y Hy. specialize (Hz y Hy).
      unfold key_order in *. lia.
    + apply Z.leb_gt in E. constructor; [exact IH|].
      rewrite Forall_forall in *. intros y Hy. apply insert_In in Hy as [-> | Hy].
      * unfold key_order. lia.
      * now apply Hz.
Qed.

Lemma sort_sorted (l : list A) : StronglySorted key_order (sort key_le l).
Proof.
  induction l as [|x l IH]; [constructor|]. cbn [sort]. now apply insert_sorted.
Qed.

(** Stability: among the elements of one key the order is the original. *)
Lemma insert_same_key (k : Z) (x : A) (l : list A) :
  filter (fun a => key a =? k) (insert key_le x l)
  = filter (fun a => key a =? k) (x :: l).
Proof.
  induction l as [|z l IH]; [reflexivity|]. cbn [insert].
  unfold key_le at 1. destruct (key x <=? key z) eqn:E; [reflexivity|].
  apply Z.leb_gt in E. cbn [filter] in *. rewrite IH.
  destruct (key x =? k) eqn:Ex, (key z =? k) eqn:Ez; try reflexivity.
  apply Z.eqb_eq in Ex, Ez. lia.
Qed.

Lemma sort_stable (k : Z) (l : list A) :
  filter (fun a => key a =? k) (sort key_le l) = filter (fun a => key a =? k) l.
Proof.
  induction l as [|x l IH]; [reflexivity|].
  cbn [sort]. rewrite insert_same_key. cbn [filter]. now rewrite IH.
Qed.

Lemma filter_sorted (f : A -> bool) (l : list A) :
  StronglySorted key_order l -> StronglySorted key_order (filter f l).
Proof.
  induction 1 as [|z l Hl IH Hz]; [constructor|]. cbn [filter].
  destruct (f z); [|exact IH]. constructor; [exact IH|].
  rewrite Forall_forall in *. intros y Hy. apply filter_In in Hy as [Hy _]. now apply Hz.
Qed.
End SortFacts.
Arguments key_le {A} key a b.
Arguments key_order {A} key a b.

Lemma filter_comm {A : Type} (f g : A -> bool) (l : list A) :
  filter f (filter g l) = filter g (filter f l).
Proof.
  induction l as [|x l IH]; [reflexivity|]. cbn [filter].
  destruct (f x) eqn:Ef, (g x) eqn:Eg; cbn [filter]; rewrite ?Ef, ?Eg, IH; reflexivity.
Qed.

Lemma filter_all {A : Type} (f : A -> bool) (l : list A) :
  Forall (fun x => f x = true) l -> filter f l = l.
Proof.
  induction 1 as [|x l Hx _ IH]; [reflexivity|]. cbn [filter]. now rewrite Hx, IH.
Qed.

Lemma filter_none {A : Type} (f : A -> bool) (l : list A) :
  Forall (fun x => f x = true) l -> filter (fun x => negb (f x)) l = [].
Proof.
  induction 1 as [|x l Hx _ IH]; [reflexivity|]. cbn [filter]. now rewrite Hx, IH.
Qed.

Lemma by_priority_key : by_priority = key_le get_priority.
Proof. reflexivity. Qed.

Lemma load_providers_enabled (uuid8 : nat -> text) (file : option (list Provider)) :
  Forall (fun p => get_enabled p = true) (load_providers uuid8 file).
Proof.
  destruct file as [raw|]; [|constructor]. cbn [load_providers].
  rewrite Forall_forall. intros p Hp. rewrite by_priority_key in Hp.
  apply sort_In in Hp. now apply filter_In in Hp as [_ Hp].
Qed.

(** *** References *)

Lemma derefs_app (store : list Provider) (a b : list nat) :
  derefs store (a ++ b) = derefs store a ++ derefs store b.
Proof.
  induction a as [|i a IH]; [reflexivity|]. cbn [app derefs].
  destruct (deref store i); [cbn [app]; now rewrite IH | exact IH].
Qed.

Lemma derefs_filter (store : list Provider) (f : Provider -> bool) (refs : list nat) :
  derefs store (filter (holds store f) refs) = filter f (derefs store refs).
Proof.
  induction refs as [|i refs IH]; [reflexivity|]. cbn [filter derefs].
  unfold holds at 1. destruct (deref store i) as [p|] eqn:E; [|exact IH].
  cbn [filter]. destruct (f p); [|exact IH]. cbn [derefs]. now rewrite E, IH.
Qed.

Lemma derefs_seq (pre l : list Provider) :
  derefs (pre ++ l) (seq (List.length pre) (List.length l)) = l.
Proof.
  revert pre. induction l as [|x l IH]; intro pre; [reflexivity|].
  cbn [List.length seq derefs]. unfold deref.
  rewrite nth_error_app2, Nat.sub_diag by lia. cbn [nth_error]. f_equal.
  specialize (IH (pre ++ [x])). rewrite <- app_assoc, length_app in IH. cbn in IH.
  now rewrite Nat.add_1_r in IH.
Qed.

Lemma derefs_enabled_refs (store : list Provider) :
  derefs store (enabled_refs store) = filter get_enabled store.
Proof.
  unfold enabled_refs. rewrite derefs_filter. f_equal. apply (derefs_seq [] store).
Qed.

(** *** [p not in matching] compares dicts by value *)

Lemma opt_text_eqb_eq (a b : option text) : opt_text_eqb a b = true <-> a = b.
Proof.
  destruct a as [x|], b as [y|]; cbn; try (split; congruence).
  rewrite text_eqb_eq. split; congruence.
Qed.

Lemma provider_eqb_refl (p : Provider) : provider_eqb p p = true.
Proof.
  unfold provider_eqb.
  repeat (apply andb_true_iff; split); try (now apply opt_text_eqb_eq).
  - destruct (max_tokens p); cbn; [apply Z.eqb_refl | reflexivity].
  - destruct (priority p); cbn; [apply Z.eqb_refl | reflexivity].
  - destruct (enabled p) as [[]|]; reflexivity.
  - destruct (_disabled_until p); cbn; [apply Qeq_bool_refl | reflexivity].
Qed.

Lemma provider_eqb_prefers (preferred : text) (p q : Provider) :
  provider_eqb p q = true -> prefers preferred p = prefers preferred q.
Proof.
  unfold provider_eqb. intro H. repeat (apply andb_true_iff in H as [H ?]).
  apply opt_text_eqb_eq in H.
  match goal with Ht : opt_text_eqb (prov_type p) _ = true |- _ =>
    apply opt_text_eqb_eq in Ht; unfold prefers, get_id; now rewrite H, Ht end.
Qed.

Lemma ref_in_matching (preferred : text) (store : list Provider) (provs : list nat) (i : nat) :
  In i provs ->
  ref_in store (filter (holds store (prefers preferred)) provs) i
  = holds store (prefers preferred) i.
Proof.
  intro Hi. unfold ref_in. replace (holds store (prefers preferred) i)
    with (match deref store i with Some p => prefers preferred p | None => false end)
    by reflexivity.
  destruct (deref store i) as [p|] eqn:E; [|reflexivity].
  destruct (prefers preferred p) eqn:Hp.
  - apply existsb_exists. exists i. split.
    + apply filter_In. split; [exact Hi|]. unfold holds. now rewrite E.
    + unfold holds. rewrite E. apply provider_eqb_refl.
  - apply not_true_is_false. intro H. apply existsb_exists in H as (j & Hj & Hb).
    apply filter_In in Hj as [_ Hj]. unfold holds in Hj, Hb.
    destruct (deref store j) as [q|]; [|discriminate].
    apply (provider_eqb_prefers preferred) in Hb. congruence.
Qed.

Lemma contains_nil (s : text) : contains [] s = true.
Proof. destruct s; reflexivity. Qed.

(** Lines 262-268 on the providers themselves. *)
Lemma call_order_partition (preferred : text) (store : list Provider) :
  call_order preferred store
  = filter (prefers preferred) (filter get_enabled store)
    ++ filter (fun p => negb (prefers preferred p)) (filter get_enabled store).
Proof.
  unfold call_order, selection_order. destruct preferred as [|c pref].
  - rewrite derefs_enabled_refs.
    assert (H : Forall (fun p => prefers [] p = true) (filter get_enabled store)).
    { rewrite Forall_forall. intros p _. unfold prefers. rewrite contains_nil.
      apply orb_true_r. }
    now rewrite (filter_all _ _ H), (filter_none _ _ H), app_nil_r.
  - set (pf := c :: pref).
    rewrite derefs_app, derefs_filter, derefs_enabled_refs. f_equal.
    rewrite (filter_ext_in _ (holds store (fun p => negb (prefers pf p)))).
    + now rewrite derefs_filter, derefs_enabled_refs.
    + intros i Hi. rewrite ref_in_matching by exact Hi.
      unfold enabled_refs in Hi. apply filter_In in Hi as [_ Hi].
      unfold holds in *. destruct (deref store i) as [p|]; [reflexivity | discriminate].
Qed.

(** The test of the claim: the declared type is the preferred one, or the
    id contains the preferred token, letter case ignored. *)
Definition matches_preferred (preferred : text) (p : Provider) : bool :=
  opt_text_eqb (prov_type p) (Some preferred)
  || contains (lower preferred) (lower (get_id p)).

Definition ascending (l : list Provider) : Prop :=
  StronglySorted (key_order get_priority) l.

Definition same_priority (k : Z) (p : Provider) : bool := get_priority p =? k.

Definition provider (i : string) (prio : Z) (ty : string) : Provider :=
  mkProvider (Some (str i)) None (Some (str ty)) None None None None (Some prio) None None.

Lemma prefers_matches (preferred : text) (p : Provider) :
  lower preferred = preferred ->
  prefers preferred p = matches_preferred preferred p.
Proof. intro H. unfold prefers, matches_preferred. now rewrite H. Qed.

(** A file with a Gemini provider of priority 1, a provider whose id holds
    the token in capitals, a provider without id and priority, and a
    disabled one. *)
Definition sample_file : list Provider :=
  [ mkProvider (Some (str "google-main")) None (Some (str "gemini")) None None None None
               (Some 1) None None;
    mkProvider (Some (str "My-OpenRouter")) None None None None None None (Some 30) None None;
    mkProvider None (Some (str "backup")) (Some (str "openrouter")) None None None None
               None None None;
    mkProvider (Some (str "off")) None (Some (str "openrouter")) None None None None
               (Some 2) (Some false) None ].

(** C3 (as amended). The providers are called in this order: first those that pass the
    test of line 266 (the declared type is the preferred type, or the id in
    lower case contains the preferred token as it is written), then the
    others; each part is in ascending priority, and providers of equal
    priority are in the order of the file. For a token in lower case, as
    "openrouter" and "gemini" are, and only then in general, the test is:
    the declared type equals the preferred type or the id contains the
    token, letter case ignored. For P1 (10, A), P2 (5, B), P3 (20, A) and
    the preferred type A the order is P1, P3, P2; with the priorities 10, 5
    and 20 and one type the order is P2, P1, P3; and a provider that is
    disabled is not called, one without priority has the priority 100. *)
Theorem call_order_spec (uuid8 : nat -> text) (raw : list Provider) (preferred : text) :
  let active := filter get_enabled (set_defaults_all uuid8 0 raw) in
  let loaded := load_providers uuid8 (Some raw) in
  let first := filter (prefers preferred) loaded in
  let others := filter (fun p => negb (prefers preferred p)) loaded in
  call_order preferred loaded = first ++ others
  /\ ascending first /\ ascending others
  /\ (forall k, filter (same_priority k) first
                = filter (same_priority k) (filter (prefers preferred) active))
  /\ (forall k, filter (same_priority k) others
                = filter (same_priority k)
                    (filter (fun p => negb (prefers preferred p)) active))
  /\ (lower preferred = preferred ->
      (forall p, prefers preferred p = matches_preferred preferred p)
      /\ call_order preferred loaded
         = filter (matches_preferred preferred) loaded
           ++ filter (fun p => negb (matches_preferred preferred p)) loaded)
  /\ map get_id (call_order (str "A")
                   (load_providers uuid8
                      (Some [provider "P1" 10 "A"; provider "P2" 5 "B"; provider "P3" 20 "A"])))
     = [str "P1"; str "P3"; str "P2"]
  /\ map get_id (call_order (str "A")
                   (load_providers uuid8
                      (Some [provider "P1" 10 "A"; provider "P2" 5 "A"; provider "P3" 20 "A"])))
     = [str "P2"; str "P1"; str "P3"]
  /\ map get_id (call_order (str "openrouter") (load_providers uuid8 (Some sample_file)))
     = [str "My-OpenRouter"; str "backup"; str "google-main"]
  /\ map get_id (call_order [] (load_providers uuid8 (Some sample_file)))
     = [str "google-main"; str "My-OpenRouter"; str "backup"].
Proof.
  intros active loaded first others.
  assert (Hsorted : ascending loaded) by apply sort_sorted.
  assert (Hstable : forall k f, filter (same_priority k) (filter f loaded)
                                = filter (same_priority k) (filter f active)).
  { intros k f. rewrite filter_comm, (filter_comm _ f active). f_equal.
    apply (sort_stable _ get_priority). }
  assert (Horder : call_order preferred loaded = first ++ others).
  { rewrite call_order_partition.
    now rewrite (filter_all _ loaded (load_providers_enabled uuid8 (Some raw))). }
  split; [exact Horder|].
  split; [now apply filter_sorted|]. split; [now apply filter_sorted|].
  split; [intro k; apply Hstable|]. split; [intro k; apply Hstable|].
  split; [|repeat split].
  intro Hlow. split; [intro p; now apply prefers_matches|].
  rewrite Horder. unfold first, others. f_equal; apply filter_ext; intro p;
    now rewrite (prefers_matches preferred p Hlow).
Qed.

Lemma call_order_spec_witness :
  map get_id (call_order (str "openrouter") (load_providers (fun _ => str "0f3a9c2e") (Some sample_file)))
  = [str "My-OpenRouter"; str "backup"; str "google-main"]
  /\ call_order (str "openrouter") (load_providers (fun _ => str "0f3a9c2e") (Some sample_file))
     = filter (matches_preferred (str "openrouter"))
         (load_providers (fun _ => str "0f3a9c2e") (Some sample_file))
       ++ filter (fun p => negb (matches_preferred (str "openrouter") p))
            (load_providers (fun _ => str "0f3a9c2e") (Some sample_file)).
Proof.
  split; [reflexivity|].
  destruct (call_order_spec (fun _ => str "0f3a9c2e") sample_file (str "openrouter"))
    as (_ & _ & _ & _ & _ & H & _).
  apply H. reflexivity.
Defined.

(** C3, the claim as stated fails: the token "A" is not in lower case. The
    id "Alpha" contains it, letter case ignored, but line 266 lowers the id
    only, and "alpha" does not contain "A": the provider is not put first,
    and the order is that of the priorities. *)
Lemma call_order_token_case :
  let alpha := provider "Alpha" 2 "B" in
  let loaded := load_providers (fun _ => str "0f3a9c2e")
                               (Some [provider "zzz" 1 "B"; alpha]) in
  matches_preferred (str "A") alpha = true
  /\ prefers (str "A") alpha = false
  /\ map get_id (filter (matches_preferred (str "A")) loaded
                 ++ filter (fun p => negb (matches_preferred (str "A") p)) loaded)
     = [str "Alpha"; str "zzz"]
  /\ map get_id (call_order (str "A") loaded) = [str "zzz"; str "Alpha"].
Proof. vm_compute. repeat split. Qed.

(** ** call_provider *)

Section AdapterFacts.

Variable py_repr : json -> text.
Variable json_dumps : json -> text.
Variable env : Env.

(** The provider gets as far as the round trip: it is not Gemini-style, or
    it has a base URL and a model. *)
Definition reaches_network (prov : Provider) : Prop :=
  is_gemini prov = false
  \/ exists b c m, base_url prov = Some b /\ model prov = Some (c :: m).

Lemma call_provider_posts (prov : Provider) (context : list (text * json))
  (prompt_text : text) (r : Run) :
  reaches_network prov ->
  exists req,
    call_provider py_repr json_dumps env prov context prompt_text r
    = (match post_at env (posts (sys r)) with
       | NoReply => Raise (plain ClientError)
       | Replied rep =>
           read_reply py_repr
             (if is_gemini prov then gemini_content py_repr json_dumps
              else chat_content json_dumps)
             (prov_id prov) rep
       end,
       with_sys posted (emit (Sent req) r)).
Proof.
  intros [Hg | (b & c & m & Hb & Hm)]; unfold call_provider.
  - rewrite Hg. eexists. unfold post. f_equal. destruct (post_at env _); reflexivity.
  - destruct (is_gemini prov).
    + rewrite Hb, Hm. eexists. unfold post. f_equal. destruct (post_at env _); reflexivity.
    + eexists. unfold post. f_equal. destruct (post_at env _); reflexivity.
Qed.

(** A 429 reply is always the rate-limit error, with the parsed delay. *)
Lemma read_reply_429 (parse : json -> res json) (pid : option text) (rep : Reply) :
  status rep = 429 ->
  read_reply py_repr parse pid rep = Raise (rate_limit_error py_repr rep).
Proof. intro H. unfold read_reply. now rewrite H. Qed.

(** A Gemini-style provider without a model fails before anything is sent,
    with an exception that carries no [retry_seconds]. *)
Definition config_error (prov : Provider) : PyExn :=
  match base_url prov with
  | Some _ => plain MissingModel
  | None => plain AttributeError
  end.

Lemma call_provider_missing_model (prov : Provider) (context : list (text * json))
  (prompt_text : text) (r : Run) :
  is_gemini prov = true ->
  model prov = None \/ model prov = Some [] ->
  call_provider py_repr json_dumps env prov context prompt_text r
  = (Raise (config_error prov), r).
Proof.
  intros Hg Hm. unfold call_provider, config_error. rewrite Hg.
  destruct (base_url prov) as [b|]; [|reflexivity].
  destruct Hm as [-> | ->]; reflexivity.
Qed.

(** What the chat adapter returns for a well-shaped body: a dict whose
    "choices", when there are some, is a list that starts with a dict. *)
Lemma chat_content_no_choices (items : list (text * json)) :
  truthy (dflt JNull (assoc (str "choices") items)) = false ->
  chat_content json_dumps (JObj items) = Ok (JStr (json_dumps (JObj items))).
Proof.
  intro H. unfold chat_content. cbn [py_in bind getitem].
  destruct (assoc (str "choices") items) as [v|]; cbn [bind]; [|reflexivity].
  cbn [dflt] in H. now rewrite H.
Qed.

Lemma chat_content_first_choice (items ch : list (text * json)) (more : list json) :
  assoc (str "choices") items = Some (JArr (JObj ch :: more)) ->
  chat_content json_dumps (JObj items)
  = Ok (match assoc (str "message") ch with
        | Some (JObj msg) => dflt JNull (assoc (str "content") msg)
        | _ => py_or (dflt JNull (assoc (str "text") ch)) (JStr (json_dumps (JObj ch)))
        end).
Proof.
  intro H. unfold chat_content. cbn [py_in bind getitem]. rewrite H.
  cbn [bind truthy andb first_item py_in getitem].
  destruct (assoc (str "message") ch) as [m|]; cbn [bind andb get]; [|reflexivity].
  destruct m; reflexivity.
Qed.

End AdapterFacts.

(** Lines 144-148: the URL of a Gemini-style provider with the base URL [b]
    and the model [m]. *)
Definition gemini_url (b m : text) : text :=
  let base := rstrip_by (ascii_eqb "/") b in
  let model_path := if startswith (str "models/") m then m else str "models/" ++ m in
  if endswith (str ":generate") base || contains (str "models/") base
  then base
  else base ++ str "/" ++ model_path ++ str ":generateContent".

(** What [call_provider] posts for a provider that gets as far as the round
    trip. *)
Definition request_of (prov : Provider) (context : list (text * json)) (prompt_text : text)
  : Request :=
  if is_gemini prov then
    GenerateContent (gemini_url (dflt [] (base_url prov)) (dflt [] (model prov)))
                    prompt_text (dflt 4096 (max_tokens prov))
  else
    ChatCompletions (provider_endpoint prov) (or_text (model prov) (str "openrouter/auto"))
                    context (dflt 8192 (max_tokens prov)).

Lemma call_provider_request (py_repr json_dumps : json -> text) (env : Env)
  (prov : Provider) (context : list (text * json)) (prompt_text : text) (r : Run) :
  reaches_network prov ->
  call_provider py_repr json_dumps env prov context prompt_text r
  = (match post_at env (posts (sys r)) with
     | NoReply => Raise (plain ClientError)
     | Replied rep =>
         read_reply py_repr (content_of py_repr json_dumps prov) (prov_id prov) rep
     end,
     with_sys posted (emit (Sent (request_of prov context prompt_text)) r)).
Proof.
  intros [Hg | (b & c & m & Hb & Hm)]; unfold call_provider, request_of, content_of.
  - rewrite Hg. unfold post. f_equal. destruct (post_at env _); reflexivity.
  - destruct (is_gemini prov).
    + rewrite Hb, Hm. unfold post. f_equal. destruct (post_at env _); reflexivity.
    + unfold post. f_equal. destruct (post_at env _); reflexivity.
Qed.


Definition chat_provider : Provider := provider "P1" 10 "openrouter".

Definition fresh_session : Session := mkSession (str "1b9d6bcd") (str "local_session_1b9d6bcd") 1700000000 [].

Definition start (store : list Provider) : Run :=
  mkRun (mkSys store (Some fresh_session) (str "openrouter") 0 0 0) None [].

(** An environment that answers every request with the same reply; the
    clock advances by one second per reading. *)
Definition always (rep : NetOutcome) (saving : bool) : Env :=
  mkEnv (fun n => inject_Z (1700000000 + Z.of_nat n)) (fun _ => rep) (fun _ => saving).

(** C7, at the failing inputs: a 200 reply whose body is the JSON [null],
    or whose first choice is a string, makes the chat adapter raise
    ([TypeError] from ["choices" in None], [AttributeError] from
    ["hi".get]); the call fails on the shape of the body. *)
Theorem chat_adapter_fails_on_shape (py_repr json_dumps : json -> text) :
  chat_content json_dumps JNull = Raise (plain TypeError)
  /\ chat_content json_dumps (JObj [(str "choices", JArr [JStr (str "hi")])])
     = Raise (plain AttributeError)
  /\ fst (call_provider py_repr json_dumps
            (always (Replied (mkReply 200 (str "null") (Some JNull))) true)
            chat_provider [] (str "q") (start [chat_provider]))
     = Raise (plain TypeError).
Proof. repeat split. Qed.

(** ** send_prompt *)

Section DispatcherFacts.

Variable py_repr : json -> text.
Variable json_dumps : json -> text.
Variable env : Env.

Lemma attempts_cons (i : nat) (prov : Provider) (context : list (text * json))
  (prompt_text : text) (attempt : nat) (rest : list nat) (r : Run) :
  attempts py_repr json_dumps env i prov context prompt_text (attempt :: rest) r
  = match one_attempt py_repr json_dumps env i prov context prompt_text attempt r with
    | (Ok a, r1) => (Ok (Some a), r1)
    | (Raise e, r1) =>
        match rate_limit_of e with
        | Some secs =>
            (do _ <- fst (rate_limited env i secs (caught e r1)); Ok None,
             snd (rate_limited env i secs (caught e r1)))
        | None =>
            attempts py_repr json_dumps env i prov context prompt_text rest
                     (failed_attempt i attempt e (caught e r1))
        end
    end.
Proof.
  cbn [attempts].
  destruct (one_attempt py_repr json_dumps env i prov context prompt_text attempt r)
    as [[a|e] r1]; [reflexivity|].
  destruct (rate_limit_of e) as [secs|]; [|reflexivity].
  now destruct (rate_limited env i secs (caught e r1)).
Qed.




(** An attempt on a provider that reaches the network and gets a 429. *)
Lemma one_attempt_429 (i : nat) (prov : Provider) (context : list (text * json))
  (prompt_text : text) (attempt : nat) (r : Run) (rep : Reply) :
  reaches_network prov ->
  post_at env (posts (sys r)) = Replied rep ->
  status rep = 429 ->
  exists req,
    one_attempt py_repr json_dumps env i prov context prompt_text attempt r
    = (Raise (rate_limit_error py_repr rep),
       with_sys posted (emit (Sent req) (emit (Try i attempt (clock_reads (sys r))) r))).
Proof.
  intros Hnet Hpost Hst. unfold one_attempt.
  destruct (call_provider_posts py_repr json_dumps env prov context prompt_text
              (emit (Try i attempt (clock_reads (sys r))) r) Hnet) as (req & ->).
  exists req. cbn [emit sys posts]. rewrite Hpost.
  now rewrite read_reply_429.
Qed.

Lemma one_attempt_missing_model (i : nat) (prov : Provider) (context : list (text * json))
  (prompt_text : text) (attempt : nat) (r : Run) :
  is_gemini prov = true ->
  model prov = None \/ model prov = Some [] ->
  one_attempt py_repr json_dumps env i prov context prompt_text attempt r
  = (Raise (config_error prov), emit (Try i attempt (clock_reads (sys r))) r).
Proof.
  intros Hg Hm. unfold one_attempt. now rewrite call_provider_missing_model.
Qed.

Lemma config_error_plain (prov : Provider) : rate_limit_of (config_error prov) = None.
Proof. unfold config_error. destruct (base_url prov); reflexivity. Qed.

End DispatcherFacts.

Lemma dispatch_available (py_repr json_dumps : json -> text) (env : Env)
  (context : list (text * json)) (prompt_text : text) (i : nat) (others : list nat)
  (prov : Provider) (r rc r2 : Run) (now : option Q) :
  deref (providers (sys r)) i = Some prov ->
  check_cooldown env prov r = (Available now, rc) ->
  attempts py_repr json_dumps env i prov context prompt_text (seq 1 MAX_PROVIDER_RETRIES)
           (emit (Select i now) rc) = (Ok None, r2) ->
  dispatch py_repr json_dumps env context prompt_text (i :: others) r
  = dispatch py_repr json_dumps env context prompt_text others r2.
Proof.
  intros Hd Hc Ha. cbn [dispatch]. rewrite Hd, Hc, Ha. reflexivity.
Qed.

(** C6 (as amended). A Gemini-style provider without a model fails before
    any request is sent, with a plain exception (no [retry_seconds]; the
    "missing model" one when there is a base URL). The dispatcher handles it
    as any failure that is not a rate limit: both attempts of the budget are
    made and fail the same way, each followed by its sleep; nothing of the
    globals changes, so no cooldown is set; then the next provider is
    visited. *)
Theorem missing_model_is_retried (py_repr json_dumps : json -> text) (env : Env)
  (i : nat) (prov : Provider) (context : list (text * json)) (prompt_text : text) (r : Run) :
  is_gemini prov = true ->
  model prov = None \/ model prov = Some [] ->
  let e := config_error prov in
  let n := clock_reads (sys r) in
  let r2 := mkRun (sys r) (Some e)
                  (trace r ++ [Try i 1 n; Failed i 1 e; Sleep 4;
                               Try i 2 n; Failed i 2 e; Sleep 8]) in
  retry_seconds e = None
  /\ (base_url prov <> None -> e = plain MissingModel)
  /\ call_provider py_repr json_dumps env prov context prompt_text r = (Raise e, r)
  /\ attempts py_repr json_dumps env i prov context prompt_text
              (seq 1 MAX_PROVIDER_RETRIES) r = (Ok None, r2)
  /\ providers (sys r2) = providers (sys r)
  /\ (forall others r0 now,
        deref (providers (sys r0)) i = Some prov ->
        check_cooldown env prov r0 = (Available now, r) ->
        dispatch py_repr json_dumps env context prompt_text (i :: others) r0
        = dispatch py_repr json_dumps env context prompt_text others
            (mkRun (sys r) (Some e)
               (trace r ++ [Select i now; Try i 1 n; Failed i 1 e; Sleep 4;
                            Try i 2 n; Failed i 2 e; Sleep 8]))).
Proof.
  intros Hg Hm e n r2.
  assert (Hloop : forall r', attempts py_repr json_dumps env i prov context prompt_text
              (seq 1 MAX_PROVIDER_RETRIES) r'
            = (Ok None, mkRun (sys r') (Some e)
                 (trace r' ++ [Try i 1 (clock_reads (sys r')); Failed i 1 e; Sleep 4;
                               Try i 2 (clock_reads (sys r')); Failed i 2 e; Sleep 8]))).
  { intro r'. cbn [seq MAX_PROVIDER_RETRIES].
    rewrite attempts_cons, one_attempt_missing_model, config_error_plain by assumption.
    rewrite attempts_cons, one_attempt_missing_model, config_error_plain by assumption.
    cbn [attempts]. unfold failed_attempt, caught, emit. cbn [sys last_exc trace].
    f_equal. f_equal. now rewrite <- !app_assoc. }
  split; [unfold e, config_error; destruct (base_url prov); reflexivity|].
  split; [unfold e, config_error; destruct (base_url prov); [reflexivity | congruence]|].
  split; [now apply call_provider_missing_model|].
  split; [apply Hloop|]. split; [reflexivity|].
  intros others r0 now Hd Hc.
  erewrite dispatch_available; [reflexivity | exact Hd | exact Hc |].
  rewrite Hloop. unfold emit. cbn [sys last_exc trace]. f_equal. f_equal.
  now rewrite <- app_assoc.
Qed.

Definition gemini_without_model : Provider :=
  mkProvider (Some (str "g1")) None (Some (str "gemini"))
             (Some (str "https://generativelanguage.googleapis.com/v1beta")) None
             (Some (str "key")) None (Some 1) None None.

Lemma missing_model_is_retried_witness :
  attempts sample_repr sample_dumps (always NoReply true) 0 gemini_without_model []
           (str "q") (seq 1 MAX_PROVIDER_RETRIES) (start [gemini_without_model])
  = (Ok None, mkRun (sys (start [gemini_without_model])) (Some (plain MissingModel))
             [Try 0 1 0; Failed 0 1 (plain MissingModel); Sleep 4;
              Try 0 2 0; Failed 0 2 (plain MissingModel); Sleep 8]).
Proof.
  apply (missing_model_is_retried sample_repr sample_dumps (always NoReply true) 0
           gemini_without_model [] (str "q") (start [gemini_without_model]));
    [reflexivity | now left].
Defined.

(** C6, the claim as stated fails: the provider without a model is tried a
    second time, and the submission ends after both attempts. *)
Lemma missing_model_second_attempt :
  let '(outcome, s, events) :=
    send_prompt sample_repr sample_dumps (always NoReply true) (str "q")
                (sys (start [gemini_without_model])) in
  outcome = AllProvidersFailed (Some (plain MissingModel))
  /\ In (Try 0 2 0) events
  /\ events = [Select 0 None; Try 0 1 0; Failed 0 1 (plain MissingModel); Sleep 4;
               Try 0 2 0; Failed 0 2 (plain MissingModel); Sleep 8]
  /\ providers s = [gemini_without_model].
Proof. vm_compute. repeat split. right; right; right; right; now left. Qed.

Lemma deref_update_same {A : Type} (f : A -> A) (l : list A) (i : nat) :
  nth_error (update_nth i f l) i = option_map f (nth_error l i).
Proof.
  revert l. induction i as [|i IH]; intros [|x l]; try reflexivity. cbn. apply IH.
Qed.

Lemma deref_update_other {A : Type} (f : A -> A) (l : list A) (i j : nat) :
  j <> i -> nth_error (update_nth i f l) j = nth_error l j.
Proof.
  revert l j. induction i as [|i IH]; intros [|x l] [|j] H; try reflexivity; try congruence.
  cbn. apply IH. congruence.
Qed.

(** An attempt on a provider that reaches the network and gets a 429,
    with the request that it sends. *)
Lemma one_attempt_rate_limit (py_repr json_dumps : json -> text) (env : Env)
  (i : nat) (prov : Provider) (context : list (text * json)) (prompt_text : text)
  (attempt : nat) (r : Run) (rep : Reply) :
  reaches_network prov ->
  post_at env (posts (sys r)) = Replied rep ->
  status rep = 429 ->
  one_attempt py_repr json_dumps env i prov context prompt_text attempt r
  = (Raise (rate_limit_error py_repr rep),
     with_sys posted (emit (Sent (request_of prov context prompt_text))
                           (emit (Try i attempt (clock_reads (sys r))) r))).
Proof.
  intros Hnet Hpost Hst. unfold one_attempt.
  rewrite (call_provider_request py_repr json_dumps env prov context prompt_text _ Hnet).
  cbn [emit sys posts]. rewrite Hpost. now rewrite read_reply_429.
Qed.



(** *** The floating-point sum *)

Lemma round_half_even_multiple (x d : Z) : 0 < d -> round_half_even (x * d) d = x.
Proof.
  intro Hd. unfold round_half_even. rewrite Z.mod_mul, Z.div_mul by lia.
  cbn [Z.mul]. destruct (0 <? d) eqn:E; [reflexivity|]. apply Z.ltb_ge in E. lia.
Qed.

(** The last place of a number below [2^(53-j)] is at most [-j]. *)
Lemma last_place_small (n d a j : Z) :
  0 < n -> 0 < d -> 0 < a < 2 ^ 53 -> 0 <= j <= 1074 ->
  n * 2 ^ j = a * d ->
  last_place n d <= - j.
Proof.
  intros Hn Hd Ha Hj E. unfold last_place.
  set (k := Z.log2 n - Z.log2 d).
  assert (Hk : k <= 53 - j).
  { assert (H1 : Z.log2 (n * 2 ^ j) = j + Z.log2 n) by (apply Z.log2_mul_pow2; lia).
    assert (H2 : Z.log2 (a * d) <= Z.log2 a + Z.log2 d + 1) by (apply Z.log2_mul_above; lia).
    assert (H3 : Z.log2 a < 53) by (apply Z.log2_lt_pow2; lia).
    rewrite E in H1. unfold k. lia. }
  assert (Hpow : 0 < 2 ^ j) by (apply Z.pow_pos_nonneg; lia).
  apply Z.max_lub; [|lia].
  destruct (Z.eq_dec k (53 - j)) as [Hk53 | Hne].
  - assert (Hbelow : (if 0 <=? k then n <? d * 2 ^ k else n * 2 ^ (- k) <? d) = true).
    { destruct (0 <=? k) eqn:E0.
      - apply Z.leb_le in E0. apply Z.ltb_lt.
        assert (Hs : 2 ^ 53 = 2 ^ k * 2 ^ j) by (rewrite <- Z.pow_add_r by lia; f_equal; lia).
        assert (H : n * 2 ^ j < (d * 2 ^ k) * 2 ^ j) by nia.
        apply Z.mul_lt_mono_pos_r in H; assumption.
      - apply Z.leb_gt in E0. apply Z.ltb_lt.
        assert (Hs : 2 ^ j = 2 ^ (- k) * 2 ^ 53) by (rewrite <- Z.pow_add_r by lia; f_equal; lia).
        assert (H : (n * 2 ^ (- k)) * 2 ^ 53 < d * 2 ^ 53) by nia.
        apply Z.mul_lt_mono_pos_r in H; lia. }
    rewrite Hbelow. lia.
  - destruct (if 0 <=? k then n <? d * 2 ^ k else n * 2 ^ (- k) <? d); lia.
Qed.

(** A number that is a double, below [2^53] in size, is its own nearest
    double. *)
Lemma round_double_exact (q : Q) (m j : Z) :
  Z.abs m < 2 ^ 53 -> 0 <= j <= 1074 ->
  (q == m # Z.to_pos (2 ^ j))%Q ->
  (round_double q == q)%Q.
Proof.
  intros Hm Hj Hq.
  assert (Hpow : 0 < 2 ^ j) by (apply Z.pow_pos_nonneg; lia).
  unfold Qeq in Hq. cbn [Qnum Qden] in Hq. rewrite Z2Pos.id in Hq by exact Hpow.
  unfold round_double.
  destruct (Z.abs (Qnum q) =? 0) eqn:E0.
  - apply Z.eqb_eq in E0. unfold Qeq. cbn [Qnum Qden]. lia.
  - apply Z.eqb_neq in E0.
    set (n := Z.abs (Qnum q)) in *. set (d := Zpos (Qden q)) in *.
    assert (Hd : 0 < d) by (unfold d; lia).
    assert (Hn : 0 < n) by (unfold n in *; lia).
    assert (E : n * 2 ^ j = Z.abs m * d).
    { unfold n, d. rewrite <- (Z.abs_eq (2 ^ j)) at 1 by lia.
      rewrite <- Z.abs_mul, Hq, Z.abs_mul. reflexivity. }
    assert (Ha : 0 < Z.abs m < 2 ^ 53) by nia.
    pose proof (last_place_small n d (Z.abs m) j Hn Hd Ha Hj E) as He.
    set (e := last_place n d) in *.
    cbv zeta. fold n d e.
    match goal with |- ((if _ then (- ?v)%Q else _) == _)%Q =>
      assert (Hv : (v == n # Qden q)%Q) end.
    { destruct (0 <=? e) eqn:Ee.
      - apply Z.leb_le in Ee. assert (e = 0) by lia. assert (j = 0) by lia. subst j.
        replace e with 0 by lia. change (2 ^ 0) with 1 in *. rewrite !Z.mul_1_r in *.
        rewrite E, round_half_even_multiple by exact Hd.
        unfold Qeq. cbn [Qnum Qden inject_Z]. fold d. lia.
      - apply Z.leb_gt in Ee.
        assert (Hs : 2 ^ (- e) = 2 ^ (- e - j) * 2 ^ j)
          by (rewrite <- Z.pow_add_r by lia; f_equal; lia).
        assert (Hx : n * 2 ^ (- e) = (Z.abs m * 2 ^ (- e - j)) * d).
        { rewrite Hs. nia. }
        rewrite Hx, round_half_even_multiple by exact Hd.
        unfold Qeq. cbn [Qnum Qden]. fold d.
        rewrite Z2Pos.id by (apply Z.pow_pos_nonneg; lia). rewrite Hx. ring. }
    destruct (Qnum q <? 0) eqn:Es.
    + apply Z.ltb_lt in Es.
      eapply Qeq_trans; [apply Qopp_comp; exact Hv|].
      unfold Qeq. cbn [Qnum Qden Qopp]. unfold n. lia.
    + apply Z.ltb_ge in Es.
      eapply Qeq_trans; [exact Hv|].
      unfold Qeq. cbn [Qnum Qden]. unfold n. lia.
Qed.

(** The sum of two floats is exact when it is a double below [2^53]. *)
Lemma float_add_exact (a b : Q) (m j : Z) :
  Z.abs m < 2 ^ 53 -> 0 <= j <= 1074 ->
  (a + b == m # Z.to_pos (2 ^ j))%Q ->
  (float_add a b == a + b)%Q.
Proof. intros Hm Hj H. unfold float_add. now apply (round_double_exact _ m j). Qed.

(** *** An attempt of a submission in flight *)

Lemma call_request_reaches (prov : Provider) (context : list (text * json))
  (prompt_text : text) :
  reaches_network prov ->
  call_request prov context prompt_text = Ok (request_of prov context prompt_text).
Proof.
  intros [Hg | (b & c & m & Hb & Hm)]; unfold call_request, request_of, gemini_url.
  - now rewrite Hg.
  - destruct (is_gemini prov); [|reflexivity]. now rewrite Hb, Hm.
Qed.

(** The attempt posts its request and waits; when it is resumed, on
    whatever the globals have become, it handles the reply that its request
    got. *)
Lemma attempts_co_reply (py_repr json_dumps : json -> text) (env : Env)
  (i : nat) (prov : Provider) (context : list (text * json)) (prompt_text : text)
  (attempt : nat) (rest : list nat) (r : Run) (rep : Reply) (e : PyExn) :
  reaches_network prov ->
  post_at env (posts (sys r)) = Replied rep ->
  read_reply py_repr (content_of py_repr json_dumps prov) (prov_id prov) rep = Raise e ->
  exists k,
    attempts_co py_repr json_dumps env i prov context prompt_text (attempt :: rest) r
    = Await (mkRun (posted (sys r)) (last_exc r)
                   (trace r ++ [Try i attempt (clock_reads (sys r));
                                Sent (request_of prov context prompt_text)])) k
    /\ forall r' : Run,
         k r' = match rate_limit_of e with
                | Some secs =>
                    Finished (do _ <- fst (rate_limited env i secs (caught e r')); Ok None)
                             (snd (rate_limited env i secs (caught e r')))
                | None =>
                    Await (failed_attempt i attempt e (caught e r'))
                          (fun r2 => attempts_co py_repr json_dumps env i prov context
                                                 prompt_text rest r2)
                end.
Proof.
  intros Hnet Hpost Hread. cbn [attempts_co]. unfold one_attempt_co.
  rewrite (call_request_reaches prov context prompt_text Hnet). unfold post.
  cbn [emit sys posts]. rewrite Hpost. cbn [bind bind_co]. rewrite Hread. cbn [bind_co].
  eexists. split.
  - unfold with_sys, emit. cbn [sys last_exc trace]. rewrite <- app_assoc. reflexivity.
  - intro r'. cbn beta. destruct (rate_limit_of e) as [secs|]; [|reflexivity].
    now destruct (rate_limited env i secs (caught e r')).
Qed.


(** What the rest of the [try] leaves in the trace and of the requests. *)
Lemma record_answer_trace (env : Env) (i : nat) (pid : option text) (prompt_text : text)
  (cr : CallResult) (r : Run) :
  exists more,
    trace (snd (record_answer env i pid prompt_text cr r)) = trace r ++ more
    /\ posts (sys (snd (record_answer env i pid prompt_text cr r))) = posts (sys r)
    /\ providers (sys (snd (record_answer env i pid prompt_text cr r))) = providers (sys r).
Proof.
  unfold record_answer. destruct (ok cr); [|exists []; now rewrite app_nil_r].
  destruct (current_session (sys r)) as [cs|] eqn:Hcs; [|exists []; now rewrite app_nil_r].
  unfold now_ts, read_clock, save_session, with_sys, emit, append_message, ticked, written.
  cbn [sys last_exc trace providers current_session preferred_provider_type
       clock_reads posts saves option_map].
  rewrite Hcs. cbn [option_map].
  destruct (save_ok env (saves (sys r))); cbn [snd sys trace posts providers].
  - exists [Saved true; Answered i]. now rewrite <- app_assoc.
  - exists [Saved false]. repeat split.
Qed.

(** An attempt on a provider that reaches the network sends its request,
    whatever comes back. *)
Lemma one_attempt_sends (py_repr json_dumps : json -> text) (env : Env)
  (i : nat) (prov : Provider) (context : list (text * json)) (prompt_text : text)
  (attempt : nat) (r : Run) :
  reaches_network prov ->
  exists more,
    trace (snd (one_attempt py_repr json_dumps env i prov context prompt_text attempt r))
    = trace r ++ [Try i attempt (clock_reads (sys r));
                  Sent (request_of prov context prompt_text)] ++ more
    /\ posts (sys (snd (one_attempt py_repr json_dumps env i prov context prompt_text
                          attempt r)))
       = S (posts (sys r)).
Proof.
  intro Hnet. unfold one_attempt.
  rewrite (call_provider_request py_repr json_dumps env prov context prompt_text _ Hnet).
  match goal with |- context [match ?c with Ok _ => _ | Raise _ => _ end] =>
    destruct c as [cr|e] end.
  - match goal with |- context [record_answer ?a ?b ?c ?d ?e ?f] =>
      destruct (record_answer_trace a b c d e f) as (more & Ht & Hp & _) end.
    exists more. rewrite Ht, Hp. unfold with_sys, emit, posted. cbn [sys trace posts].
    split; [now rewrite <- !app_assoc | reflexivity].
  - exists []. unfold with_sys, emit, posted. cbn [snd sys trace posts].
    split; [now rewrite <- !app_assoc | reflexivity].
Qed.

(** C10. A 429 whose payload parses to a delay of 0 seconds (as "0s" and
    "PT" do): [if retry_secs:] is false, so the failure is handled as any
    other one. After the first such reply no cooldown is written and the
    clock is not read; the warning and the sleep follow, and the second
    attempt sends the request to the same provider again, whatever comes
    back. When the second reply is of the same kind the budget is used up:
    the provider is as it was, without a cooldown, and the loop goes on with
    the next provider. Other submissions may run while this one waits for
    the reply and while it sleeps: it writes nothing to the globals that it
    finds after the reply, and after the sleep it sends the request to the
    same provider again. *)
Theorem zero_delay_is_transient (py_repr json_dumps : json -> text) (env : Env)
  (i : nat) (prov : Provider) (context : list (text * json)) (prompt_text : text)
  (r : Run) (rep : Reply) :
  reaches_network prov ->
  post_at env (posts (sys r)) = Replied rep ->
  status rep = 429 ->
  parse_retry_delay_seconds py_repr (error_data rep) = 0 ->
  let e := rate_limit_error py_repr rep in
  let n := clock_reads (sys r) in
  let req := request_of prov context prompt_text in
  let first := [Try i 1 n; Sent req; Failed i 1 e; Sleep 4] in
  let r1 := mkRun (posted (sys r)) (Some e) (trace r ++ first) in
  retry_seconds e = Some 0
  /\ attempts py_repr json_dumps env i prov context prompt_text
              (seq 1 MAX_PROVIDER_RETRIES) r
     = attempts py_repr json_dumps env i prov context prompt_text [2%nat] r1
  /\ providers (sys r1) = providers (sys r)
  /\ clock_reads (sys r1) = clock_reads (sys r)
  /\ (exists more,
        trace (snd (attempts py_repr json_dumps env i prov context prompt_text
                             (seq 1 MAX_PROVIDER_RETRIES) r))
        = trace r ++ first ++ [Try i 2 n; Sent req] ++ more)
  /\ (forall rep2,
        post_at env (S (posts (sys r))) = Replied rep2 ->
        status rep2 = 429 ->
        parse_retry_delay_seconds py_repr (error_data rep2) = 0 ->
        let e2 := rate_limit_error py_repr rep2 in
        let second := [Try i 2 n; Sent req; Failed i 2 e2; Sleep 8] in
        let r2 := mkRun (posted (posted (sys r))) (Some e2) (trace r ++ first ++ second) in
        attempts py_repr json_dumps env i prov context prompt_text
                 (seq 1 MAX_PROVIDER_RETRIES) r = (Ok None, r2)
        /\ providers (sys r2) = providers (sys r)
        /\ forall others r0 now,
             deref (providers (sys r0)) i = Some prov ->
             check_cooldown env prov r0 = (Available now, r) ->
             dispatch py_repr json_dumps env context prompt_text (i :: others) r0
             = dispatch py_repr json_dumps env context prompt_text others
                 (mkRun (sys r2) (Some e2)
                        (trace r ++ Select i now :: first ++ second)))
  /\ (exists k,
        attempts_co py_repr json_dumps env i prov context prompt_text
                    (seq 1 MAX_PROVIDER_RETRIES) r
        = Await (mkRun (posted (sys r)) (last_exc r) (trace r ++ [Try i 1 n; Sent req])) k
        /\ forall r' : Run, exists k2,
             k r' = Await (mkRun (sys r') (Some e) (trace r' ++ [Failed i 1 e; Sleep 4])) k2
             /\ forall r2 : Run, exists k3,
                  k2 r2 = Await (mkRun (posted (sys r2)) (last_exc r2)
                                       (trace r2 ++ [Try i 2 (clock_reads (sys r2)); Sent req]))
                                k3)
  /\ parse_retry_delay_seconds py_repr (retry_info (JStr (str "0s"))) = 0
  /\ parse_retry_delay_seconds py_repr (retry_info (JStr (str "PT"))) = 0.
Proof.
  intros Hnet Hpost Hst Hzero e n req first r1.
  assert (Hplain : forall rep', parse_retry_delay_seconds py_repr (error_data rep') = 0 ->
                     rate_limit_of (rate_limit_error py_repr rep') = None).
  { intros rep' H. unfold rate_limit_of, rate_limit_error. cbn [retry_seconds].
    now rewrite H. }
  assert (Hfirst : forall r',
            posts (sys r') = posts (sys r) ->
            attempts py_repr json_dumps env i prov context prompt_text
                     (seq 1 MAX_PROVIDER_RETRIES) r'
            = attempts py_repr json_dumps env i prov context prompt_text [2%nat]
                (mkRun (posted (sys r')) (Some e)
                       (trace r' ++ [Try i 1 (clock_reads (sys r')); Sent req;
                                     Failed i 1 e; Sleep 4]))).
  { intros r' Hr'. cbn [seq MAX_PROVIDER_RETRIES].
    rewrite attempts_cons, (one_attempt_rate_limit _ _ _ _ _ _ _ _ _ rep Hnet)
      by (try rewrite Hr'; assumption).
    rewrite (Hplain rep Hzero). f_equal.
    unfold failed_attempt, caught, with_sys, emit. cbn [sys last_exc trace].
    f_equal. now rewrite <- !app_assoc. }
  split; [unfold e, rate_limit_error; cbn [retry_seconds]; now rewrite Hzero|].
  split; [exact (Hfirst r eq_refl)|].
  split; [reflexivity|]. split; [reflexivity|].
  split; [|split; [|split; [|split; reflexivity]]].
  - rewrite (Hfirst r eq_refl).
    change (mkRun (posted (sys r)) (Some e)
                  (trace r ++ [Try i 1 (clock_reads (sys r)); Sent req; Failed i 1 e;
                               Sleep 4])) with r1.
    rewrite attempts_cons.
    destruct (one_attempt_sends py_repr json_dumps env i prov context prompt_text 2%nat r1 Hnet)
      as (more & Ht & _).
    destruct (one_attempt py_repr json_dumps env i prov context prompt_text 2 r1)
      as [[a|x] r'] eqn:Hone; cbn [snd] in Ht.
    + exists more. cbn [snd]. rewrite Ht. unfold r1. cbn [trace sys clock_reads posted].
      now rewrite <- !app_assoc.
    + destruct (rate_limit_of x) as [secs|]; cbn [snd].
      * unfold rate_limited, read_clock. destruct (float_of_int secs) as [f|y];
          cbn [snd].
        -- exists (more ++ [Disabled i (time_at env (clock_reads (sys r'))) secs]).
           unfold caught, with_sys, emit. cbn [trace sys]. rewrite Ht. unfold r1.
           cbn [trace sys clock_reads posted]. now rewrite <- !app_assoc.
        -- exists more. unfold caught, with_sys. cbn [trace sys]. rewrite Ht. unfold r1.
           cbn [trace sys clock_reads posted]. now rewrite <- !app_assoc.
      * exists (more ++ [Failed i 2 x; Sleep 8]). cbn [attempts snd].
        unfold failed_attempt, caught, emit. cbn [trace sys]. rewrite Ht. unfold r1.
        cbn [trace sys clock_reads posted]. now rewrite <- !app_assoc.
  - intros rep2 Hpost2 Hst2 Hzero2 e2 second r2.
    assert (Hloop : forall r',
              posts (sys r') = posts (sys r) ->
              attempts py_repr json_dumps env i prov context prompt_text
                       (seq 1 MAX_PROVIDER_RETRIES) r'
              = (Ok None,
                 mkRun (posted (posted (sys r'))) (Some e2)
                       (trace r' ++ [Try i 1 (clock_reads (sys r')); Sent req;
                                     Failed i 1 e; Sleep 4;
                                     Try i 2 (clock_reads (sys r')); Sent req;
                                     Failed i 2 e2; Sleep 8]))).
    { intros r' Hr'. rewrite (Hfirst r' Hr').
      rewrite attempts_cons, (one_attempt_rate_limit _ _ _ _ _ _ _ _ _ rep2 Hnet)
        by (try (cbn [sys posted posts]; rewrite Hr'); assumption).
      rewrite (Hplain rep2 Hzero2). cbn [attempts].
      unfold failed_attempt, caught, with_sys, emit, posted.
      cbn [sys last_exc trace providers current_session preferred_provider_type
           clock_reads posts saves].
      f_equal. f_equal. now rewrite <- !app_assoc. }
    split; [|split; [reflexivity|]].
    + rewrite (Hloop r eq_refl). reflexivity.
    + intros others r0 now Hd Hc.
      erewrite dispatch_available; [reflexivity | exact Hd | exact Hc |].
      rewrite (Hloop (emit (Select i now) r) eq_refl).
      unfold emit, r2, first, second. cbn [sys last_exc trace]. f_equal. f_equal.
      now rewrite <- app_assoc.
  - cbn [seq MAX_PROVIDER_RETRIES].
    destruct (attempts_co_reply py_repr json_dumps env i prov context prompt_text 1 [2%nat]
                r rep e Hnet Hpost (read_reply_429 _ _ _ _ Hst)) as (k & Hk & Hres).
    exists k. split; [exact Hk|]. intro r'. eexists. split.
    + rewrite Hres. unfold e. rewrite (Hplain rep Hzero). fold e.
      unfold failed_attempt, caught, emit. cbn [sys last_exc trace].
      rewrite <- app_assoc. reflexivity.
    + intro r2. cbn beta. cbn [attempts_co]. unfold one_attempt_co.
      rewrite (call_request_reaches prov context prompt_text Hnet). unfold post.
      cbn [bind_co]. eexists. unfold with_sys, emit. cbn [sys last_exc trace].
      rewrite <- app_assoc. reflexivity.
Qed.

(** The attempts of a trace: provider and attempt number. *)
Definition tries (events : list Event) : list (nat * nat) :=
  flat_map (fun e => match e with Try i k _ => [(i, k)] | _ => [] end) events.

Definition unavailable : NetOutcome :=
  Replied (mkReply 503 (str "Service Unavailable") None).

Definition too_many_requests (delay : string) : NetOutcome :=
  Replied (mkReply 429 (str "Too Many Requests") (Some (retry_info (JStr (str delay))))).



Lemma zero_delay_is_transient_witness :
  attempts sample_repr sample_dumps (always (too_many_requests "0s") true) 0 chat_provider
           [] (str "q") [1; 2]%nat (start [chat_provider])
  = (Ok None,
     mkRun (posted (posted (sys (start [chat_provider]))))
           (Some (Exn (HttpStatus 429) (Some 0)))
           [Try 0 1 0; Sent (request_of chat_provider [] (str "q"));
            Failed 0 1 (Exn (HttpStatus 429) (Some 0)); Sleep 4;
            Try 0 2 0; Sent (request_of chat_provider [] (str "q"));
            Failed 0 2 (Exn (HttpStatus 429) (Some 0)); Sleep 8]).
Proof.
  destruct (zero_delay_is_transient sample_repr sample_dumps
              (always (too_many_requests "0s") true) 0 chat_provider [] (str "q")
              (start [chat_provider])
              (mkReply 429 (str "Too Many Requests") (Some (retry_info (JStr (str "0s"))))))
    as (_ & _ & _ & _ & _ & Hsecond & _);
    [now left | reflexivity | reflexivity | reflexivity |].
  destruct (Hsecond (mkReply 429 (str "Too Many Requests")
                       (Some (retry_info (JStr (str "0s"))))))
    as (Hatt & _); [reflexivity | reflexivity | reflexivity |].
  exact Hatt.
Defined.

(** *** What one attempt changes *)

Section AttemptFacts.

Variable py_repr : json -> text.
Variable json_dumps : json -> text.
Variable env : Env.

Lemma call_provider_run (prov : Provider) (context : list (text * json))
  (prompt_text : text) (r r1 : Run) (called : res CallResult) :
  call_provider py_repr json_dumps env prov context prompt_text r = (called, r1) ->
  r1 = r \/ exists req, r1 = with_sys posted (emit (Sent req) r).
Proof.
  unfold call_provider, post. intro H.
  destruct (is_gemini prov).
  - destruct (base_url prov) as [b|]; [|injection H as _ <-; now left].
    destruct (model prov) as [[|c m]|]; injection H as _ <-; try (now left).
    right. eexists. reflexivity.
  - injection H as _ <-. right. eexists. reflexivity.
Qed.

Definition user_message (prompt_text : text) (t : Z) : Message :=
  mkMessage (str "user") (JStr prompt_text) t None.

Definition assistant_message (raw_text : json) (t : Z) (pid : option text) : Message :=
  mkMessage (str "assistant") raw_text t (Some pid).

(** The session with the two messages of a submission appended. *)
Definition with_turn (cs : Session) (prompt_text : text) (raw_text : json)
  (pid : option text) (t1 t2 : Z) : Session :=
  mkSession (session_id cs) (session_name cs) (created_at cs)
            ((messages cs ++ [user_message prompt_text t1])
             ++ [assistant_message raw_text t2 pid]).

Lemma record_answer_session (i : nat) (pid : option text) (prompt_text : text)
  (cr : CallResult) (r : Run) (cs : Session) :
  current_session (sys r) = Some cs ->
  ok cr = true ->
  let raw_text := py_or (result_text cr) (JStr []) in
  let t1 := int_of_time (time_at env (clock_reads (sys r))) in
  let t2 := int_of_time (time_at env (S (clock_reads (sys r)))) in
  let s' := mkSys (providers (sys r)) (Some (with_turn cs prompt_text raw_text pid t1 t2))
                  (preferred_provider_type (sys r)) (S (S (clock_reads (sys r))))
                  (posts (sys r)) (S (saves (sys r))) in
  record_answer env i pid prompt_text cr r
  = if save_ok env (saves (sys r))
    then (Ok (mkAnswer pid (raw cr) raw_text),
          mkRun s' (last_exc r) (trace r ++ [Saved true; Answered i]))
    else (Raise (plain OSError), mkRun s' (last_exc r) (trace r ++ [Saved false])).
Proof.
  intros Hcs Hok raw_text t1 t2 s'. unfold record_answer. rewrite Hok, Hcs.
  unfold now_ts, read_clock, save_session, with_sys, emit, append_message, ticked, written.
  cbn [sys last_exc trace providers current_session preferred_provider_type
       clock_reads posts saves option_map].
  rewrite Hcs. cbn [option_map].
  destruct (save_ok env (saves (sys r))); unfold s', with_turn, user_message,
    assistant_message, raw_text;
    cbn [sys last_exc trace providers current_session preferred_provider_type
         clock_reads posts saves session_id session_name created_at messages];
    rewrite <- ?app_assoc; reflexivity.
Qed.

Lemma record_answer_no_session (i : nat) (pid : option text) (prompt_text : text)
  (cr : CallResult) (r : Run) :
  current_session (sys r) = None ->
  exists e, record_answer env i pid prompt_text cr r = (Raise e, r)
            /\ retry_seconds e = None.
Proof.
  intro H. unfold record_answer. rewrite H.
  destruct (ok cr); eexists; split; reflexivity.
Qed.

Lemma record_answer_not_ok (i : nat) (pid : option text) (prompt_text : text)
  (cr : CallResult) (r : Run) :
  ok cr = false ->
  record_answer env i pid prompt_text cr r = (Raise (plain InvalidResponse), r).
Proof. intro H. unfold record_answer. now rewrite H. Qed.

(** An event that is neither a call nor a skip. *)
Definition silent (e : Event) : Prop :=
  match e with
  | Try _ _ _ | Skip _ _ | Select _ _ | Disabled _ _ _ => False
  | _ => True
  end.

(** One attempt: the providers are untouched, the clock only advances, the
    trace gets the [Try] and then silent events, and the session gets the
    two messages exactly when the attempt produces them. *)
Lemma one_attempt_run (i : nat) (prov : Provider) (context : list (text * json))
  (prompt_text : text) (attempt : nat) (r r1 : Run) (done : res Answer) :
  one_attempt py_repr json_dumps env i prov context prompt_text attempt r = (done, r1) ->
  providers (sys r1) = providers (sys r)
  /\ (clock_reads (sys r) <= clock_reads (sys r1))%nat
  /\ last_exc r1 = last_exc r
  /\ (exists new, trace r1 = trace r ++ Try i attempt (clock_reads (sys r)) :: new
                  /\ Forall silent new)
  /\ match done with
     | Ok a =>
         exists cs t1 t2,
           current_session (sys r) = Some cs
           /\ current_session (sys r1)
              = Some (with_turn cs prompt_text (answer_text a) (answer_provider a) t1 t2)
           /\ answer_provider a = prov_id prov
     | Raise e =>
         current_session (sys r1) = current_session (sys r)
         \/ (save_ok env (saves (sys r)) = false
             /\ exists cs raw_text t1 t2,
                 current_session (sys r) = Some cs
                 /\ current_session (sys r1)
                    = Some (with_turn cs prompt_text raw_text (prov_id prov) t1 t2))
     end.
Proof.
  unfold one_attempt.
  set (r0 := emit (Try i attempt (clock_reads (sys r))) r).
  destruct (call_provider py_repr json_dumps env prov context prompt_text r0)
    as [called rc] eqn:Hcall.
  assert (Hrc : providers (sys rc) = providers (sys r)
                /\ clock_reads (sys rc) = clock_reads (sys r)
                /\ last_exc rc = last_exc r
                /\ current_session (sys rc) = current_session (sys r)
                /\ saves (sys rc) = saves (sys r)
                /\ exists new, trace rc = trace r ++ Try i attempt (clock_reads (sys r)) :: new
                               /\ Forall silent new).
  { apply call_provider_run in Hcall as [-> | (req & ->)]; repeat split;
      try reflexivity.
    - exists []. unfold r0, emit. cbn [trace]. split; [reflexivity | constructor].
    - exists [Sent req]. unfold r0, with_sys, emit. cbn [trace].
      rewrite <- app_assoc. split; [reflexivity | repeat constructor]. }
  destruct Hrc as (Hp & Hc & Hl & Hs & Hsv & new & Ht & Hnew).
  destruct called as [cr|e].
  - destruct (ok cr) eqn:Hok.
    + destruct (current_session (sys rc)) as [cs|] eqn:Hcs.
      * rewrite (record_answer_session i (prov_id prov) prompt_text cr rc cs Hcs Hok).
        rewrite Hsv. destruct (save_ok env (saves (sys r))) eqn:Hsave;
          intro H; injection H as <- <-; cbn [sys providers clock_reads last_exc trace
                                               current_session];
          (split; [exact Hp|]); (split; [lia|]); (split; [exact Hl|]); split.
        -- exists (new ++ [Saved true; Answered i]). rewrite Ht, <- app_assoc.
           split; [reflexivity|]. apply Forall_app. split; [exact Hnew | repeat constructor].
        -- eexists cs, _, _. rewrite <- Hs. repeat split. 
        -- exists (new ++ [Saved false]). rewrite Ht, <- app_assoc.
           split; [reflexivity|]. apply Forall_app. split; [exact Hnew | repeat constructor].
        -- right. split; [reflexivity|]. eexists cs, _, _, _. rewrite <- Hs. split; reflexivity.
      * destruct (record_answer_no_session i (prov_id prov) prompt_text cr rc Hcs)
          as (e & -> & _).
        intro H; injection H as <- <-. repeat split; try assumption; try lia.
        -- exists new. now split.
        -- left. congruence.
    + rewrite (record_answer_not_ok i (prov_id prov) prompt_text cr rc Hok).
      intro H; injection H as <- <-. repeat split; try assumption; try lia.
      * exists new. now split.
      * now left.
  - intro H; injection H as <- <-. repeat split; try assumption; try lia.
    + exists new. now split.
    + now left.
Qed.

End AttemptFacts.

(** *** No call after a cooldown was written *)

(** After the cooldown of a provider is written, the trace has no further
    call of that provider. *)
Fixpoint no_call_after_disable (events : list Event) : Prop :=
  match events with
  | [] => True
  | Disabled i _ _ :: rest =>
      (forall k n, ~ In (Try i k n) rest) /\ no_call_after_disable rest
  | _ :: rest => no_call_after_disable rest
  end.

Definition not_disabled (e : Event) : Prop :=
  match e with
  | Disabled _ _ _ => False
  | _ => True
  end.

Lemma silent_not_disabled (e : Event) : silent e -> not_disabled e.
Proof. destruct e; cbn; tauto. Qed.

Lemma no_call_after_quiet (a b : list Event) :
  Forall not_disabled a -> no_call_after_disable b -> no_call_after_disable (a ++ b).
Proof.
  induction 1 as [|e a He _ IH]; intro Hb; [exact Hb|].
  cbn [app]. destruct e; cbn in He |- *; try contradiction; now apply IH.
Qed.

Lemma no_call_after_app (a b : list Event) :
  no_call_after_disable a -> no_call_after_disable b ->
  (forall j now secs, In (Disabled j now secs) a -> forall k n, ~ In (Try j k n) b) ->
  no_call_after_disable (a ++ b).
Proof.
  induction a as [|e a IH]; intros Ha Hb Hab; [exact Hb|].
  assert (Hab' : forall j now secs, In (Disabled j now secs) a ->
                                    forall k n, ~ In (Try j k n) b).
  { intros j now secs Hin. apply (Hab j now secs). now right. }
  cbn [app]. destruct e; cbn in Ha |- *; try (now apply IH).
  destruct Ha as [Ha1 Ha2]. split; [|now apply IH].
  intros k n Hin. apply in_app_or in Hin as [Hin | Hin].
  - now apply (Ha1 k n).
  - apply (Hab i now secs (or_introl eq_refl) k n Hin).
Qed.

Lemma no_call_after_split (events pre post : list Event) (i : nat) (now : Q) (secs : Z) :
  no_call_after_disable events ->
  events = pre ++ Disabled i now secs :: post ->
  forall k n, ~ In (Try i k n) post.
Proof.
  intros H ->. induction pre as [|e pre IH].
  - cbn in H. now destruct H.
  - apply IH. cbn [app] in H. destruct e; cbn in H; try exact H. now destruct H.
Qed.

(** *** What the two loops change *)

Section LoopFacts.

Variable py_repr : json -> text.
Variable json_dumps : json -> text.
Variable env : Env.
Variable context : list (text * json).
Variable prompt_text : text.

(** The events of the attempts on the provider at position [i], after [c]
    readings of the clock. *)
Definition attempt_event (i c : nat) (e : Event) : Prop :=
  match e with
  | Try j _ n => j = i /\ (c <= n)%nat
  | Disabled j _ _ => j = i
  | Skip _ _ | Select _ _ => False
  | _ => True
  end.

Lemma silent_attempt_event (i c : nat) (e : Event) : silent e -> attempt_event i c e.
Proof. destruct e; cbn; tauto. Qed.

Lemma attempt_event_later (i c c' : nat) (e : Event) :
  (c <= c')%nat -> attempt_event i c' e -> attempt_event i c e.
Proof. destruct e; cbn; intuition lia. Qed.

Definition saves_succeed : Prop := forall n, save_ok env n = true.

(** The session after the loop: with the two messages when an answer is
    returned, as before otherwise (as long as the writes succeed). *)
Definition session_effect (prov_ids : option text -> Prop) (before after : option Session)
  (o : res (option Answer)) : Prop :=
  match o with
  | Ok (Some a) =>
      exists cs t1 t2,
        before = Some cs
        /\ after = Some (with_turn cs prompt_text (answer_text a) (answer_provider a) t1 t2)
        /\ prov_ids (answer_provider a)
  | _ => after = before
  end.

Lemma attempts_run (i : nat) (prov : Provider) (todo : list nat) :
  forall (r r' : Run) (o : res (option Answer)),
    attempts py_repr json_dumps env i prov context prompt_text todo r = (o, r') ->
    (forall j, j <> i -> deref (providers (sys r')) j = deref (providers (sys r)) j)
    /\ (clock_reads (sys r) <= clock_reads (sys r'))%nat
    /\ (exists new,
          trace r' = trace r ++ new
          /\ Forall (attempt_event i (clock_reads (sys r))) new
          /\ (forall k rest, todo = k :: rest -> exists n, In (Try i k n) new)
          /\ no_call_after_disable new)
    /\ (saves_succeed ->
        session_effect (fun pid => pid = prov_id prov)
                       (current_session (sys r)) (current_session (sys r')) o).
Proof.
  induction todo as [|k rest IH]; intros r r' o H.
  - cbn [attempts] in H. injection H as <- <-. repeat split; try lia.
    + exists []. rewrite app_nil_r. repeat split; [constructor | discriminate].
  - rewrite attempts_cons in H.
    destruct (one_attempt py_repr json_dumps env i prov context prompt_text k r)
      as [done r1] eqn:Hone.
    apply one_attempt_run in Hone as (Hp & Hc & Hl & (new & Ht & Hnew) & Hs).
    assert (Hev : Forall (attempt_event i (clock_reads (sys r)))
                         (Try i k (clock_reads (sys r)) :: new)).
    { constructor; [cbn; split; [reflexivity | lia]|].
      eapply Forall_impl; [|exact Hnew]. intro e. apply silent_attempt_event. }
    assert (Hq : Forall not_disabled (Try i k (clock_reads (sys r)) :: new)).
    { constructor; [exact I|].
      eapply Forall_impl; [|exact Hnew]. intro e. apply silent_not_disabled. }
    destruct done as [a|e].
    + injection H as <- <-. split; [intros j _; now rewrite Hp|]. split; [exact Hc|].
      split.
      * exists (Try i k (clock_reads (sys r)) :: new).
        split; [exact Ht|]. split; [exact Hev|]. split.
        -- intros k' rest' E. injection E as <- <-. eexists. now left.
        -- rewrite <- (app_nil_r (_ :: new)). now apply no_call_after_quiet.
      * intros _. destruct Hs as (cs & t1 & t2 & H1 & H2 & H3).
        exists cs, t1, t2. repeat split; assumption.
    + destruct (rate_limit_of e) as [secs|].
      * unfold rate_limited, read_clock in H.
        destruct (float_of_int secs) as [f|x]; cbn [fst snd bind] in H;
          injection H as <- <-.
        -- unfold caught, with_sys, emit, disable, ticked.
           cbn [sys last_exc trace providers current_session clock_reads].
           split; [intros j Hj; unfold deref; rewrite deref_update_other by exact Hj;
                   now rewrite Hp|].
           split; [lia|]. split.
           ++ exists ((Try i k (clock_reads (sys r)) :: new)
                      ++ [Disabled i (time_at env (clock_reads (sys r1))) secs]).
              rewrite Ht, <- app_assoc. split; [reflexivity|]. split; [|split].
              ** apply Forall_app. split; [exact Hev | repeat constructor].
              ** intros k' rest' E. injection E as <- <-. eexists. now left.
              ** apply no_call_after_quiet; [exact Hq|]. cbn. split; [|exact I].
                 intros k' n' [].
           ++ intros Hsave. cbn [session_effect].
              destruct Hs as [Hs | [Hs _]]; [exact Hs | rewrite Hsave in Hs; discriminate].
        -- unfold caught, with_sys, ticked.
           cbn [sys last_exc trace providers current_session clock_reads].
           split; [intros j Hj; now rewrite Hp|].
           split; [lia|]. split.
           ++ exists (Try i k (clock_reads (sys r)) :: new).
              split; [exact Ht|]. split; [exact Hev|]. split.
              ** intros k' rest' E. injection E as <- <-. eexists. now left.
              ** rewrite <- (app_nil_r (_ :: new)). now apply no_call_after_quiet.
           ++ intros Hsave. cbn [session_effect].
              destruct Hs as [Hs | [Hs _]]; [exact Hs | rewrite Hsave in Hs; discriminate].
      * apply IH in H as (Hj & Hc' & (new' & Ht' & Hnew' & _ & Hncad') & Hs').
        unfold failed_attempt, caught, emit in Hj, Hc', Ht', Hnew', Hs'.
        cbn [sys last_exc trace] in Hj, Hc', Ht', Hnew', Hs'.
        split; [intros j Hne; rewrite (Hj j Hne); now rewrite Hp|].
        split; [lia|]. split.
        -- exists ((Try i k (clock_reads (sys r)) :: new)
                   ++ [Failed i k e; Sleep (4 * k)] ++ new').
           rewrite Ht', Ht, <- !app_assoc. split; [reflexivity|]. split; [|split].
           ++ apply Forall_app. split; [exact Hev|].
              apply Forall_app. split; [repeat constructor|].
              eapply Forall_impl; [|exact Hnew']. intro ev.
              now apply attempt_event_later.
           ++ intros k' rest' E. injection E as <- <-. eexists. now left.
           ++ apply no_call_after_quiet; [exact Hq|].
              apply no_call_after_quiet; [repeat constructor | exact Hncad'].
        -- intros Hsave. specialize (Hs' Hsave).
           destruct Hs as [Hs | [Hs _]]; [|rewrite Hsave in Hs; discriminate].
           now rewrite Hs in Hs'.
Qed.

Lemma Qltb_lt (a b : Q) : Qltb a b = true <-> (a < b)%Q.
Proof.
  unfold Qltb. rewrite negb_true_iff. split; intro H.
  - apply Qnot_le_lt. intro Hle. apply Qle_bool_iff in Hle. congruence.
  - apply not_true_is_false. intro Hle. apply Qle_bool_iff in Hle.
    now apply (Qlt_not_le a b).
Qed.

Lemma Qltb_ge (a b : Q) : Qltb a b = false <-> (b <= a)%Q.
Proof.
  unfold Qltb. rewrite negb_false_iff. apply Qle_bool_iff.
Qed.

(** Line 271, case by case. *)
Lemma check_cooldown_run (prov : Provider) (r rc : Run) (c : Check) :
  check_cooldown env prov r = (c, rc) ->
  providers (sys rc) = providers (sys r)
  /\ current_session (sys rc) = current_session (sys r)
  /\ trace rc = trace r
  /\ match c with
     | Cooling now =>
         exists d, _disabled_until prov = Some d
                   /\ now = time_at env (clock_reads (sys r))
                   /\ (now < d)%Q
                   /\ clock_reads (sys rc) = S (clock_reads (sys r))
     | Available (Some now) =>
         exists d, _disabled_until prov = Some d
                   /\ now = time_at env (clock_reads (sys r))
                   /\ (d <= now)%Q
                   /\ clock_reads (sys rc) = S (clock_reads (sys r))
     | Available None =>
         (forall d, _disabled_until prov = Some d -> (d == 0)%Q) /\ rc = r
     end.
Proof.
  unfold check_cooldown, read_clock.
  destruct (Qeq_bool (dflt 0%Q (_disabled_until prov)) 0) eqn:E0; cbn [negb].
  - intro H. injection H as <- <-. repeat split.
    intros d Hd. rewrite Hd in E0. now apply Qeq_bool_iff.
  - destruct (_disabled_until prov) as [d|] eqn:Hd; [|discriminate E0]. cbn [dflt].
    destruct (Qltb (time_at env (clock_reads (sys r))) d) eqn:El;
      intro H; injection H as <- <-; repeat split; exists d; repeat split.
    + now apply Qltb_lt.
    + now apply Qltb_ge.
Qed.

(** The events of the loop over the providers [refs], started with the
    store [store] after [c0] readings of the clock: a provider is skipped
    only at a reading that lies before its timestamp, and called only when
    it has no timestamp, or the zero one, or one that a reading taken for it
    had reached. *)
Definition visit_event (store : list Provider) (c0 : nat) (refs : list nat) (e : Event)
  : Prop :=
  match e with
  | Skip i now =>
      In i refs
      /\ exists p d m, deref store i = Some p /\ _disabled_until p = Some d
                       /\ (c0 <= m)%nat /\ now = time_at env m /\ (now < d)%Q
  | Try i _ n =>
      In i refs
      /\ exists p, deref store i = Some p /\ (c0 <= n)%nat
                   /\ (forall d, _disabled_until p = Some d -> ~ (d == 0)%Q ->
                                 exists m, (c0 <= m < n)%nat /\ (d <= time_at env m)%Q)
  | _ => True
  end.

Lemma visit_event_weaken (store store' : list Provider) (c0 c0' : nat)
  (refs refs' : list nat) (e : Event) :
  (c0 <= c0')%nat ->
  (forall j, In j refs' -> In j refs /\ deref store' j = deref store j) ->
  visit_event store' c0' refs' e -> visit_event store c0 refs e.
Proof.
  intros Hc Hr. destruct e; cbn; try tauto.
  - intros (Hi & p & d & m & Hp & Hd & Hm & Hn & Hlt). destruct (Hr _ Hi) as [Hi' Hs].
    split; [exact Hi'|]. exists p, d, m. rewrite <- Hs. repeat split; try assumption. lia.
  - intros (Hi & p & Hp & Hn & Hd). destruct (Hr _ Hi) as [Hi' Hs].
    split; [exact Hi'|]. exists p. rewrite <- Hs. repeat split; try assumption; try lia.
    intros d H1 H2. destruct (Hd d H1 H2) as (m & Hm & Hle). exists m. split; [lia | exact Hle].
Qed.

End LoopFacts.

Section DispatchFacts.

Variable py_repr : json -> text.
Variable json_dumps : json -> text.
Variable env : Env.
Variable context : list (text * json).
Variable prompt_text : text.

(** The provider at position [i] was dealt with: skipped, or called. *)
Definition visited (i : nat) (events : list Event) : Prop :=
  (exists now, In (Skip i now) events) \/ (exists n, In (Try i 1 n) events).

Lemma visited_app_l (i : nat) (a b : list Event) : visited i a -> visited i (a ++ b).
Proof.
  intros [(x & H) | (x & H)]; [left | right]; exists x; apply in_or_app; now left.
Qed.

Lemma visited_app_r (i : nat) (a b : list Event) : visited i b -> visited i (a ++ b).
Proof.
  intros [(x & H) | (x & H)]; [left | right]; exists x; apply in_or_app; now right.
Qed.

Lemma dispatch_run (refs : list nat) :
  forall (r r' : Run) (o : res (option Answer)),
    NoDup refs ->
    dispatch py_repr json_dumps env context prompt_text refs r = (o, r') ->
    (clock_reads (sys r) <= clock_reads (sys r'))%nat
    /\ (forall j, ~ In j refs -> deref (providers (sys r')) j = deref (providers (sys r)) j)
    /\ (exists new,
          trace r' = trace r ++ new
          /\ Forall (visit_event env (providers (sys r)) (clock_reads (sys r)) refs) new
          /\ (o = Ok None ->
              forall i p, In i refs -> deref (providers (sys r)) i = Some p -> visited i new)
          /\ no_call_after_disable new)
    /\ (saves_succeed env ->
        session_effect prompt_text
          (fun pid => exists i p, In i refs /\ deref (providers (sys r)) i = Some p
                                  /\ pid = prov_id p)
          (current_session (sys r)) (current_session (sys r')) o).
Proof.
  induction refs as [|i rest IH]; intros r r' o Hnd H.
  - cbn [dispatch] in H. injection H as <- <-. repeat split; try lia.
    exists []. rewrite app_nil_r. repeat split; [constructor|]. intros _ i p [].
  - inversion Hnd as [|? ? Hi Hrest]; subst. cbn [dispatch] in H.
    destruct (deref (providers (sys r)) i) as [prov|] eqn:Hd.
    + destruct (check_cooldown env prov r) as [c rc] eqn:Hc.
      apply check_cooldown_run in Hc as (Hcp & Hcs & Hct & Hcc).
      destruct c as [now | now].
      * (* the provider is skipped *)
        destruct Hcc as (d & Hdu & Hnow & Hlt & Hclk).
        unfold read_clock in H. cbn iota beta in H.
        apply IH in H as (Hk & Hj & (new & Ht & Hnew & Hvis & Hnc) & Hs); [|exact Hrest].
        unfold emit, with_sys, ticked in Hk, Hj, Ht, Hnew, Hvis, Hs.
        cbn [sys trace providers clock_reads current_session] in Hk, Hj, Ht, Hnew, Hvis, Hs.
        rewrite ?Hcp, ?Hcs, ?Hct, ?Hclk in *.
        split; [lia|]. split; [intros j Hn; apply Hj; intro; apply Hn; now right|]. split.
        -- exists (Skip i now :: new). rewrite Ht, <- app_assoc. split; [reflexivity|].
           split; [|split; [|exact Hnc]].
           ++ constructor.
              ** cbn. split; [now left|]. exists prov, d, (clock_reads (sys r)).
                 repeat split; try assumption. lia.
              ** eapply Forall_impl; [|exact Hnew]. intro e.
                 apply visit_event_weaken; [lia|]. intros j Hin. split; [now right | reflexivity].
           ++ intros -> j p [<- | Hin] Hp.
              ** left. exists now. now left.
              ** apply (visited_app_r j [Skip i now]). now apply (Hvis eq_refl j p).
        -- intro Hsave. specialize (Hs Hsave). destruct o as [[a|]|x]; try exact Hs.
           destruct Hs as (cs & t1 & t2 & H1 & H2 & (j & p & Hin & Hp & Hpid)).
           exists cs, t1, t2. repeat split; try assumption. exists j, p.
           repeat split; try assumption. now right.
      * (* the provider is selected *)
        destruct (attempts py_repr json_dumps env i prov context prompt_text
                    (seq 1 MAX_PROVIDER_RETRIES) (emit (Select i now) rc))
          as [oa ra] eqn:Ha.
        apply attempts_run in Ha as (Haj & Hak & (newa & Hat & Hanew & Hatry & Hanc) & Has).
        unfold emit in Haj, Hak, Hat, Hanew, Has.
        cbn [sys trace] in Haj, Hak, Hat, Hanew, Has.
        rewrite ?Hcp, ?Hcs, ?Hct in *.
        assert (Hclk : (clock_reads (sys r) <= clock_reads (sys rc))%nat).
        { destruct now as [t|]; [destruct Hcc as (d & _ & _ & _ & ->); lia|].
          destruct Hcc as [_ ->]. lia. }
        assert (Hlift : Forall (visit_event env (providers (sys r)) (clock_reads (sys r))
                                            (i :: rest)) newa).
        { eapply Forall_impl; [|exact Hanew]. intros e He. destruct e; cbn in He |- *;
            try tauto.
          destruct He as [-> Hn]. split; [now left|]. exists prov.
          split; [exact Hd|]. split; [lia|]. intros d Hdu Hnz.
          destruct now as [t|].
          - destruct Hcc as (d' & Hdu' & Ht & Hle & Hclk').
            rewrite Hdu in Hdu'. injection Hdu' as <-.
            exists (clock_reads (sys r)). split; [lia|]. now rewrite <- Ht.
          - destruct Hcc as [Hz _]. now specialize (Hz d Hdu). }
        destruct (Hatry 1%nat [2%nat] eq_refl) as (n1 & Hn1).
        destruct oa as [[a|]|x]; [| |injection H as <- <-;
           (split; [lia|]);
           (split; [intros j Hn; apply Haj; intro; subst; apply Hn; now left|]); split;
           [exists (Select i now :: newa); rewrite Hat, <- app_assoc;
            split; [reflexivity|]; split; [constructor; [exact I | exact Hlift]|];
            split; [discriminate | exact Hanc]
           |intro Hsave; exact (Has Hsave)]].
        -- injection H as <- <-.
           split; [lia|].
           split; [intros j Hn; apply Haj; intro; subst; apply Hn; now left|]. split.
           ++ exists (Select i now :: newa). rewrite Hat, <- app_assoc.
              split; [reflexivity|]. split; [constructor; [exact I | exact Hlift]|].
              split; [discriminate | exact Hanc].
           ++ intro Hsave. destruct (Has Hsave) as (cs & t1 & t2 & H1 & H2 & H3).
              exists cs, t1, t2. repeat split; try assumption.
              exists i, prov. repeat split; try assumption. now left.
        -- apply IH in H as (Hk & Hj & (new & Ht & Hnew & Hvis & Hnc) & Hs); [|exact Hrest].
           assert (Hsame : forall j, In j rest ->
                     deref (providers (sys ra)) j = deref (providers (sys r)) j).
           { intros j Hin. apply Haj. intro; subst. contradiction. }
           split; [lia|]. split.
           { intros j Hn. rewrite Hj by (intro; apply Hn; now right).
             apply Haj. intro; subst. apply Hn. now left. }
           split.
           ++ exists (Select i now :: newa ++ new).
              rewrite Ht, Hat, <- !app_assoc. split; [reflexivity|]. split; [|split].
              ** constructor; [exact I|]. apply Forall_app. split; [exact Hlift|].
                 eapply Forall_impl; [|exact Hnew]. intro e.
                 apply visit_event_weaken; [lia|]. intros j Hin.
                 split; [now right | now apply Hsame].
              ** intros -> j p [<- | Hin] Hp.
                 --- apply (visited_app_r i [Select i now]), visited_app_l.
                     right. now exists n1.
                 --- apply (visited_app_r j [Select i now]), visited_app_r.
                     apply (Hvis eq_refl j p Hin). now rewrite Hsame.
              ** cbn [no_call_after_disable]. apply no_call_after_app; [exact Hanc | exact Hnc |].
                 intros j t secs Hdis k n Htry.
                 rewrite Forall_forall in Hanew, Hnew.
                 apply Hanew in Hdis. cbn in Hdis. subst j.
                 apply Hnew in Htry. cbn in Htry. destruct Htry as [Hin' _]. contradiction.
           ++ intro Hsave. specialize (Hs Hsave). specialize (Has Hsave).
              cbn [session_effect] in Has. rewrite Has in Hs.
              destruct o as [[a|]|x]; try exact Hs.
              destruct Hs as (cs & t1 & t2 & H1 & H2 & (j & p & Hin & Hp & Hpid)).
              exists cs, t1, t2. repeat split; try assumption. exists j, p.
              repeat split; try assumption; [now right | now rewrite <- Hsame].
    + (* a reference outside the store *)
      apply IH in H as (Hk & Hj & (new & Ht & Hnew & Hvis & Hnc) & Hs); [|exact Hrest].
      split; [exact Hk|]. split; [intros j Hn; apply Hj; intro; apply Hn; now right|].
      split.
      * exists new. split; [exact Ht|]. split; [|split; [|exact Hnc]].
        -- eapply Forall_impl; [|exact Hnew]. intro e.
           apply visit_event_weaken; [lia|]. intros j Hin. split; [now right | reflexivity].
        -- intros -> j p [<- | Hin] Hp; [congruence | now apply (Hvis eq_refl j p)].
      * intro Hsave. specialize (Hs Hsave). destruct o as [[a|]|x]; try exact Hs.
        destruct Hs as (cs & t1 & t2 & H1 & H2 & (j & p & Hin & Hp & Hpid)).
        exists cs, t1, t2. repeat split; try assumption. exists j, p.
        repeat split; try assumption. now right.
Qed.

End DispatchFacts.

(** *** The references of a submission *)

Lemma selection_order_In (preferred : text) (store : list Provider) (i : nat) :
  In i (selection_order preferred store) <-> In i (enabled_refs store).
Proof.
  unfold selection_order. destruct preferred as [|c pref]; [reflexivity|].
  set (pf := c :: pref). rewrite in_app_iff, !filter_In. split.
  - intros [[H _] | [H _]]; exact H.
  - intro H. destruct (holds store (prefers pf) i) eqn:E.
    + left. now split.
    + right. split; [exact H|]. now rewrite ref_in_matching, E.
Qed.

Lemma selection_order_NoDup (preferred : text) (store : list Provider) :
  NoDup (selection_order preferred store).
Proof.
  assert (Hp : NoDup (enabled_refs store)) by apply NoDup_filter, seq_NoDup.
  unfold selection_order. destruct preferred as [|c pref]; [exact Hp|].
  set (pf := c :: pref). apply NoDup_app; [now apply NoDup_filter | now apply NoDup_filter |].
  intros i Hm Ho. apply filter_In in Hm as [Hi Hm]. apply filter_In in Ho as [_ Ho].
  rewrite ref_in_matching, Hm in Ho by exact Hi. discriminate.
Qed.

Lemma enabled_refs_In (store : list Provider) (i : nat) (p : Provider) :
  deref store i = Some p -> get_enabled p = true -> In i (enabled_refs store).
Proof.
  intros Hd He. apply filter_In. split.
  - apply in_seq. split; [lia|]. cbn. apply nth_error_Some. unfold deref in Hd. congruence.
  - unfold holds. now rewrite Hd.
Qed.

Lemma enabled_refs_enabled (store : list Provider) (i : nat) :
  In i (enabled_refs store) ->
  exists p, deref store i = Some p /\ get_enabled p = true.
Proof.
  intro H. apply filter_In in H as [_ H]. unfold holds in H.
  destruct (deref store i) as [p|]; [now exists p | discriminate].
Qed.

(** The shape of [send_prompt]: the two early exits, or the loop. *)
Lemma send_prompt_cases (py_repr json_dumps : json -> text) (env : Env)
  (prompt_text : text) (s : Sys) :
  (send_prompt py_repr json_dumps env prompt_text s = (NoProviders, s, [])
   /\ providers s = [])
  \/ (send_prompt py_repr json_dumps env prompt_text s = (NoEnabledProviders, s, [])
      /\ enabled_refs (providers s) = [])
  \/ (exists o r,
        dispatch py_repr json_dumps env (build_context (current_session s) prompt_text)
                 prompt_text (selection_order (preferred_provider_type s) (providers s))
                 (mkRun s None []) = (o, r)
        /\ send_prompt py_repr json_dumps env prompt_text s
           = (match o with
              | Ok (Some a) => Returned a
              | Ok None => AllProvidersFailed (last_exc r)
              | Raise e => Escaped e
              end,
              sys r, trace r)).
Proof.
  unfold send_prompt. destruct (providers s) as [|p ps] eqn:Hp; [now left|].
  destruct (enabled_refs (p :: ps)) as [|i refs] eqn:He; [right; left; now split|].
  right; right.
  destruct (dispatch py_repr json_dumps env (build_context (current_session s) prompt_text)
              prompt_text (selection_order (preferred_provider_type s) (p :: ps))
              (mkRun s None [])) as [o r] eqn:Hd.
  exists o, r. split; [reflexivity|]. destruct o as [[a|]|e]; reflexivity.
Qed.

(** The cooldown of a provider is active at the time [now]: its
    [_disabled_until] is set and [now] is strictly before it. *)
Definition cooldown_active (p : Provider) (now : Q) : Prop :=
  exists d, _disabled_until p = Some d /\ (now < d)%Q.

(** A submission that runs alone. A provider is called only after line 271
    has let it pass: it has no timestamp (or the zero one), or a reading of
    the clock taken in this submission before the call had reached the
    timestamp. With a clock that does not run backwards (and does not start
    before the epoch) its cooldown is therefore not active at the last
    reading before the call nor at any later one. A provider is skipped only
    at a reading at which its cooldown is active. Once a cooldown is written
    in a submission, the provider is not called again in it. And an enabled
    provider whose timestamp has elapsed is called (unless an earlier
    provider has answered, or the exception of line 296 has ended the
    submission) with the timestamp still in place: nothing has to reset
    it. *)
Lemma alone_respects_cooldown (py_repr json_dumps : json -> text) (env : Env)
  (prompt_text : text) (s : Sys) :
  let '(outcome, s', events) := send_prompt py_repr json_dumps env prompt_text s in
  (forall i k n, In (Try i k n) events ->
     exists p, deref (providers s) i = Some p
               /\ forall d, _disabled_until p = Some d -> ~ (d == 0)%Q ->
                    exists m, (clock_reads s <= m < n)%nat /\ (d <= time_at env m)%Q)
  /\ ((forall n, (0 <= time_at env n)%Q) ->
      (forall n m, (n <= m)%nat -> (time_at env n <= time_at env m)%Q) ->
      forall i k n, In (Try i k n) events ->
        exists p, deref (providers s) i = Some p
                  /\ forall m, (n <= S m)%nat -> ~ cooldown_active p (time_at env m))
  /\ (forall i now, In (Skip i now) events ->
        exists p m, deref (providers s) i = Some p
                    /\ (clock_reads s <= m)%nat /\ now = time_at env m
                    /\ cooldown_active p now)
  /\ (forall pre post i now secs,
        events = pre ++ Disabled i now secs :: post ->
        forall k n, ~ In (Try i k n) post)
  /\ (forall i p d,
        deref (providers s) i = Some p -> get_enabled p = true ->
        _disabled_until p = Some d ->
        (forall m, (clock_reads s <= m)%nat -> (d <= time_at env m)%Q) ->
        (exists a, outcome = Returned a) \/ (exists e, outcome = Escaped e)
        \/ (exists n, In (Try i 1 n) events)).
Proof.
  destruct (send_prompt_cases py_repr json_dumps env prompt_text s)
    as [[-> Hp] | [[-> He] | (o & r & Hd & ->)]].
  - repeat split; try (intros; contradiction).
    + intros pre post i now secs E. now destruct pre.
    + intros i p d Hi. unfold deref in Hi. rewrite Hp in Hi. now destruct i.
  - repeat split; try (intros; contradiction).
    + intros pre post i now secs E. now destruct pre.
    + intros i p d Hi Hen. pose proof (enabled_refs_In _ _ _ Hi Hen) as Hin.
      rewrite He in Hin. contradiction.
  - apply dispatch_run in Hd as (_ & _ & (new & Ht & Hnew & Hvis & Hnc) & _);
      [|apply selection_order_NoDup].
    cbn [sys trace providers clock_reads app] in Ht, Hnew, Hvis. rewrite Ht.
    rewrite Forall_forall in Hnew.
    assert (Hskip : forall i now, In (Skip i now) new ->
              exists p m, deref (providers s) i = Some p
                          /\ (clock_reads s <= m)%nat /\ now = time_at env m
                          /\ cooldown_active p now).
    { intros i now Hin. apply Hnew in Hin. cbn in Hin.
      destruct Hin as (_ & p & d & m & H1 & H2 & H3 & H4 & H5).
      exists p, m. repeat split; try assumption. now exists d. }
    assert (Htry : forall i k n, In (Try i k n) new ->
              exists p, deref (providers s) i = Some p
                        /\ forall d, _disabled_until p = Some d -> ~ (d == 0)%Q ->
                             exists m, (clock_reads s <= m < n)%nat
                                       /\ (d <= time_at env m)%Q).
    { intros i k n Hin. apply Hnew in Hin. cbn in Hin.
      destruct Hin as (_ & p & H1 & H2 & H3). now exists p. }
    split; [exact Htry|]. split; [|split; [exact Hskip|split]].
    + intros Hpos Hmono i k n Hin. destruct (Htry i k n Hin) as (p & H1 & H3).
      exists p. split; [exact H1|].
      intros m Hm (d & Hd & Hlt).
      destruct (Qeq_dec d 0) as [Hz | Hnz].
      * rewrite Hz in Hlt. apply (Qlt_not_le _ _ Hlt), Hpos.
      * destruct (H3 d Hd Hnz) as (m0 & Hm0 & Hle).
        apply (Qlt_not_le _ _ Hlt). apply (Qle_trans _ _ _ Hle). apply Hmono. lia.
    + intros pre post i now secs E. now apply (no_call_after_split new pre post i now secs).
    + intros i p d Hi Hen Hdu Hel.
      destruct o as [[a|]|e]; [left; now exists a | | right; left; now exists e].
      right; right.
      assert (Hin : In i (selection_order (preferred_provider_type s) (providers s))).
      { apply selection_order_In. now apply (enabled_refs_In _ _ p). }
      destruct (Hvis eq_refl i p Hin Hi) as [(now & Hs) | Ht1]; [|exact Ht1].
      exfalso. destruct (Hskip i now Hs) as (p' & m & Hp' & Hm & -> & (d' & Hd' & Hlt)).
      rewrite Hi in Hp'. injection Hp' as <-. rewrite Hdu in Hd'. injection Hd' as <-.
      apply (Qlt_not_le _ _ Hlt). now apply Hel.
Qed.

Definition p1 : Provider := provider "P1" 1 "openrouter".
Definition p2 : Provider := provider "P2" 2 "openrouter".

Definition answer (content : string) : NetOutcome :=
  Replied (mkReply 200 (str "{...}")
             (Some (JObj [(str "choices",
                JArr [JObj [(str "message", JObj [(str "role", JStr (str "assistant"));
                                                  (str "content", JStr (str content))])]])]))).

(** P1 is cooling down until 1700000030; the clock is at 1700000000 and
    gives one second more at each reading. *)
Definition p1_cooling : Sys :=
  mkSys [set_disabled_until (inject_Z 1700000030) p1; p2] (Some fresh_session)
        (str "openrouter") 0 0 0.

Lemma seconds_clock (base : Z) :
  0 <= base ->
  (forall n, (0 <= inject_Z (base + Z.of_nat n))%Q)
  /\ (forall n m, (n <= m)%nat ->
                  (inject_Z (base + Z.of_nat n) <= inject_Z (base + Z.of_nat m))%Q).
Proof.
  intro Hb. split.
  - intro n. change 0%Q with (inject_Z 0). rewrite <- Zle_Qle. lia.
  - intros n m Hnm. rewrite <- Zle_Qle. lia.
Qed.

Example alone_respects_cooldown_example :
  let '(outcome, s', events) :=
    send_prompt sample_repr sample_dumps (always (answer "hi") true) (str "q") p1_cooling in
  tries events = [(1, 1)]%nat
  /\ forall i k n, In (Try i k n) events ->
       exists p, deref (providers p1_cooling) i = Some p
                 /\ forall m, (n <= S m)%nat ->
                      ~ cooldown_active p (time_at (always (answer "hi") true) m).
Proof.
  pose proof (alone_respects_cooldown sample_repr sample_dumps
                (always (answer "hi") true) (str "q") p1_cooling) as H.
  destruct (send_prompt sample_repr sample_dumps (always (answer "hi") true) (str "q")
              p1_cooling) as [[outcome s'] events] eqn:E.
  split; [vm_compute in E; injection E as _ _ <-; reflexivity|].
  destruct H as (_ & H & _).
  apply H; apply (seconds_clock 1700000000); lia.
Qed.

(** The scenario of the specification: P1 answers 429 with a delay of 30
    seconds and P2 serves the request; a second submission, three seconds
    later, skips P1; a third one, after the 30 seconds, calls P1 again, and
    the timestamp was never cleared. *)
Definition scenario_env : Env :=
  mkEnv (fun n => inject_Z (if (n <? 7)%nat then 1700000000 + Z.of_nat n
                            else 1700000100 + Z.of_nat n))
        (fun n => match n with O => too_many_requests "30s" | _ => answer "ok" end)
        (fun _ => true).

Example cooldown_scenario :
  let '(o1, s1, e1) :=
    send_prompt sample_repr sample_dumps scenario_env (str "one") (sys (start [p1; p2])) in
  let '(o2, s2, e2) := send_prompt sample_repr sample_dumps scenario_env (str "two") s1 in
  let '(o3, s3, e3) := send_prompt sample_repr sample_dumps scenario_env (str "three") s2 in
  tries e1 = [(0, 1); (1, 1)]%nat
  /\ map _disabled_until (providers s1)
     = [Some (float_add (inject_Z 1700000000) (inject_Z 30)); None]
  /\ tries e2 = [(1, 1)]%nat
  /\ map _disabled_until (providers s2) = map _disabled_until (providers s1)
  /\ tries e3 = [(0, 1)]%nat
  /\ map _disabled_until (providers s3) = map _disabled_until (providers s1).
Proof. vm_compute. repeat split. Qed.

(** *** Submissions in flight together *)

Lemma run_alone_bind {A B : Type} (c : Co A) (f : A -> Run -> Co B) :
  run_alone (bind_co c f) = let '(a, r) := run_alone c in run_alone (f a r).
Proof.
  induction c as [a r | r k IH]; cbn [bind_co run_alone]; [reflexivity | apply IH].
Qed.

Section AloneFacts.

Variable py_repr : json -> text.
Variable json_dumps : json -> text.
Variable env : Env.
Variable context : list (text * json).
Variable prompt_text : text.

(** [call_provider] is its part before the wait, the round trip, and the
    reading of the reply. *)
Lemma call_provider_split (prov : Provider) (r : Run) :
  call_provider py_repr json_dumps env prov context prompt_text r
  = match call_request prov context prompt_text with
    | Raise e => (Raise e, r)
    | Ok req =>
        let '(rep, r1) := post env req r in
        (do rep <- rep;
         read_reply py_repr (content_of py_repr json_dumps prov) (prov_id prov) rep, r1)
    end.
Proof.
  unfold call_provider, call_request, content_of.
  destruct (is_gemini prov); [|reflexivity].
  destruct (base_url prov) as [b|]; [|reflexivity].
  destruct (model prov) as [[|c m]|]; reflexivity.
Qed.

Lemma one_attempt_co_alone (i : nat) (prov : Provider) (k : nat) (r : Run) :
  run_alone (one_attempt_co py_repr json_dumps env i prov context prompt_text k r)
  = one_attempt py_repr json_dumps env i prov context prompt_text k r.
Proof.
  unfold one_attempt_co, one_attempt. rewrite call_provider_split.
  destruct (call_request prov context prompt_text) as [req|e]; [|reflexivity].
  unfold post. cbn [run_alone bind].
  destruct (post_at env _) as [|rep]; cbn [bind]; [reflexivity|].
  destruct (read_reply _ _ _ rep) as [cr|e]; [|reflexivity].
  destruct (record_answer _ _ _ _ _ _) as [done r1]. reflexivity.
Qed.

Lemma attempts_co_alone (i : nat) (prov : Provider) (todo : list nat) :
  forall r : Run,
    run_alone (attempts_co py_repr json_dumps env i prov context prompt_text todo r)
    = attempts py_repr json_dumps env i prov context prompt_text todo r.
Proof.
  induction todo as [|k rest IH]; intro r; [reflexivity|].
  cbn [attempts_co attempts]. rewrite run_alone_bind, one_attempt_co_alone.
  destruct (one_attempt _ _ _ _ _ _ _ _ r) as [[a|e] r1]; [reflexivity|].
  destruct (rate_limit_of e) as [secs|].
  - destruct (rate_limited env i secs (caught e r1)) as [w r2]. reflexivity.
  - cbn [run_alone]. apply IH.
Qed.

Lemma dispatch_co_alone (refs : list nat) :
  forall r : Run,
    run_alone (dispatch_co py_repr json_dumps env context prompt_text refs r)
    = dispatch py_repr json_dumps env context prompt_text refs r.
Proof.
  induction refs as [|i rest IH]; intro r; [reflexivity|].
  cbn [dispatch_co dispatch].
  destruct (deref (providers (sys r)) i) as [prov|]; [|apply IH].
  destruct (check_cooldown env prov r) as [[now|now] rc].
  - unfold read_clock. apply IH.
  - rewrite run_alone_bind, attempts_co_alone.
    destruct (attempts _ _ _ _ _ _ _ _ _) as [[[a|]|e] r1]; [reflexivity | apply IH | reflexivity].
Qed.

End AloneFacts.

(** A submission that nothing interrupts is [send_prompt]. *)
Lemma send_prompt_co_alone (py_repr json_dumps : json -> text) (env : Env)
  (prompt_text : text) (s : Sys) :
  (let '(outcome, r) :=
     run_alone (send_prompt_co py_repr json_dumps env prompt_text (mkRun s None [])) in
   (outcome, sys r, trace r))
  = send_prompt py_repr json_dumps env prompt_text s.
Proof.
  unfold send_prompt_co, send_prompt. cbn [sys].
  destruct (providers s) as [|p ps]; [reflexivity|].
  destruct (enabled_refs (p :: ps)) as [|i refs]; [reflexivity|].
  rewrite run_alone_bind, dispatch_co_alone.
  destruct (dispatch _ _ _ _ _ _ _) as [[[a|]|e] r]; reflexivity.
Qed.

(** The number of waits of a task that nothing interrupts. *)
Fixpoint waits {A : Type} (c : Co A) : nat :=
  match c with
  | Finished _ _ => 0
  | Await r k => S (waits (k r))
  end.

(** What the tasks have returned. *)
Definition outcomes {A : Type} (p : Pool A) : list (option A) :=
  map (fun c => match c with Finished a _ => Some a | Await _ _ => None end) (tasks p).

(** With a single task the event loop does what the task does alone. *)
Lemma interleave_single {A : Type} (c : Co A) :
  forall p : Pool A,
    tasks p = [c] -> shared p = sys (state_of c) ->
    let p' := interleave (repeat 0%nat (waits c)) p in
    tasks p' = [Finished (fst (run_alone c)) (snd (run_alone c))]
    /\ shared p' = sys (snd (run_alone c)).
Proof.
  induction c as [a r | r k IH]; intros p Ht Hs.
  - cbn. now split.
  - cbn [waits repeat interleave fold_left run_alone].
    assert (E : resume 0 p
                = mkPool (sys (state_of (k r))) [k r]
                         (log p ++ map (pair 0%nat)
                                       (skipn (len (trace r)) (trace (state_of (k r)))))).
    { unfold resume. rewrite Ht. cbn [nth_error update_nth]. rewrite Hs. cbn [state_of].
      now destruct r. }
    rewrite E. now apply IH.
Qed.

(** A submission alone in the event loop is [send_prompt]. *)
Lemma submission_alone (py_repr json_dumps : json -> text) (env : Env)
  (prompt_text : text) (s : Sys) :
  exists (n : nat) (r : Run),
    let p := interleave (repeat 0%nat n)
                        (mkPool s [submit py_repr json_dumps env prompt_text] []) in
    let '(outcome, s', events) := send_prompt py_repr json_dumps env prompt_text s in
    tasks p = [Finished outcome r] /\ shared p = s' /\ sys r = s' /\ trace r = events.
Proof.
  set (c := send_prompt_co py_repr json_dumps env prompt_text (mkRun s None [])).
  exists (S (waits c)), (snd (run_alone c)).
  cbn [repeat interleave fold_left]. unfold resume, submit.
  cbn [tasks nth_error shared last_exc trace update_nth]. fold c.
  pose proof (send_prompt_co_alone py_repr json_dumps env prompt_text s) as H. fold c in H.
  destruct (interleave_single c
              (mkPool (sys (state_of c)) [c]
                 ([] ++ map (pair 0%nat) (skipn (len (@nil Event)) (trace (state_of c))))))
    as [H1 H2]; [reflexivity | reflexivity |].
  cbn zeta in H1, H2. unfold interleave in H1, H2.
  destruct (run_alone c) as [outcome r]. rewrite <- H. cbn [fst snd] in *.
  now repeat split.
Qed.

(** Two submissions and the single provider P1. The first request gets a
    503, the second one a 429 with a delay of 30 seconds, the third one an
    answer; the clock gives one second more at each reading. *)
Definition race_env : Env :=
  mkEnv (fun n => inject_Z (1700000000 + Z.of_nat n))
        (fun n => match n with
                  | O => unavailable
                  | 1%nat => too_many_requests "30s"
                  | _ => answer "ok"
                  end)
        (fun _ => true).

Definition two_submissions : Pool Outcome :=
  mkPool (sys (start [p1]))
         [submit sample_repr sample_dumps race_env (str "one");
          submit sample_repr sample_dumps race_env (str "two")] [].

(** The calls of a log: the task, the provider and the attempt. *)
Definition calls (l : list (nat * Event)) : list (nat * (nat * nat)) :=
  flat_map (fun x => map (pair (fst x)) (tries [snd x])) l.

(** C1, at the failing input: two submissions are in flight on the single
    provider P1, which has no cooldown. Each passes line 271 and posts its
    request. The first submission gets a 503 and sleeps before its second
    attempt; meanwhile the second submission gets a 429 with a delay of 30
    seconds and writes the cooldown of P1, until 1700000030. When the first
    submission wakes up, the cooldown of P1 is active (at the last reading of
    the clock, 1700000000, and at each of the next 29 ones), and the
    submission calls P1 all the same: the cooldown is tested once, before the
    attempts, and not again after the sleep. P1 answers that call, and the
    submission returns its answer. *)
Theorem waiting_submission_calls_cooling_provider :
  let before := interleave [0; 1; 0; 1]%nat two_submissions in
  let after := resume 0 before in
  (forall n m, (n <= m)%nat -> (time_at race_env n <= time_at race_env m)%Q)
  /\ map _disabled_until (providers (shared two_submissions)) = [None]
  /\ calls (log before) = [(0, (0, 1)); (1, (0, 1))]%nat
  /\ last (log before) (0%nat, Sleep 0) = (1%nat, Disabled 0 (time_at race_env 0) 30)
  /\ clock_reads (shared before) = 1%nat
  /\ (exists p, deref (providers (shared before)) 0 = Some p
                /\ forall m, (m < 30)%nat -> cooldown_active p (time_at race_env m))
  /\ (exists req, log after = log before ++ [(0%nat, Try 0 2 1); (0%nat, Sent req)])
  /\ posts (shared after) = S (posts (shared before))
  /\ providers (shared after) = providers (shared before)
  /\ outcomes (resume 0 after)
     = [Some (Returned (mkAnswer (Some (str "P1"))
                 (JObj [(str "choices",
                    JArr [JObj [(str "message",
                      JObj [(str "role", JStr (str "assistant"));
                            (str "content", JStr (str "ok"))])]])])
                 (JStr (str "ok"))));
        Some (AllProvidersFailed (Some (Exn (HttpStatus 429) (Some 30))))].
Proof.
  cbv zeta. split; [|split; [|split; [|split; [|split; [|split; [|split; [|split; [|split]]]]]]]].
  - intros n m Hnm. cbn [time_at race_env]. rewrite <- Zle_Qle. lia.
  - reflexivity.
  - vm_compute. reflexivity.
  - vm_compute. reflexivity.
  - vm_compute. reflexivity.
  - eexists. split; [vm_compute; reflexivity|].
    intros m Hm. eexists. split; [reflexivity|].
    cbn [time_at race_env]. unfold Qlt. cbn [Qnum Qden inject_Z]. lia.
  - eexists. vm_compute. reflexivity.
  - vm_compute. reflexivity.
  - vm_compute. reflexivity.
  - vm_compute. reflexivity.
Qed.

(** *** The history *)

(** As long as the session file can be written, a submission that returns
    has appended the user message and then the assistant message, tagged
    with the provider that answered, and a submission that raises has left
    the session as it was. *)
Lemma send_prompt_history (py_repr json_dumps : json -> text) (env : Env)
  (prompt_text : text) (s : Sys) :
  saves_succeed env ->
  let '(outcome, s', events) := send_prompt py_repr json_dumps env prompt_text s in
  match outcome with
  | Returned a =>
      exists cs t1 t2,
        current_session s = Some cs
        /\ current_session s'
           = Some (with_turn cs prompt_text (answer_text a) (answer_provider a) t1 t2)
  | _ => current_session s' = current_session s
  end.
Proof.
  intro Hsave.
  destruct (send_prompt_cases py_repr json_dumps env prompt_text s)
    as [[-> _] | [[-> _] | (o & r & Hd & ->)]]; try reflexivity.
  apply dispatch_run in Hd as (_ & _ & _ & Hs); [|apply selection_order_NoDup].
  specialize (Hs Hsave). cbn [sys current_session] in Hs.
  destruct o as [[a|]|e]; try exact Hs.
  destruct Hs as (cs & t1 & t2 & H1 & H2 & _). now exists cs, t1, t2.
Qed.

(** C4, at the failing input: the provider answers, the two messages are
    appended, then the write of the session file raises ([save_session] is
    inside the [try]); the handler takes it for a failed attempt, the second
    attempt does the same, and the submission ends with "All providers
    failed" while the history has four more messages. *)
Theorem failed_save_changes_history :
  let '(outcome, s', events) :=
    send_prompt sample_repr sample_dumps (always (answer "hi") false) (str "q")
                (sys (start [chat_provider])) in
  outcome = AllProvidersFailed (Some (plain OSError))
  /\ option_map messages (current_session (sys (start [chat_provider]))) = Some []
  /\ option_map (fun c => map role (messages c)) (current_session s')
     = Some [str "user"; str "assistant"; str "user"; str "assistant"]
  /\ tries events = [(0, 1); (0, 2)]%nat.
Proof. vm_compute. repeat split. Qed.

(* ================================================================== *)
(** * Further properties *)
(* ================================================================== *)

(** ** Text *)

Lemma rstrip_by_snoc (f : ascii -> bool) (s : text) (c : ascii) :
  rstrip_by f (s ++ [c]) = if f c then rstrip_by f s else s ++ [c].
Proof.
  induction s as [|x s IH]; [reflexivity|].
  cbn [app rstrip_by]. rewrite IH. destruct (f c); [reflexivity|].
  destruct s; reflexivity.
Qed.

Lemma rstrip_by_fixed (f : ascii -> bool) (s : text) :
  (forall r c, s = r ++ [c] -> f c = false) -> rstrip_by f s = s.
Proof.
  induction s as [|x s0 _] using rev_ind; [reflexivity|]. intro H.
  now rewrite rstrip_by_snoc, (H s0 x eq_refl).
Qed.

Lemma rstrip_by_idem (f : ascii -> bool) (s : text) :
  rstrip_by f (rstrip_by f s) = rstrip_by f s.
Proof. apply rstrip_by_fixed. intros r c. apply rstrip_by_last. Qed.

Lemma rstrip_by_app_keep (f : ascii -> bool) (s t : text) (c : ascii) :
  f c = false -> rstrip_by f (s ++ t ++ [c]) = s ++ t ++ [c].
Proof. intro H. now rewrite app_assoc, rstrip_by_snoc, H. Qed.

Lemma contains_here (p s : text) : startswith p s = true -> contains p s = true.
Proof. intro H. destruct s; cbn [contains]; now rewrite H. Qed.

Lemma contains_app_r (p a s : text) :
  contains p s = true -> contains p (a ++ s) = true.
Proof.
  intro H. induction a as [|x a IH]; [exact H|].
  cbn [app contains]. rewrite IH. apply orb_true_r.
Qed.

Lemma contains_app_l (p s b : text) :
  contains p s = true -> contains p (s ++ b) = true.
Proof.
  induction s as [|x s IH]; cbn [contains app]; intro H.
  - rewrite orb_false_r in H. apply contains_here.
    now apply (startswith_app_l p [] b).
  - apply orb_true_iff in H as [H | H].
    + apply (startswith_app_l p (x :: s) b) in H. cbn [app] in H. now rewrite H.
    + rewrite (IH H). apply orb_true_r.
Qed.

Lemma endswith_snoc (x c : ascii) (r : text) : endswith [x] (r ++ [c]) = ascii_eqb x c.
Proof.
  unfold endswith. rewrite rev_app_distr. cbn [rev app startswith].
  apply andb_true_r.
Qed.

Lemma endswith_app (p a : text) : endswith p (a ++ p) = true.
Proof. unfold endswith. rewrite rev_app_distr. apply startswith_app. Qed.

(** ** provider_endpoint *)

(** [p] with another ["base_url"]. *)
Definition with_base_url (u : option text) (p : Provider) : Provider :=
  mkProvider (prov_id p) (prov_name p) (prov_type p) u (model p) (api_key p)
             (max_tokens p) (priority p) (enabled p) (_disabled_until p).

Definition SLASH : ascii := "/"%char.

Definition CHAT_PATH : text := str "/v1/chat/completions".

Definition OPENROUTER : text := str "https://openrouter.ai".

(** The base that [provider_endpoint] works on: the given one without its
    trailing slashes, or OpenRouter's. *)
Definition endpoint_base (p : Provider) : text :=
  let base := rstrip_by (ascii_eqb SLASH) (or_text (base_url p) []) in
  match base with
  | [] => OPENROUTER
  | _ => base
  end.

Definition looks_complete (base : text) : bool :=
  contains (str "/v1") base || contains (str "/v1beta") base
  || endswith (str "/chat/completions") base.

Lemma provider_endpoint_eq (p : Provider) :
  provider_endpoint p
  = if looks_complete (endpoint_base p) then endpoint_base p
    else endpoint_base p ++ CHAT_PATH.
Proof. reflexivity. Qed.

Lemma or_text_some (s : text) : or_text (Some s) [] = s.
Proof. destruct s; reflexivity. Qed.

Lemma endpoint_base_no_slash (p : Provider) :
  endswith [SLASH] (endpoint_base p) = false.
Proof.
  unfold endpoint_base.
  destruct (rstrip_by (ascii_eqb SLASH) (or_text (base_url p) [])) as [|x b] eqn:E;
    [reflexivity|].
  destruct (exists_last (l := x :: b)) as (r & c & Eb); [discriminate|].
  rewrite Eb in *. rewrite endswith_snoc. apply (rstrip_by_last _ _ _ _ E).
Qed.

Lemma endpoint_base_fixed (p : Provider) :
  rstrip_by (ascii_eqb SLASH) (endpoint_base p) = endpoint_base p.
Proof.
  unfold endpoint_base.
  destruct (rstrip_by (ascii_eqb SLASH) (or_text (base_url p) [])) as [|x b] eqn:E;
    [reflexivity|].
  rewrite <- E. apply rstrip_by_idem.
Qed.

Lemma endpoint_base_nonempty (p : Provider) : endpoint_base p <> [].
Proof.
  unfold endpoint_base.
  destruct (rstrip_by (ascii_eqb SLASH) (or_text (base_url p) [])); discriminate.
Qed.

Lemma endpoint_base_of_fixed (p : Provider) (u : text) :
  u <> [] -> rstrip_by (ascii_eqb SLASH) u = u ->
  endpoint_base (with_base_url (Some u) p) = u.
Proof.
  intros Hne Hfix. unfold endpoint_base, with_base_url. cbn [base_url].
  rewrite or_text_some, Hfix. destruct u; [congruence | reflexivity].
Qed.

(** X1. The endpoint of a chat provider is never empty and never ends with
    a slash; it contains [/v1] or ends with [/chat/completions]. A base URL
    that is missing, empty or made of slashes only gives OpenRouter's
    endpoint, and trailing slashes of the base URL do not count. *)
Theorem provider_endpoint_shape (p : Provider) :
  provider_endpoint p <> []
  /\ endswith (str "/") (provider_endpoint p) = false
  /\ (contains (str "/v1") (provider_endpoint p) = true
      \/ endswith (str "/chat/completions") (provider_endpoint p) = true)
  /\ (rstrip_by (ascii_eqb "/") (or_text (base_url p) []) = [] ->
      provider_endpoint p = str "https://openrouter.ai/v1/chat/completions")
  /\ (forall b, base_url p = Some b ->
      provider_endpoint (with_base_url (Some (b ++ str "/")) p) = provider_endpoint p).
Proof.
  rewrite provider_endpoint_eq. split; [|split; [|split; [|split]]].
  - pose proof (endpoint_base_nonempty p) as H.
    destruct (looks_complete (endpoint_base p)); [exact H|].
    destruct (endpoint_base p); [congruence | discriminate].
  - destruct (looks_complete (endpoint_base p)); [apply endpoint_base_no_slash|].
    unfold CHAT_PATH.
    change (str "/v1/chat/completions") with (str "/v1/chat/completion" ++ ["s"%char]).
    rewrite app_assoc. apply endswith_snoc.
  - destruct (looks_complete (endpoint_base p)) eqn:E.
    + unfold looks_complete in E. apply orb_true_iff in E as [E | E]; [|now right].
      apply orb_true_iff in E as [E | E]; [now left|]. left.
      clear -E. induction (endpoint_base p) as [|x s IH]; [discriminate|].
      cbn [contains] in *. apply orb_true_iff in E as [E | E].
      * replace (startswith (str "/v1") (x :: s)) with true; [reflexivity|].
        symmetry. cbn [str list_ascii_of_string startswith] in *.
        destruct s as [|y [|z s]]; try (rewrite ?andb_false_r in E; discriminate).
        apply andb_true_iff in E as [E1 E]. apply andb_true_iff in E as [E2 E].
        apply andb_true_iff in E as [E3 _]. now rewrite E1, E2, E3.
      * rewrite (IH E). apply orb_true_r.
    + left. apply contains_app_r. reflexivity.
  - intro H. unfold endpoint_base. change SLASH with "/"%char. rewrite H. reflexivity.
  - intros b Hb. rewrite provider_endpoint_eq.
    replace (endpoint_base (with_base_url (Some (b ++ str "/")) p)) with (endpoint_base p);
      [reflexivity|].
    unfold endpoint_base, with_base_url. cbn [base_url]. rewrite Hb, !or_text_some.
    change (str "/") with [SLASH]. now rewrite rstrip_by_snoc, ascii_eqb_refl.
Qed.

(** X2. [provider_endpoint] is idempotent: an endpoint that it has built,
    written back as the base URL, is used as it is. *)
Theorem provider_endpoint_idempotent (p : Provider) :
  provider_endpoint (with_base_url (Some (provider_endpoint p)) p) = provider_endpoint p.
Proof.
  rewrite (provider_endpoint_eq (with_base_url _ p)).
  rewrite (provider_endpoint_eq p).
  destruct (looks_complete (endpoint_base p)) eqn:E.
  - rewrite endpoint_base_of_fixed;
      [now rewrite E | apply endpoint_base_nonempty | apply endpoint_base_fixed].
  - assert (Hfix : rstrip_by (ascii_eqb SLASH) (endpoint_base p ++ CHAT_PATH)
                   = endpoint_base p ++ CHAT_PATH).
    { unfold CHAT_PATH.
      change (str "/v1/chat/completions") with (str "/v1/chat/completion" ++ ["s"%char]).
      now apply rstrip_by_app_keep. }
    rewrite endpoint_base_of_fixed; [|destruct (endpoint_base p); discriminate | exact Hfix].
    unfold looks_complete.
    replace (contains (str "/v1") (endpoint_base p ++ CHAT_PATH)) with true; [reflexivity|].
    symmetry. apply contains_app_r. reflexivity.
Qed.

(** ** parse_retry_delay_seconds: the sign of the result *)

Lemma match_seconds_digits (s g : text) :
  match_seconds s = Some g -> forallb is_digit g = true.
Proof.
  unfold match_seconds. intro H.
  assert (E : g = takewhile is_digit s).
  { destruct (takewhile is_digit s) as [|d ds]; [discriminate|].
    destruct (dropwhile is_digit s) as [|c r1]; [discriminate|].
    destruct (ascii_eqb c "s").
    - destruct (at_dollar r1); [now injection H | discriminate].
    - destruct (ascii_eqb c "."); [|discriminate].
      destruct (takewhile is_digit r1); [discriminate|].
      destruct (dropwhile is_digit r1) as [|c2 r2]; [discriminate|].
      destruct (ascii_eqb c2 "s" && at_dollar r2); [now injection H | discriminate]. }
  subst g. apply takewhile_forallb.
Qed.

Lemma iso_component_nonneg (letter : ascii) (s r : text) (g : option text) :
  iso_component letter s = (g, r) -> 0 <= value_of g.
Proof.
  unfold iso_component. intro H.
  destruct (takewhile is_digit s) as [|d ds] eqn:E;
    [injection H as <- _; cbn; lia|].
  destruct (dropwhile is_digit s) as [|c r']; [injection H as <- _; cbn; lia|].
  destruct (ascii_eqb c letter); injection H as <- _; [|cbn; lia].
  cbn [value_of]. apply decimal_value_nonneg. rewrite <- E. apply takewhile_forallb.
Qed.

Lemma match_iso_nonneg (s : text) (h m sec : option text) :
  match_iso s = Some (h, m, sec) ->
  0 <= value_of h /\ 0 <= value_of m /\ 0 <= value_of sec.
Proof.
  unfold match_iso. destruct s as [|p [|t r0]]; try discriminate.
  destruct (ascii_eqb p "P" && ascii_eqb t "T"); [|discriminate].
  destruct (iso_component "H" r0) as [h' r1] eqn:E1.
  destruct (iso_component "M" r1) as [m' r2] eqn:E2.
  destruct (iso_component "S" r2) as [s' r3] eqn:E3.
  destruct (at_dollar r3); [|discriminate]. intro H. injection H as <- <- <-.
  apply iso_component_nonneg in E1, E2, E3. now repeat split.
Qed.

Lemma int_of_float_nonneg (n v : Z) : 0 <= n -> int_of_float n = Ok v -> 0 <= v.
Proof.
  intro Hn. unfold int_of_float.
  destruct (Z.log2 n + 1 <=? 53); [intro H; injection H as <-; exact Hn|].
  set (sh := Z.log2 n + 1 - 53). set (q := Z.shiftr n sh).
  assert (Hq : 0 <= q) by (apply Z.shiftr_nonneg; exact Hn).
  match goal with |- context [Z.shiftl ?x sh] => set (q' := x) end.
  assert (Hq' : 0 <= q').
  { unfold q'. destruct (_ || _); lia. }
  destruct (Z.shiftl 1 1024 <=? Z.shiftl q' sh); [discriminate|].
  intro H. injection H as <-. now apply Z.shiftl_nonneg.
Qed.

Lemma scan_details_nonneg (py_repr : json -> text) (ds : list json) (n : Z) :
  scan_details py_repr ds = Ok (Some n) -> 0 <= n.
Proof.
  induction ds as [|d ds IH]; [discriminate|]. cbn [scan_details].
  destruct (get d (str "@type") (JStr [])) as [ty|e]; cbn [bind]; [|discriminate].
  destruct (py_in (str "RetryInfo") ty) as [b|e]; cbn [bind]; [|discriminate].
  destruct b; [|exact IH].
  destruct (get d (str "retryDelay") JNull) as [rd|e]; cbn [bind]; [|discriminate].
  destruct (truthy rd); [|exact IH].
  destruct (match_seconds (strip (py_str py_repr rd))) as [g1|] eqn:Em.
  - destruct (int_of_float (decimal_value g1)) as [v|e] eqn:Ef; cbn [bind]; [|discriminate].
    intro H. injection H as <-.
    apply (int_of_float_nonneg (decimal_value g1)); [|exact Ef].
    apply decimal_value_nonneg. now apply (match_seconds_digits _ _ Em).
  - destruct (match_iso (strip (py_str py_repr rd))) as [[[h m] sec]|] eqn:Ei; [|exact IH].
    apply match_iso_nonneg in Ei as (Hh & Hm & Hs). rewrite !int_or_0_eq.
    destruct (within_limit h); cbn [bind]; [|discriminate].
    destruct (within_limit m); cbn [bind]; [|discriminate].
    destruct (within_limit sec); cbn [bind]; [|discriminate].
    intro H. injection H as <-. lia.
Qed.

Lemma retry_delay_nonneg (py_repr : json -> text) (error_json : json) :
  0 <= parse_retry_delay_seconds py_repr error_json.
Proof.
  unfold parse_retry_delay_seconds, parse_retry_delay_body.
  destruct (get error_json (str "error") (JObj [])) as [err|e]; cbn [bind]; [|lia].
  destruct (get err (str "details") (JArr [])) as [details|e]; cbn [bind]; [|lia].
  destruct (py_iter details) as [ds|e]; cbn [bind]; [|lia].
  destruct (scan_details py_repr ds) as [[n|]|e] eqn:E; try lia.
  now apply (scan_details_nonneg py_repr ds).
Qed.

(** X3. [parse_retry_delay_seconds] never returns a negative number of
    seconds, whatever the payload is. *)
Theorem parse_retry_delay_seconds_nonneg (py_repr : json -> text) (error_json : json) :
  0 <= parse_retry_delay_seconds py_repr error_json.
Proof. apply retry_delay_nonneg. Qed.

(** ** The exceptions of the adapters *)

(** The exceptions that reading a decoded body can raise: one of the four
    errors of a value of the wrong shape, without [retry_seconds]. *)
Definition shape_error (e : PyExn) : Prop :=
  retry_seconds e = None
  /\ (kind e = AttributeError \/ kind e = TypeError \/ kind e = KeyError
      \/ kind e = IndexError).

Definition raises {A : Type} (P : PyExn -> Prop) (m : res A) : Prop :=
  match m with
  | Ok _ => True
  | Raise e => P e
  end.

Lemma raises_bind {A B : Type} (P : PyExn -> Prop) (m : res A) (k : A -> res B) :
  raises P m -> (forall a, raises P (k a)) -> raises P (bind m k).
Proof. destruct m as [a|e]; cbn; [intros _ H; apply H | tauto]. Qed.

Lemma shape_error_plain (k : ExnKind) :
  k = AttributeError \/ k = TypeError \/ k = KeyError \/ k = IndexError ->
  shape_error (plain k).
Proof. intro H. split; [reflexivity | exact H]. Qed.

Lemma get_raises (v : json) (k : text) (d : json) : raises shape_error (get v k d).
Proof. destruct v; cbn; try exact I; apply shape_error_plain; tauto. Qed.

Lemma py_in_raises (k : text) (v : json) : raises shape_error (py_in k v).
Proof. destruct v; cbn; try exact I; apply shape_error_plain; tauto. Qed.

Lemma getitem_raises (v : json) (k : text) : raises shape_error (getitem v k).
Proof.
  destruct v; cbn; try (apply shape_error_plain; tauto).
  destruct (assoc k items); cbn; [exact I | apply shape_error_plain; tauto].
Qed.

Lemma first_item_raises (v : json) : raises shape_error (first_item v).
Proof.
  destruct v as [| | | |[|c s]|[|x l]|items]; cbn; try exact I;
    apply shape_error_plain; tauto.
Qed.

Lemma gemini_pieces_raises (out : list json) : raises shape_error (gemini_pieces out).
Proof.
  induction out as [|o out IH]; [exact I|]. cbn [gemini_pieces fold_right].
  apply raises_bind; [exact IH|]. intro ps.
  destruct o; exact I.
Qed.

Lemma join_pieces_raises (ps : list json) : raises shape_error (join_pieces ps).
Proof.
  induction ps as [|p ps IH]; [exact I|]. cbn [join_pieces].
  destruct p; try (apply shape_error_plain; tauto).
  apply raises_bind; [exact IH|]. intro r. exact I.
Qed.

Ltac shape_step :=
  first
    [ exact I
    | apply get_raises | apply py_in_raises | apply getitem_raises
    | apply first_item_raises | apply gemini_pieces_raises | apply join_pieces_raises
    | apply raises_bind; [|intro]
    | match goal with
      | |- raises _ (if ?b then _ else _) => destruct b
      | |- raises _ (match ?x with _ => _ end) => destruct x
      end ].

Lemma gemini_content_raises (py_repr json_dumps : json -> text) (data : json) :
  raises shape_error (gemini_content py_repr json_dumps data).
Proof. unfold gemini_content. repeat shape_step. Qed.

Lemma chat_content_raises (json_dumps : json -> text) (data : json) :
  raises shape_error (chat_content json_dumps data).
Proof. unfold chat_content. repeat shape_step. Qed.

Section CallFacts.

Variable py_repr : json -> text.
Variable json_dumps : json -> text.
Variable env : Env.

Lemma content_of_raises (prov : Provider) (data : json) :
  raises shape_error (content_of py_repr json_dumps prov data).
Proof.
  unfold content_of. destruct (is_gemini prov);
    [apply gemini_content_raises | apply chat_content_raises].
Qed.

Lemma read_reply_ok (parse : json -> res json) (pid : option text) (rep : Reply)
  (cr : CallResult) :
  read_reply py_repr parse pid rep = Ok cr ->
  status rep = 200 /\ body_json rep = Some (raw cr)
  /\ parse (raw cr) = Ok (result_text cr) /\ ok cr = true /\ provider_id cr = pid.
Proof.
  unfold read_reply, reply_json. destruct (status rep =? 429); [discriminate|].
  destruct (status rep =? 200) eqn:E; cbn [negb]; [|discriminate].
  apply Z.eqb_eq in E. destruct (body_json rep) as [data|]; cbn [bind]; [|discriminate].
  destruct (parse data) as [content|e] eqn:Ep; cbn [bind]; [|discriminate].
  intro H. injection H as <-. cbn. now repeat split.
Qed.

(** The exception of a reply that gives no result. *)
Definition reply_error (parse : json -> res json) (rep : Reply) (e : PyExn) : Prop :=
  if status rep =? 429 then e = rate_limit_error py_repr rep
  else if status rep =? 200 then
    match body_json rep with
    | None => e = plain DecodeError
    | Some data => parse data = Raise e /\ shape_error e
    end
  else e = plain (HttpStatus (status rep)).

Lemma read_reply_raise (parse : json -> res json) (pid : option text) (rep : Reply)
  (e : PyExn) :
  (forall data, raises shape_error (parse data)) ->
  read_reply py_repr parse pid rep = Raise e -> reply_error parse rep e.
Proof.
  intro Hparse. unfold read_reply, reply_error, reply_json.
  destruct (status rep =? 429); [intro H; now injection H|].
  destruct (status rep =? 200); cbn [negb]; [|intro H; now injection H].
  destruct (body_json rep) as [data|]; cbn [bind]; [|intro H; now injection H].
  specialize (Hparse data).
  destruct (parse data) as [content|e'] eqn:Ep; cbn [bind]; [discriminate|].
  intro H. injection H as <-. now split.
Qed.

Lemma call_provider_reply (prov : Provider) (context : list (text * json))
  (prompt_text : text) (r r1 : Run) (called : res CallResult) :
  call_provider py_repr json_dumps env prov context prompt_text r = (called, r1) ->
  (r1 = r /\ is_gemini prov = true
   /\ ((base_url prov = None /\ called = Raise (plain AttributeError))
       \/ (base_url prov <> None /\ (model prov = None \/ model prov = Some [])
           /\ called = Raise (plain MissingModel))))
  \/ (posts (sys r1) = S (posts (sys r))
      /\ called = match post_at env (posts (sys r)) with
                  | NoReply => Raise (plain ClientError)
                  | Replied rep => read_reply py_repr (content_of py_repr json_dumps prov) (prov_id prov) rep
                  end).
Proof.
  unfold call_provider, content_of, post. destruct (is_gemini prov).
  - destruct (base_url prov) as [b|];
      [|intro H; injection H as <- <-; left; repeat split; now left].
    destruct (model prov) as [[|c m]|]; intro H; injection H as <- <-.
    + left. repeat split. right. repeat split; [discriminate | now right].
    + right. split; [reflexivity|]. destruct (post_at env (posts (sys r))); reflexivity.
    + left. repeat split. right. repeat split; [discriminate | now left].
  - intro H; injection H as <- <-. right. split; [reflexivity|].
    destruct (post_at env (posts (sys r))); reflexivity.
Qed.

End CallFacts.

Lemma call_provider_ok (py_repr json_dumps : json -> text) (env : Env)
  (prov : Provider) (context : list (text * json)) (prompt_text : text)
  (r r1 : Run) (cr : CallResult) :
  call_provider py_repr json_dumps env prov context prompt_text r = (Ok cr, r1) ->
  ok cr = true
  /\ provider_id cr = prov_id prov
  /\ posts (sys r1) = S (posts (sys r))
  /\ exists rep,
       post_at env (posts (sys r)) = Replied rep
       /\ status rep = 200
       /\ body_json rep = Some (raw cr)
       /\ content_of py_repr json_dumps prov (raw cr) = Ok (result_text cr).
Proof.
  intro H. apply call_provider_reply in H as [(_ & _ & [[_ H] | (_ & _ & H)]) | [Hp H]];
    try discriminate.
  destruct (post_at env (posts (sys r))) as [|rep]; [discriminate|].
  symmetry in H. apply read_reply_ok in H as (Hs & Hb & Hc & Hok & Hid).
  repeat split; try assumption. exists rep. now repeat split.
Qed.

(** X4. [call_provider] returns a result only for a reply with status 200
    whose body is JSON that the adapter could read: the result has
    [ok = True], the provider's id, the decoded body as [raw] and the text
    that the adapter found; exactly one request was sent. So the test
    [res and res.get("ok")] of [send_prompt] never fails. *)
Theorem call_provider_result (py_repr json_dumps : json -> text) (env : Env)
  (prov : Provider) (context : list (text * json)) (prompt_text : text)
  (r r1 : Run) (cr : CallResult) :
  call_provider py_repr json_dumps env prov context prompt_text r = (Ok cr, r1) ->
  ok cr = true
  /\ provider_id cr = prov_id prov
  /\ posts (sys r1) = S (posts (sys r))
  /\ exists rep,
       post_at env (posts (sys r)) = Replied rep
       /\ status rep = 200
       /\ body_json rep = Some (raw cr)
       /\ content_of py_repr json_dumps prov (raw cr) = Ok (result_text cr).
Proof. apply call_provider_ok. Qed.

Lemma call_provider_result_witness :
  exists cr r1,
    call_provider sample_repr sample_dumps (always (answer "hi") true) chat_provider []
                  (str "q") (start [chat_provider]) = (Ok cr, r1)
    /\ ok cr = true /\ result_text cr = JStr (str "hi") /\ posts (sys r1) = 1%nat.
Proof.
  eexists _, _. split; [reflexivity|].
  destruct (call_provider_result sample_repr sample_dumps (always (answer "hi") true)
              chat_provider [] (str "q") (start [chat_provider]) _ _ eq_refl)
    as (Hok & _ & Hp & _).
  split; [exact Hok|]. split; [reflexivity | exact Hp].
Defined.

Lemma call_provider_raise (py_repr json_dumps : json -> text) (env : Env)
  (prov : Provider) (context : list (text * json)) (prompt_text : text)
  (r r1 : Run) (e : PyExn) :
  call_provider py_repr json_dumps env prov context prompt_text r = (Raise e, r1) ->
  (r1 = r /\ is_gemini prov = true
   /\ ((base_url prov = None /\ e = plain AttributeError)
       \/ (base_url prov <> None /\ (model prov = None \/ model prov = Some [])
           /\ e = plain MissingModel)))
  \/ (posts (sys r1) = S (posts (sys r))
      /\ match post_at env (posts (sys r)) with
         | NoReply => e = plain ClientError
         | Replied rep =>
             if status rep =? 429 then
               e = Exn (HttpStatus 429)
                       (Some (parse_retry_delay_seconds py_repr (error_data rep)))
             else if status rep =? 200 then
               match body_json rep with
               | None => e = plain DecodeError
               | Some data =>
                   content_of py_repr json_dumps prov data = Raise e
                   /\ retry_seconds e = None
                   /\ (kind e = AttributeError \/ kind e = TypeError
                       \/ kind e = KeyError \/ kind e = IndexError)
               end
             else e = plain (HttpStatus (status rep))
         end).
Proof.
  intro H. apply call_provider_reply in H as [(Hr & Hg & [[Hb H] | (Hb & Hm & H)]) | [Hp H]].
  - left. injection H as ->. repeat split; try assumption. now left.
  - left. injection H as ->. repeat split; try assumption. right. now repeat split.
  - right. split; [exact Hp|].
    destruct (post_at env (posts (sys r))) as [|rep]; [now injection H|].
    symmetry in H. apply read_reply_raise in H; [|apply content_of_raises].
    exact H.
Qed.

(** X5. The exceptions of [call_provider]. Before anything is sent, a
    Gemini-style provider without a base URL or without a model fails. After
    the request: a failed round trip; a 429, the only exception that carries
    [retry_seconds]; any other status that is not 200, whatever the body
    holds; a 200 whose body is not JSON; and a 200 whose JSON has a shape
    that the adapter trips over, which raises one of [AttributeError],
    [TypeError], [KeyError] and [IndexError]. *)
Theorem call_provider_errors (py_repr json_dumps : json -> text) (env : Env)
  (prov : Provider) (context : list (text * json)) (prompt_text : text)
  (r r1 : Run) (e : PyExn) :
  call_provider py_repr json_dumps env prov context prompt_text r = (Raise e, r1) ->
  (r1 = r /\ is_gemini prov = true
   /\ ((base_url prov = None /\ e = plain AttributeError)
       \/ (base_url prov <> None /\ (model prov = None \/ model prov = Some [])
           /\ e = plain MissingModel)))
  \/ (posts (sys r1) = S (posts (sys r))
      /\ match post_at env (posts (sys r)) with
         | NoReply => e = plain ClientError
         | Replied rep =>
             if status rep =? 429 then
               e = Exn (HttpStatus 429)
                       (Some (parse_retry_delay_seconds py_repr (error_data rep)))
             else if status rep =? 200 then
               match body_json rep with
               | None => e = plain DecodeError
               | Some data =>
                   content_of py_repr json_dumps prov data = Raise e
                   /\ retry_seconds e = None
                   /\ (kind e = AttributeError \/ kind e = TypeError
                       \/ kind e = KeyError \/ kind e = IndexError)
               end
             else e = plain (HttpStatus (status rep))
         end).
Proof. apply call_provider_raise. Qed.

Lemma call_provider_errors_witness :
  fst (call_provider sample_repr sample_dumps
         (always (Replied (mkReply 503 (str "Service Unavailable") None)) true)
         chat_provider [] (str "q") (start [chat_provider]))
  = Raise (plain (HttpStatus 503)).
Proof.
  destruct (call_provider sample_repr sample_dumps
              (always (Replied (mkReply 503 (str "Service Unavailable") None)) true)
              chat_provider [] (str "q") (start [chat_provider])) as [[cr|e] r1] eqn:E;
    [vm_compute in E; discriminate|].
  destruct (call_provider_errors _ _ _ _ _ _ _ _ _ E) as [(_ & Hg & _) | [_ H]];
    [discriminate Hg|].
  cbn in H. now rewrite H.
Defined.

(** ** The request of call_provider *)

(** [p] with another ["model"]. *)
Definition with_model (m : option text) (p : Provider) : Provider :=
  mkProvider (prov_id p) (prov_name p) (prov_type p) (base_url p) m (api_key p)
             (max_tokens p) (priority p) (enabled p) (_disabled_until p).

(** X6. The request of a Gemini-style provider. Unless the base URL
    already names a model or ends with [:generate], the URL is the base URL
    without trailing slashes, then [/models/], the model and
    [:generateContent]; a model written with a leading [models/] gives the
    same URL. The request carries the prompt alone: the conversation history
    that [send_prompt] assembled is not sent. *)
Theorem gemini_request (py_repr json_dumps : json -> text) (env : Env)
  (prov : Provider) (b m : text) (prompt_text : text) (r : Run) :
  is_gemini prov = true ->
  base_url prov = Some b ->
  m <> [] ->
  startswith (str "models/") m = false ->
  let base := rstrip_by (ascii_eqb "/") b in
  let url := if endswith (str ":generate") base || contains (str "models/") base
             then base
             else base ++ str "/models/" ++ m ++ str ":generateContent" in
  forall written context,
    written = m \/ written = str "models/" ++ m ->
    snd (call_provider py_repr json_dumps env (with_model (Some written) prov) context
           prompt_text r)
    = with_sys posted
        (emit (Sent (GenerateContent url prompt_text (dflt 4096 (max_tokens prov)))) r).
Proof.
  intros Hg Hb Hne Hm base url written context Hw.
  assert (Hnet : reaches_network (with_model (Some written) prov)).
  { right. destruct Hw as [-> | ->].
    - destruct m as [|c m']; [congruence|]. now exists b, c, m'.
    - now exists b, "m"%char, (str "odels/" ++ m). }
  rewrite (call_provider_request _ _ _ _ _ _ _ Hnet). cbn [snd].
  unfold request_of. change (is_gemini (with_model (Some written) prov)) with (is_gemini prov).
  rewrite Hg. cbn [with_model base_url model max_tokens dflt]. rewrite Hb. cbn [dflt].
  do 3 f_equal. unfold gemini_url, url, base.
  destruct (endswith (str ":generate") (rstrip_by (ascii_eqb "/") b)
            || contains (str "models/") (rstrip_by (ascii_eqb "/") b)); [reflexivity|].
  destruct Hw as [-> | ->].
  - rewrite Hm. now rewrite <- !app_assoc.
  - rewrite startswith_app. now rewrite <- !app_assoc.
Qed.

Definition gemini_provider : Provider :=
  mkProvider (Some (str "g1")) None (Some (str "gemini"))
             (Some (str "https://generativelanguage.googleapis.com/v1beta/")) None
             (Some (str "key")) None (Some 1) None None.

Definition gemini_sent (written : string) : Run :=
  snd (call_provider sample_repr sample_dumps (always NoReply true)
         (with_model (Some (str written)) gemini_provider)
         [(str "system", JStr SYSTEM_MSG)] (str "q") (start [gemini_provider])).

Lemma gemini_request_witness :
  gemini_sent "gemini-2.0-flash"
  = with_sys posted
      (emit (Sent (GenerateContent
               (str "https://generativelanguage.googleapis.com/v1beta/models/gemini-2.0-flash:generateContent")
               (str "q") 4096))
            (start [gemini_provider]))
  /\ gemini_sent "models/gemini-2.0-flash" = gemini_sent "gemini-2.0-flash".
Proof.
  pose proof (gemini_request sample_repr sample_dumps (always NoReply true) gemini_provider
                (str "https://generativelanguage.googleapis.com/v1beta/")
                (str "gemini-2.0-flash") (str "q") (start [gemini_provider])
                eq_refl eq_refl ltac:(discriminate) eq_refl) as H.
  cbv zeta in H. split.
  - exact (H (str "gemini-2.0-flash") _ (or_introl eq_refl)).
  - etransitivity.
    + exact (H (str "models/gemini-2.0-flash") _ (or_intror eq_refl)).
    + symmetry. exact (H (str "gemini-2.0-flash") _ (or_introl eq_refl)).
Defined.

(** ** The text of a Gemini reply *)

(** X7. What the Gemini adapter reads from a 200 reply. For the documented
    shape, a dict whose "candidates" starts with a dict whose "content" is a
    dict with a list of "parts" that starts with a dict, it is the "text" of
    that first part (the empty string when the part has none, or when the
    list of parts is empty). A body that is not a dict gives its [str], and
    a dict without candidates and without "output" gives the serialised
    "result" or, failing that, the serialised body: none of these raises. *)
Theorem gemini_content_spec (py_repr json_dumps : json -> text) :
  (forall items cand more inner part parts,
      assoc (str "candidates") items = Some (JArr (JObj cand :: more)) ->
      assoc (str "content") cand = Some (JObj inner) ->
      assoc (str "parts") inner = Some (JArr (JObj part :: parts)) ->
      gemini_content py_repr json_dumps (JObj items)
      = Ok (dflt (JStr []) (assoc (str "text") part)))
  /\ (forall items cand more inner,
      assoc (str "candidates") items = Some (JArr (JObj cand :: more)) ->
      assoc (str "content") cand = Some (JObj inner) ->
      assoc (str "parts") inner = Some (JArr []) ->
      gemini_content py_repr json_dumps (JObj items) = Ok (JStr []))
  /\ (forall data, is_dict data = false ->
      gemini_content py_repr json_dumps data = Ok (JStr (py_str py_repr data)))
  /\ (forall items,
      truthy (dflt JNull (assoc (str "candidates") items)) = false ->
      assoc (str "output") items = None ->
      gemini_content py_repr json_dumps (JObj items)
      = Ok (JStr (json_dumps
                    match assoc (str "candidates") items, assoc (str "result") items with
                    | None, Some result => result
                    | _, _ => JObj items
                    end))).
Proof.
  split; [|split; [|split]].
  - intros items cand more inner part parts Hc Hi Hp. unfold gemini_content.
    cbn [is_dict py_in bind getitem]. rewrite Hc.
    cbn [bind truthy andb first_item py_in getitem]. rewrite Hi.
    cbn [bind is_dict andb py_in]. rewrite Hp.
    cbn [bind andb getitem]. rewrite Hp. cbn [bind truthy is_list andb first_item get].
    reflexivity.
  - intros items cand more inner Hc Hi Hp. unfold gemini_content.
    cbn [is_dict py_in bind getitem]. rewrite Hc.
    cbn [bind truthy andb first_item py_in getitem]. rewrite Hi.
    cbn [bind is_dict andb py_in]. rewrite Hp.
    cbn [bind andb getitem]. rewrite Hp. reflexivity.
  - intros data Hd. unfold gemini_content. now rewrite Hd.
  - intros items Hc Ho. unfold gemini_content. cbn [is_dict py_in bind getitem].
    destruct (assoc (str "candidates") items) as [cands|]; cbn [bind dflt] in *.
    + rewrite Hc. cbn [andb]. rewrite Ho. cbn [bind negb andb].
      destruct (assoc (str "result") items); reflexivity.
    + rewrite Ho. cbn [bind negb andb].
      destruct (assoc (str "result") items); reflexivity.
Qed.

Definition gemini_part : list (text * json) := [(str "text", JStr (str "hi"))].

Definition gemini_inner : list (text * json) :=
  [(str "parts", JArr [JObj gemini_part]); (str "role", JStr (str "model"))].

Definition gemini_candidate : list (text * json) :=
  [(str "content", JObj gemini_inner); (str "finishReason", JStr (str "STOP"))].

Definition gemini_body : list (text * json) :=
  [(str "candidates", JArr [JObj gemini_candidate]); (str "modelVersion", JStr (str "x"))].

Lemma gemini_content_spec_witness :
  gemini_content sample_repr sample_dumps (JObj gemini_body) = Ok (JStr (str "hi")).
Proof.
  destruct (gemini_content_spec sample_repr sample_dumps) as (H & _).
  apply (H gemini_body gemini_candidate [] gemini_inner gemini_part [] eq_refl eq_refl eq_refl).
Defined.

(** ** What a submission sends, writes and returns *)

(** [res.get("text") or ""]: a text that is not falsy, or the empty string. *)
Definition text_or_empty (v : json) : Prop := truthy v = true \/ v = JStr [].

Lemma py_or_text (v : json) : text_or_empty (py_or v (JStr [])).
Proof.
  unfold py_or, text_or_empty. destruct (truthy v) eqn:E; [now left | now right].
Qed.

(** The number of calls of the provider at position [i] in a trace. *)
Definition count_tries (i : nat) (events : list Event) : nat :=
  len (filter (fun t => (fst t =? i)%nat) (tries events)).

Lemma tries_app (a b : list Event) : tries (a ++ b) = tries a ++ tries b.
Proof. apply flat_map_app. Qed.

Lemma tries_silent (l : list Event) : Forall silent l -> tries l = [].
Proof.
  induction 1 as [|e l He _ IH]; [reflexivity|].
  cbn [tries flat_map]. fold (tries l). rewrite IH. destruct e; cbn in He; tauto.
Qed.

Definition not_try (e : Event) : Prop :=
  match e with
  | Try _ _ _ => False
  | _ => True
  end.

Lemma tries_quiet (l : list Event) : Forall not_try l -> tries l = [].
Proof.
  induction 1 as [|e l He _ IH]; [reflexivity|].
  cbn [tries flat_map]. fold (tries l). rewrite IH. destruct e; cbn in He; tauto.
Qed.

Lemma count_tries_app (i : nat) (a b : list Event) :
  count_tries i (a ++ b) = (count_tries i a + count_tries i b)%nat.
Proof. unfold count_tries, len. now rewrite tries_app, filter_app, length_app. Qed.

Lemma count_tries_le (i : nat) (l : list Event) : (count_tries i l <= len (tries l))%nat.
Proof. apply filter_length_le. Qed.

Lemma count_tries_none (i : nat) (l : list Event) :
  (forall k n, ~ In (Try i k n) l) -> count_tries i l = 0%nat.
Proof.
  induction l as [|e l IH]; intro H; [reflexivity|].
  change (e :: l) with ([e] ++ l). rewrite count_tries_app, IH.
  - destruct e; try reflexivity. unfold count_tries. cbn [tries flat_map app filter fst].
    destruct (i0 =? i)%nat eqn:E; [|reflexivity]. apply Nat.eqb_eq in E. subst i0.
    exfalso. apply (H attempt reads). now left.
  - intros k n Hin. apply (H k n). now right.
Qed.

Section FrameFacts.

Variable py_repr : json -> text.
Variable json_dumps : json -> text.
Variable env : Env.
Variable context : list (text * json).
Variable prompt_text : text.

(** The 429 behind a cooldown of [secs] seconds: a reply to one of the
    requests numbered [lo] to [hi - 1]. *)
Definition rate_limit_source (lo hi : nat) (secs : Z) : Prop :=
  exists n rep,
    (lo <= n < hi)%nat /\ post_at env n = Replied rep /\ status rep = 429
    /\ secs = parse_retry_delay_seconds py_repr (error_data rep).

Lemma rate_limit_source_weaken (lo hi lo' hi' : nat) (secs : Z) :
  (lo' <= lo)%nat -> (hi <= hi')%nat ->
  rate_limit_source lo hi secs -> rate_limit_source lo' hi' secs.
Proof.
  intros Hlo Hhi (n & rep & Hn & H). exists n, rep. split; [lia | exact H].
Qed.

Lemma one_attempt_frame (i : nat) (prov : Provider) (attempt : nat) (r r1 : Run)
  (done : res Answer) :
  one_attempt py_repr json_dumps env i prov context prompt_text attempt r = (done, r1) ->
  preferred_provider_type (sys r1) = preferred_provider_type (sys r)
  /\ (posts (sys r) <= posts (sys r1) <= S (posts (sys r)))%nat
  /\ match done with
     | Ok a =>
         answer_provider a = prov_id prov /\ text_or_empty (answer_text a)
         /\ current_session (sys r) <> None
     | Raise e =>
         kind e <> InvalidResponse
         /\ forall secs, rate_limit_of e = Some secs ->
              0 < secs /\ rate_limit_source (posts (sys r)) (posts (sys r1)) secs
     end.
Proof.
  unfold one_attempt.
  set (r0 := emit (Try i attempt (clock_reads (sys r))) r).
  destruct (call_provider py_repr json_dumps env prov context prompt_text r0)
    as [called rc] eqn:Hcall.
  assert (Hrc : preferred_provider_type (sys rc) = preferred_provider_type (sys r)
                /\ current_session (sys rc) = current_session (sys r)
                /\ (posts (sys r) <= posts (sys rc) <= S (posts (sys r)))%nat).
  { destruct (call_provider_run _ _ _ _ _ _ _ _ _ Hcall) as [-> | (req & ->)];
      cbn; repeat split; lia. }
  destruct Hrc as (Hpref & Hsess & Hposts).
  destruct called as [cr|e].
  - apply call_provider_ok in Hcall as (Hok & _ & _ & _).
    destruct (current_session (sys rc)) as [cs|] eqn:Hcs.
    + rewrite (record_answer_session env i (prov_id prov) prompt_text cr rc cs Hcs Hok).
      destruct (save_ok env (saves (sys rc))); intro H; injection H as <- <-;
        cbn [sys preferred_provider_type posts]; (split; [exact Hpref|]);
        (split; [exact Hposts|]).
      * cbn [answer_provider answer_text]. split; [reflexivity|].
        split; [apply py_or_text | congruence].
      * split; [discriminate | intros secs H; discriminate H].
    + unfold record_answer. rewrite Hok, Hcs. intro H; injection H as <- <-.
      split; [exact Hpref|]. split; [exact Hposts|].
      split; [discriminate | intros secs H; discriminate H].
  - intro H; injection H as <- <-. split; [exact Hpref|]. split; [exact Hposts|].
    apply call_provider_raise in Hcall
      as [(_ & _ & [[_ ->] | (_ & _ & ->)]) | [Hp Hcall]];
      try (split; [discriminate | intros secs H; discriminate H]).
    change (posts (sys r0)) with (posts (sys r)) in Hp, Hcall.
    destruct (post_at env (posts (sys r))) as [|rep] eqn:Hpost;
      [subst e; split; [discriminate | intros secs H; discriminate H]|].
    destruct (status rep =? 429) eqn:E429.
    + subst e. split; [discriminate|]. intros secs H.
      unfold rate_limit_of in H. cbn [retry_seconds] in H.
      pose proof (retry_delay_nonneg py_repr (error_data rep)) as Hnn.
      destruct (parse_retry_delay_seconds py_repr (error_data rep) =? 0) eqn:Ez;
        [discriminate|]. injection H as <-. apply Z.eqb_neq in Ez. split; [lia|].
      exists (posts (sys r)), rep. apply Z.eqb_eq in E429. repeat split; try assumption; lia.
    + destruct (status rep =? 200).
      * destruct (body_json rep) as [data|].
        -- destruct Hcall as (_ & Hnone & Hk). split.
           ++ intro Hi. rewrite Hi in Hk. destruct Hk as [Hk | [Hk | [Hk | Hk]]]; discriminate.
           ++ intros secs H. unfold rate_limit_of in H. rewrite Hnone in H. discriminate.
        -- subst e. split; [discriminate | intros secs H; discriminate H].
      * subst e. split; [discriminate | intros secs H; discriminate H].
Qed.

(** The events of the attempts on the provider at position [i] with the
    attempt numbers [todo]. *)
Definition budget_event (i : nat) (todo : list nat) (e : Event) : Prop :=
  match e with
  | Try j k _ => j = i /\ In k todo
  | Failed j k x => j = i /\ In k todo /\ kind x <> InvalidResponse
  | Answered j | Disabled j _ _ => j = i
  | Skip _ _ | Select _ _ => False
  | _ => True
  end.

Lemma budget_event_more (i : nat) (k : nat) (todo : list nat) (e : Event) :
  budget_event i todo e -> budget_event i (k :: todo) e.
Proof. destruct e; cbn; tauto. Qed.

(** What the loop over the attempts wrote into the provider list: nothing,
    or the cooldown that the last event records. *)
Definition cooldown_written (i : nat) (r r' : Run) (new : list Event)
  (o : res (option Answer)) : Prop :=
  (providers (sys r') = providers (sys r) /\ Forall not_disabled new)
  \/ (exists pre now secs f m,
        new = pre ++ [Disabled i now secs]
        /\ Forall not_disabled pre
        /\ float_of_int secs = Ok f
        /\ providers (sys r')
           = update_nth i (set_disabled_until (float_add now f)) (providers (sys r))
        /\ 0 < secs
        /\ (clock_reads (sys r) <= m)%nat /\ now = time_at env m
        /\ rate_limit_source (posts (sys r)) (posts (sys r')) secs
        /\ o = Ok None).

Lemma one_attempt_events (i : nat) (prov : Provider) (k : nat) (r r1 : Run)
  (done : res Answer) :
  one_attempt py_repr json_dumps env i prov context prompt_text k r = (done, r1) ->
  exists new,
    trace r1 = trace r ++ Try i k (clock_reads (sys r)) :: new
    /\ Forall silent new
    /\ Forall (budget_event i [k]) new.
Proof.
  intro H. unfold one_attempt in H.
  set (r0 := emit (Try i k (clock_reads (sys r))) r) in H.
  destruct (call_provider py_repr json_dumps env prov context prompt_text r0)
    as [called rc] eqn:Hcall.
  assert (Hrc : exists new, trace rc = trace r ++ Try i k (clock_reads (sys r)) :: new
                            /\ Forall silent new /\ Forall (budget_event i [k]) new
                            /\ current_session (sys rc) = current_session (sys r)).
  { destruct (call_provider_run _ _ _ _ _ _ _ _ _ Hcall) as [-> | (req & ->)].
    - exists []. unfold r0, emit. cbn [trace]. repeat split; constructor.
    - exists [Sent req]. unfold r0, with_sys, emit. cbn [trace].
      rewrite <- app_assoc. repeat split; repeat constructor. }
  destruct Hrc as (new & Ht & Hs & Hb & Hcs).
  destruct called as [cr|e]; [|injection H as _ <-; now exists new].
  apply call_provider_ok in Hcall as (Hok & _).
  destruct (current_session (sys rc)) as [cs|] eqn:Hcs'.
  - rewrite (record_answer_session env i (prov_id prov) prompt_text cr rc cs Hcs' Hok) in H.
    destruct (save_ok env (saves (sys rc))); injection H as _ <-; cbn [trace].
    + exists (new ++ [Saved true; Answered i]). rewrite Ht, <- app_assoc.
      split; [reflexivity|]. split; apply Forall_app; split; try assumption;
        repeat constructor.
    + exists (new ++ [Saved false]). rewrite Ht, <- app_assoc.
      split; [reflexivity|]. split; apply Forall_app; split; try assumption;
        repeat constructor.
  - unfold record_answer in H. rewrite Hok, Hcs' in H. injection H as _ <-.
    now exists new.
Qed.

Lemma budget_event_weaken (i : nat) (todo todo' : list nat) (e : Event) :
  (forall k, In k todo -> In k todo') -> budget_event i todo e -> budget_event i todo' e.
Proof. intro H. destruct e; cbn; intuition. Qed.

Lemma attempts_frame (i : nat) (prov : Provider) (todo : list nat) :
  forall (r r' : Run) (o : res (option Answer)),
    attempts py_repr json_dumps env i prov context prompt_text todo r = (o, r') ->
    preferred_provider_type (sys r') = preferred_provider_type (sys r)
    /\ (exists new,
          trace r' = trace r ++ new
          /\ (len (tries new) <= len todo)%nat
          /\ (posts (sys r) <= posts (sys r') <= posts (sys r) + len (tries new))%nat
          /\ Forall (budget_event i todo) new
          /\ cooldown_written i r r' new o)
    /\ (current_session (sys r) = None -> current_session (sys r') = None)
    /\ (forall a, o = Ok (Some a) ->
          answer_provider a = prov_id prov /\ text_or_empty (answer_text a)
          /\ current_session (sys r) <> None).
Proof.
  induction todo as [|k rest IH]; intros r r' o H.
  - cbn [attempts] in H. injection H as <- <-. split; [reflexivity|]. split; [|split].
    + exists []. rewrite app_nil_r. cbn. repeat split; try lia; [constructor|].
      left. split; [reflexivity | constructor].
    + tauto.
    + intros a Ha. discriminate.
  - rewrite attempts_cons in H.
    destruct (one_attempt py_repr json_dumps env i prov context prompt_text k r)
      as [done r1] eqn:Hone.
    pose proof (one_attempt_frame _ _ _ _ _ _ Hone) as (Hpref & Hposts & Hdone).
    pose proof (one_attempt_events _ _ _ _ _ _ Hone) as (new & Ht & Hsil & Hbud).
    pose proof (one_attempt_run _ _ _ _ _ _ _ _ _ _ _ Hone) as (Hprov & Hclk & _ & _ & Hsess).
    assert (Hnone : current_session (sys r) = None -> current_session (sys r1) = None).
    { intro Hn. destruct done as [a|e].
      - destruct Hsess as (cs & _ & _ & Hcs & _). congruence.
      - destruct Hsess as [Hs | (_ & cs & _ & _ & _ & Hcs & _)]; congruence. }
    assert (Htries : tries (Try i k (clock_reads (sys r)) :: new) = [(i, k)]).
    { cbn [tries flat_map]. fold (tries new). now rewrite (tries_silent _ Hsil). }
    assert (Hev : Forall (budget_event i (k :: rest)) (Try i k (clock_reads (sys r)) :: new)).
    { constructor; [cbn; split; [reflexivity | now left]|].
      eapply Forall_impl; [|exact Hbud]. intro e. apply budget_event_weaken.
      intros k' [<- | []]. now left. }
    assert (Hq : Forall not_disabled (Try i k (clock_reads (sys r)) :: new)).
    { constructor; [exact I|].
      eapply Forall_impl; [|exact Hsil]. intro e. apply silent_not_disabled. }
    destruct done as [a|e].
    + injection H as <- <-. split; [exact Hpref|]. split; [|split].
      * exists (Try i k (clock_reads (sys r)) :: new). split; [exact Ht|].
        rewrite Htries. cbn [len List.length]. split; [lia|]. split; [lia|].
        split; [exact Hev|]. left. now split.
      * exact Hnone.
      * intros a' Ha. injection Ha as <-. exact Hdone.
    + destruct Hdone as [Hkind Hsecs].
      destruct (rate_limit_of e) as [secs|] eqn:Hrl.
      * destruct (Hsecs secs eq_refl) as [Hpos Hsrc].
        unfold rate_limited, read_clock in H.
        destruct (float_of_int secs) as [f|x] eqn:Hf; cbn [fst snd bind] in H;
          injection H as <- <-.
        -- unfold caught, with_sys, emit, disable, ticked.
           cbn [sys last_exc trace providers current_session clock_reads posts
                preferred_provider_type].
           split; [exact Hpref|]. split; [|split; [exact Hnone | intros a Ha; discriminate]].
           exists ((Try i k (clock_reads (sys r)) :: new)
                   ++ [Disabled i (time_at env (clock_reads (sys r1))) secs]).
           rewrite Ht, <- app_assoc. split; [reflexivity|].
           rewrite tries_app, Htries, (tries_quiet [_]) by (repeat constructor).
           rewrite app_nil_r. cbn [len List.length]. split; [lia|]. split; [lia|]. split.
           ++ apply Forall_app. split; [exact Hev | repeat constructor].
           ++ right. exists (Try i k (clock_reads (sys r)) :: new),
                (time_at env (clock_reads (sys r1))), secs, f, (clock_reads (sys r1)).
              rewrite Hprov. repeat split; try assumption.
        -- unfold caught, with_sys, ticked.
           cbn [sys last_exc trace providers current_session clock_reads posts
                preferred_provider_type].
           split; [exact Hpref|]. split; [|split; [exact Hnone | intros a Ha; discriminate]].
           exists (Try i k (clock_reads (sys r)) :: new). split; [exact Ht|].
           rewrite Htries. cbn [len List.length]. split; [lia|]. split; [lia|].
           split; [exact Hev|]. left. now split.
      * apply IH in H as (Hpref' & (new' & Ht' & Hn' & Hposts' & Hev' & Hcw') & Hnone' & Hans').
        unfold failed_attempt, caught, emit in Hpref', Ht', Hposts', Hcw', Hnone', Hans'.
        cbn [sys last_exc trace] in Hpref', Ht', Hposts', Hnone', Hans'.
        split; [congruence|]. split; [|split].
        -- exists ((Try i k (clock_reads (sys r)) :: new)
                   ++ [Failed i k e; Sleep (4 * k)] ++ new').
           rewrite Ht', Ht, <- !app_assoc. split; [reflexivity|].
           rewrite !tries_app, Htries, (tries_quiet [_; _]) by (repeat constructor).
           unfold len in *. rewrite !length_app. cbn [List.length].
           split; [lia|]. split; [lia|]. split.
           ++ apply Forall_app. split; [exact Hev|].
              apply Forall_app. split.
              ** constructor; [cbn; split; [reflexivity | split; [now left | exact Hkind]]|].
                 constructor; [exact I | constructor].
              ** eapply Forall_impl; [|exact Hev']. intro ev. apply budget_event_more.
           ++ destruct Hcw' as [[Hp' Hnd'] | (pre & now & secs & f & m & E & Hpre & Hf & Hp'
                                              & Hpos & Hm & Hnow & Hsrc & Ho)];
                cbn [sys providers clock_reads posts] in *.
              ** left. split; [congruence|].
                 apply Forall_app. split; [exact Hq|].
                 apply Forall_app. split; [repeat constructor | exact Hnd'].
              ** right.
                 exists ((Try i k (clock_reads (sys r)) :: new)
                         ++ [Failed i k e; Sleep (4 * k)] ++ pre), now, secs, f, m.
                 rewrite E, Hp', Hprov, <- !app_assoc.
                 repeat split; try assumption; try lia.
                 --- apply Forall_app. split; [exact Hq|].
                     apply Forall_app. split; [repeat constructor | exact Hpre].
                 --- eapply rate_limit_source_weaken; [| |exact Hsrc]; lia.
        -- intro Hn. apply Hnone'. now apply Hnone.
        -- intros a Ha. destruct (Hans' a Ha) as (H1 & H2 & H3). repeat split; try assumption.
           intro Hn. apply H3. now apply Hnone.
Qed.

End FrameFacts.

Section DispatchFrame.

Variable py_repr : json -> text.
Variable json_dumps : json -> text.
Variable env : Env.
Variable context : list (text * json).
Variable prompt_text : text.

(** What the loop over the providers did to the entry at position [i]:
    nothing, or it wrote the cooldown that the trace records. *)
Definition entry_effect (i : nat) (r r' : Run) (new : list Event) : Prop :=
  (deref (providers (sys r')) i = deref (providers (sys r)) i
   /\ forall now secs, ~ In (Disabled i now secs) new)
  \/ (exists now secs f p m,
        In (Disabled i now secs) new
        /\ deref (providers (sys r)) i = Some p
        /\ float_of_int secs = Ok f
        /\ deref (providers (sys r')) i = Some (set_disabled_until (float_add now f) p)
        /\ 0 < secs
        /\ (clock_reads (sys r) <= m)%nat /\ now = time_at env m
        /\ rate_limit_source py_repr env (posts (sys r)) (posts (sys r')) secs).

(** The events of the loop over the providers [refs]. *)
Definition dispatch_event (refs : list nat) (e : Event) : Prop :=
  match e with
  | Try j k _ => In j refs /\ (1 <= k <= MAX_PROVIDER_RETRIES)%nat
  | Failed j k x => In j refs /\ kind x <> InvalidResponse
  | Disabled j _ _ | Answered j | Skip j _ | Select j _ => In j refs
  | _ => True
  end.

Lemma dispatch_event_more (i : nat) (refs : list nat) (e : Event) :
  dispatch_event refs e -> dispatch_event (i :: refs) e.
Proof. destruct e; cbn; tauto. Qed.

Lemma budget_dispatch_event (i : nat) (refs : list nat) (e : Event) :
  budget_event i (seq 1 MAX_PROVIDER_RETRIES) e -> dispatch_event (i :: refs) e.
Proof.
  destruct e; cbn; try tauto.
  - intros [-> [<- | [<- | []]]]; (split; [now left | unfold MAX_PROVIDER_RETRIES; lia]).
  - intros ->. now left.
  - intros [-> [_ H]]. split; [now left | exact H].
  - intros ->. now left.
Qed.

Definition frame (refs : list nat) (r r' : Run) (o : res (option Answer)) : Prop :=
  preferred_provider_type (sys r') = preferred_provider_type (sys r)
  /\ (clock_reads (sys r) <= clock_reads (sys r'))%nat
  /\ (current_session (sys r) = None -> current_session (sys r') = None)
  /\ (exists new,
        trace r' = trace r ++ new
        /\ (len (tries new) <= MAX_PROVIDER_RETRIES * len refs)%nat
        /\ (posts (sys r) <= posts (sys r') <= posts (sys r) + len (tries new))%nat
        /\ Forall (dispatch_event refs) new
        /\ (forall i, (count_tries i new <= MAX_PROVIDER_RETRIES)%nat)
        /\ (forall i, entry_effect i r r' new))
  /\ (forall a, o = Ok (Some a) ->
        text_or_empty (answer_text a) /\ current_session (sys r) <> None
        /\ exists i p, In i refs /\ deref (providers (sys r)) i = Some p
                       /\ answer_provider a = prov_id p).

Lemma check_cooldown_sys (prov : Provider) (r rc : Run) (c : Check) :
  check_cooldown env prov r = (c, rc) -> rc = r \/ rc = with_sys ticked r.
Proof.
  unfold check_cooldown, read_clock.
  destruct (negb (Qeq_bool (dflt 0%Q (_disabled_until prov)) 0));
    [|intro H; injection H as _ <-; now left].
  destruct (Qltb _ _); intro H; injection H as _ <-; now right.
Qed.

(** A step of the loop that changes nothing but the clock and the trace. *)
Lemma frame_shift (i : nat) (rest : list nat) (r r0 r' : Run) (o : res (option Answer))
  (pre : list Event) :
  providers (sys r0) = providers (sys r) ->
  current_session (sys r0) = current_session (sys r) ->
  preferred_provider_type (sys r0) = preferred_provider_type (sys r) ->
  posts (sys r0) = posts (sys r) ->
  (clock_reads (sys r) <= clock_reads (sys r0))%nat ->
  trace r0 = trace r ++ pre ->
  Forall (dispatch_event (i :: rest)) pre -> Forall not_try pre -> Forall not_disabled pre ->
  frame rest r0 r' o -> frame (i :: rest) r r' o.
Proof.
  intros Hp Hs Hpref Hposts Hclk Ht Hpre Hnt Hnd
         (Fpref & Fclk & Fnone & (new & Ft & Fn & Fposts & Fev & Fcnt & Feff) & Fans).
  split; [congruence|]. split; [lia|]. split; [intro Hn; apply Fnone; congruence|].
  split.
  - exists (pre ++ new). rewrite Ft, Ht, <- app_assoc. split; [reflexivity|].
    rewrite tries_app, (tries_quiet pre Hnt). unfold len, MAX_PROVIDER_RETRIES in *.
    cbn [app List.length]. split; [lia|]. split; [lia|]. split; [|split].
    + apply Forall_app. split; [exact Hpre|].
      eapply Forall_impl; [|exact Fev]. intro e. apply dispatch_event_more.
    + intro j. rewrite count_tries_app, (count_tries_none j pre); [apply Fcnt|].
      intros k n Hin. rewrite Forall_forall in Hnt. apply (Hnt _ Hin).
    + intro j. destruct (Feff j) as [[Hsame Hno] | (now & secs & f & p & m & H1 & H2 & Hf
                                                   & H3 & H4 & H5 & H6 & H7)].
      * left. split; [congruence|]. intros now secs Hin.
        apply in_app_or in Hin as [Hin | Hin]; [|now apply (Hno now secs)].
        rewrite Forall_forall in Hnd. apply (Hnd _ Hin).
      * right. exists now, secs, f, p, m. rewrite <- Hp, <- Hposts.
        repeat split; try assumption; [apply in_or_app; now right | lia].
  - intros a Ha. destruct (Fans a Ha) as (H1 & H2 & j & p & Hj & Hpj & Hid).
    split; [exact H1|]. split; [congruence|]. exists j, p.
    repeat split; try assumption; [now right | congruence].
Qed.

Lemma dispatch_frame (refs : list nat) :
  forall (r r' : Run) (o : res (option Answer)),
    NoDup refs ->
    dispatch py_repr json_dumps env context prompt_text refs r = (o, r') ->
    frame refs r r' o.
Proof.
  induction refs as [|i rest IH]; intros r r' o Hnd H.
  - cbn [dispatch] in H. injection H as <- <-.
    split; [reflexivity|]. split; [lia|]. split; [tauto|]. split; [|discriminate].
    exists []. rewrite app_nil_r. cbn. repeat split; try lia; [constructor|].
    intro i. left. split; [reflexivity | intros now secs []].
  - inversion Hnd as [|? ? Hi Hrest]; subst. cbn [dispatch] in H.
    destruct (deref (providers (sys r)) i) as [prov|] eqn:Hd.
    + destruct (check_cooldown env prov r) as [c rc] eqn:Hc.
      pose proof (check_cooldown_sys _ _ _ _ Hc) as Hrc.
      assert (Hsame : providers (sys rc) = providers (sys r)
                      /\ current_session (sys rc) = current_session (sys r)
                      /\ preferred_provider_type (sys rc) = preferred_provider_type (sys r)
                      /\ posts (sys rc) = posts (sys r)
                      /\ (clock_reads (sys r) <= clock_reads (sys rc))%nat
                      /\ trace rc = trace r).
      { destruct Hrc as [-> | ->]; cbn; repeat split; lia. }
      destruct Hsame as (Sp & Ss & Spref & Sposts & Sclk & St).
      destruct c as [now | now].
      * (* the provider is skipped *)
        unfold read_clock in H. cbn iota beta in H.
        apply IH in H; [|exact Hrest].
        apply (frame_shift i rest r _ r' o [Skip i now]) in H; try exact H;
          cbn [emit with_sys sys trace providers current_session preferred_provider_type
               posts clock_reads ticked]; try assumption; try lia.
        -- now rewrite St.
        -- constructor; [cbn; now left | constructor].
        -- repeat constructor.
        -- repeat constructor.
      * (* the provider is selected *)
        destruct (attempts py_repr json_dumps env i prov context prompt_text
                    (seq 1 MAX_PROVIDER_RETRIES) (emit (Select i now) rc))
          as [oa ra] eqn:Ha.
        pose proof (attempts_run _ _ _ _ _ _ _ _ _ _ _ Ha) as (Aj & Aclk & _).
        apply attempts_frame in Ha
          as (Apref & (newa & At & An & Aposts & Aev & Acw) & Anone & Aans).
        unfold emit in Aj, Aclk, Apref, At, Aposts, Acw, Anone, Aans.
        cbn [sys trace] in Aj, Aclk, Apref, At, Aposts, Anone, Aans.
        assert (An2 : (List.length (tries newa) <= 2)%nat) by exact An.
        unfold len in Aposts.
        assert (Atry : forall j k n, In (Try j k n) newa -> j = i).
        { intros j k n Hin. rewrite Forall_forall in Aev. apply Aev in Hin. now destruct Hin. }
        assert (Adis : forall j t secs, In (Disabled j t secs) newa -> j = i).
        { intros j t secs Hin. rewrite Forall_forall in Aev. now apply Aev in Hin. }
        assert (Hsel : forall t secs, ~ In (Disabled i t secs) [Select i now]).
        { intros t secs [Hin | []]. discriminate. }
        assert (Aeff : forall j, entry_effect j r ra (Select i now :: newa)).
        { intro j.
          destruct Acw as [[Hp Hq] | (pre & t & secs & f & m & E & Hpre & Hf & Hp & Hpos & Hm
                                      & Hnow & Hsrc & Ho)];
            cbn [sys providers clock_reads posts] in *.
          - left. split; [congruence|]. intros t secs [Hin | Hin]; [discriminate|].
            rewrite Forall_forall in Hq. apply (Hq _ Hin).
          - destruct (Nat.eq_dec j i) as [-> | Hne].
            + right. exists t, secs, f, prov, m. rewrite <- Sposts.
              repeat split; try assumption; try lia.
              * right. rewrite E. apply in_or_app. right. now left.
              * unfold deref in *. rewrite Hp, Sp, deref_update_same, Hd. reflexivity.
            + left. split.
              * unfold deref. rewrite Hp, Sp. now apply deref_update_other.
              * intros t' secs' [Hin | Hin]; [discriminate|].
                apply Adis in Hin. contradiction. }
        assert (Hstop : frame (i :: rest) r ra oa).
        { split; [congruence|]. split; [lia|].
          split; [intro Hn; apply Anone; congruence|]. split.
          - exists (Select i now :: newa). rewrite At, St, <- app_assoc.
            split; [reflexivity|].
            change (tries (Select i now :: newa)) with (tries newa).
            unfold len, MAX_PROVIDER_RETRIES. cbn [List.length].
            split; [lia|]. split; [lia|]. split; [|split; [|exact Aeff]].
            + constructor; [cbn; now left|].
              eapply Forall_impl; [|exact Aev]. intro e. apply budget_dispatch_event.
            + intro j. pose proof (count_tries_le j (Select i now :: newa)) as Hle.
              change (tries (Select i now :: newa)) with (tries newa) in Hle.
              unfold len, MAX_PROVIDER_RETRIES in *. lia.
          - intros a Ha. destruct (Aans a Ha) as (H1 & H2 & H3).
            split; [exact H2|]. split; [congruence|]. exists i, prov.
            repeat split; [now left | exact Hd | exact H1]. }
        destruct oa as [[a|]|x];
          [injection H as <- <-; exact Hstop | | injection H as <- <-; exact Hstop].
        clear Hstop.
        -- apply IH in H; [|exact Hrest].
           destruct H as (Fpref & Fclk & Fnone
                          & (new & Ft & Fn & Fposts & Fev & Fcnt & Feff) & Fans).
           assert (Ftry : forall k n, ~ In (Try i k n) new).
           { intros k n Hin. rewrite Forall_forall in Fev. apply Fev in Hin.
             destruct Hin as [Hin _]. contradiction. }
           assert (Fdis : forall t secs, ~ In (Disabled i t secs) new).
           { intros t secs Hin. rewrite Forall_forall in Fev. apply Fev in Hin.
             contradiction. }
           split; [congruence|]. split; [lia|].
           split; [intro Hn; apply Fnone, Anone; congruence|]. split.
           ++ exists ((Select i now :: newa) ++ new). rewrite Ft, At, St, <- !app_assoc.
              split; [reflexivity|]. rewrite tries_app.
              change (tries (Select i now :: newa)) with (tries newa).
              unfold len, MAX_PROVIDER_RETRIES in Fn, Fposts |- *.
              rewrite length_app. cbn [List.length].
              split; [lia|]. split; [lia|]. split; [|split].
              ** apply Forall_app. split.
                 --- constructor; [cbn; now left|].
                     eapply Forall_impl; [|exact Aev]. intro e. apply budget_dispatch_event.
                 --- eapply Forall_impl; [|exact Fev]. intro e. apply dispatch_event_more.
              ** intro j. rewrite count_tries_app.
                 destruct (Nat.eq_dec j i) as [-> | Hne].
                 --- rewrite (count_tries_none i new Ftry).
                     pose proof (count_tries_le i (Select i now :: newa)) as Hle.
                     change (tries (Select i now :: newa)) with (tries newa) in Hle.
                     unfold len, MAX_PROVIDER_RETRIES in *. lia.
                 --- rewrite (count_tries_none j (Select i now :: newa)); [apply Fcnt|].
                     intros k n [Hin | Hin]; [discriminate|].
                     apply Atry in Hin. contradiction.
              ** intro j.
                 destruct (Feff j) as [[Hsame Hno] | (t & secs & f & p & m & H1 & H2 & Hf
                                                     & H3 & H4 & H5 & H6 & H7)].
                 --- destruct (Aeff j) as [[Hsame' Hno'] | (t & secs & f & p & m & H1 & H2
                                                          & Hf & H3 & H4 & H5 & H6 & H7)].
                     +++ left. split; [congruence|]. intros t secs Hin.
                         apply in_app_or in Hin as [Hin | Hin];
                           [now apply (Hno' t secs) | now apply (Hno t secs)].
                     +++ right. exists t, secs, f, p, m.
                         repeat split; try assumption.
                         *** apply in_or_app. now left.
                         *** congruence.
                         *** eapply rate_limit_source_weaken; [| |exact H7]; lia.
                 --- assert (Hne : j <> i).
                     { intros ->. apply (Fdis t secs H1). }
                     right. exists t, secs, f, p, m.
                     repeat split; try assumption.
                     +++ apply in_or_app. now right.
                     +++ rewrite <- H2, <- Sp. symmetry. now apply Aj.
                     +++ lia.
                     +++ eapply rate_limit_source_weaken; [| |exact H7]; lia.
           ++ intros a Ha. destruct (Fans a Ha) as (H1 & H2 & j & p & Hj & Hpj & Hid).
              split; [exact H1|]. split; [intro Hn; apply H2, Anone; congruence|].
              exists j, p. repeat split; try assumption; [now right|].
              rewrite <- Hpj, <- Sp. symmetry. apply Aj. intros ->. contradiction.
    + (* a reference outside the store *)
      apply IH in H; [|exact Hrest].
      apply (frame_shift i rest r r r' o []) in H; try exact H; try reflexivity;
        try lia; try constructor.
      now rewrite app_nil_r.
Qed.

End DispatchFrame.

Lemma selection_order_length (preferred : text) (store : list Provider) :
  len (selection_order preferred store) = len (enabled_refs store).
Proof.
  unfold selection_order. destruct preferred as [|c pref]; [reflexivity|].
  set (pf := c :: pref). unfold len. rewrite length_app.
  rewrite (filter_ext_in (fun i => negb (ref_in store
             (filter (holds store (prefers pf)) (enabled_refs store)) i))
           (fun i => negb (holds store (prefers pf) i))).
  - apply filter_length.
  - intros i Hi. now rewrite ref_in_matching.
Qed.

Lemma enabled_refs_length (store : list Provider) :
  len (enabled_refs store) = len (filter get_enabled store).
Proof.
  rewrite <- derefs_enabled_refs.
  assert (H : forall refs, (forall i, In i refs -> deref store i <> None) ->
                           len refs = len (derefs store refs)).
  { induction refs as [|i refs IH]; intro Hall; [reflexivity|]. cbn [derefs].
    destruct (deref store i) eqn:E; [|now destruct (Hall i (or_introl eq_refl))].
    cbn [len List.length]. f_equal. apply IH. intros j Hj. apply Hall. now right. }
  apply H. intros i Hi. destruct (enabled_refs_enabled _ _ Hi) as (p & Hp & _). congruence.
Qed.

Lemma frame_refl (py_repr : json -> text) (env : Env) (refs : list nat) (r : Run) :
  frame py_repr env refs r r (Ok None).
Proof.
  split; [reflexivity|]. split; [lia|]. split; [tauto|]. split; [|discriminate].
  exists []. rewrite app_nil_r. cbn. repeat split; try lia; [constructor|].
  intro i. left. split; [reflexivity | intros now secs []].
Qed.

(** A submission is one run of the loop over the selected providers. *)
Lemma send_prompt_frame (py_repr json_dumps : json -> text) (env : Env)
  (prompt_text : text) (s : Sys) :
  exists outcome r,
    send_prompt py_repr json_dumps env prompt_text s = (outcome, sys r, trace r)
    /\ frame py_repr env (selection_order (preferred_provider_type s) (providers s))
             (mkRun s None []) r
             (match outcome with
              | Returned a => Ok (Some a)
              | Escaped e => Raise e
              | _ => Ok None
              end).
Proof.
  destruct (send_prompt_cases py_repr json_dumps env prompt_text s)
    as [[-> _] | [[-> _] | (o & r & Hd & ->)]].
  - exists NoProviders, (mkRun s None []). split; [reflexivity | apply frame_refl].
  - exists NoEnabledProviders, (mkRun s None []). split; [reflexivity | apply frame_refl].
  - apply dispatch_frame in Hd; [|apply selection_order_NoDup].
    exists (match o with
            | Ok (Some a) => Returned a
            | Ok None => AllProvidersFailed (last_exc r)
            | Raise e => Escaped e
            end), r.
    split; [reflexivity|]. destruct o as [[a|]|e]; exact Hd.
Qed.

(** X8. The retry budget of a submission. No provider is called more than
    [MAX_PROVIDER_RETRIES] times, the calls bear the attempt numbers 1 and
    2 and go to enabled providers only; so there are at most twice as many
    calls as enabled providers, and at most one request per call. *)
Theorem send_prompt_budget (py_repr json_dumps : json -> text) (env : Env)
  (prompt_text : text) (s : Sys) :
  let '(outcome, s', events) := send_prompt py_repr json_dumps env prompt_text s in
  (forall i, (count_tries i events <= MAX_PROVIDER_RETRIES)%nat)
  /\ (forall i k n, In (Try i k n) events ->
        (1 <= k <= MAX_PROVIDER_RETRIES)%nat
        /\ exists p, deref (providers s) i = Some p /\ get_enabled p = true)
  /\ (len (tries events)
      <= MAX_PROVIDER_RETRIES * len (filter get_enabled (providers s)))%nat
  /\ (posts s <= posts s' <= posts s + len (tries events))%nat.
Proof.
  destruct (send_prompt_frame py_repr json_dumps env prompt_text s)
    as (outcome & r & -> & _ & _ & _ & (new & Ht & Hn & Hposts & Hev & Hcnt & _) & _).
  cbn [sys trace app posts] in Ht, Hposts. rewrite Ht.
  split; [exact Hcnt|]. split; [|split; [|exact Hposts]].
  - intros i k n Hin. rewrite Forall_forall in Hev. apply Hev in Hin as [Hi Hk].
    split; [exact Hk|]. apply enabled_refs_enabled. now apply selection_order_In in Hi.
  - now rewrite selection_order_length, enabled_refs_length in Hn.
Qed.

(** X9. What a submission writes into the provider list: the preferred
    type is not touched, and an entry either stays as it is or gets a
    cooldown. A cooldown is written only for an enabled provider, after a
    429 reply to one of the requests of this submission whose parsed delay
    is positive and converts to a float; it is the floating-point sum of a
    reading of the clock taken in this submission and that delay: the double
    nearest to the sum, when that is finite, which is the sum itself when
    that is a double below [2^53] in size. *)
Theorem send_prompt_writes_cooldowns (py_repr json_dumps : json -> text) (env : Env)
  (prompt_text : text) (s : Sys) :
  let '(outcome, s', events) := send_prompt py_repr json_dumps env prompt_text s in
  preferred_provider_type s' = preferred_provider_type s
  /\ forall i,
       (deref (providers s') i = deref (providers s) i
        /\ forall now secs, ~ In (Disabled i now secs) events)
       \/ (exists now secs f p m n rep,
             In (Disabled i now secs) events
             /\ deref (providers s) i = Some p /\ get_enabled p = true
             /\ float_of_int secs = Ok f
             /\ (finite (float_add now f) ->
                 deref (providers s') i = Some (set_disabled_until (float_add now f) p))
             /\ (clock_reads s <= m)%nat /\ now = time_at env m
             /\ (posts s <= n < posts s')%nat
             /\ post_at env n = Replied rep /\ status rep = 429
             /\ secs = parse_retry_delay_seconds py_repr (error_data rep)
             /\ 0 < secs
             /\ (forall m j, Z.abs m < 2 ^ 53 -> 0 <= j <= 1074 ->
                   (now + f == m # Z.to_pos (2 ^ j))%Q ->
                   (float_add now f == now + f)%Q)).
Proof.
  destruct (send_prompt_frame py_repr json_dumps env prompt_text s)
    as (outcome & r & -> & Hpref & _ & _ & (new & Ht & _ & _ & Hev & _ & Heff) & _).
  cbn [sys trace app] in Ht, Hpref. rewrite Ht. split; [exact Hpref|]. intro i.
  destruct (Heff i) as [H | (now & secs & f & p & m & H1 & H2 & Hf & H3 & H4 & H5 & H6
                             & (n & rep & H7 & H8 & H9 & H10))];
    [now left|]. right.
  cbn [sys providers clock_reads posts] in *.
  exists now, secs, f, p, m, n, rep.
  repeat split; try assumption; try lia; try (intros _; assumption);
    try (intros m0 j0; apply float_add_exact).
  rewrite Forall_forall in Hev. apply Hev in H1. cbn in H1.
  apply selection_order_In, enabled_refs_enabled in H1 as (p' & Hp' & Hen). congruence.
Qed.

(** X10. What [send_prompt] returns comes from an enabled provider of the
    list, whose id it carries; the text is the one that the adapter found,
    or the empty string when that is [None] or empty; and there was a
    session to record the exchange in. *)
Theorem send_prompt_returned (py_repr json_dumps : json -> text) (env : Env)
  (prompt_text : text) (s s' : Sys) (events : list Event) (a : Answer) :
  send_prompt py_repr json_dumps env prompt_text s = (Returned a, s', events) ->
  (truthy (answer_text a) = true \/ answer_text a = JStr [])
  /\ current_session s <> None
  /\ exists i p, deref (providers s) i = Some p /\ get_enabled p = true
                 /\ answer_provider a = prov_id p.
Proof.
  intro H.
  destruct (send_prompt_frame py_repr json_dumps env prompt_text s)
    as (outcome & r & E & _ & _ & _ & _ & Hans).
  rewrite H in E. injection E as <- _ _.
  destruct (Hans a eq_refl) as (H1 & H2 & i & p & Hi & Hp & Hid).
  split; [exact H1|]. split; [exact H2|]. exists i, p.
  split; [exact Hp|]. split; [|exact Hid].
  apply selection_order_In, enabled_refs_enabled in Hi as (p' & Hp' & Hen).
  cbn [sys providers] in Hp. congruence.
Qed.

Lemma send_prompt_returned_witness :
  exists a s' events,
    send_prompt sample_repr sample_dumps (always (answer "hi") true) (str "q") p1_cooling
    = (Returned a, s', events)
    /\ answer_provider a = Some (str "P2")
    /\ (truthy (answer_text a) = true \/ answer_text a = JStr []).
Proof.
  destruct (send_prompt sample_repr sample_dumps (always (answer "hi") true) (str "q")
              p1_cooling) as [[outcome s'] events] eqn:E.
  assert (Ho : exists a, outcome = Returned a /\ answer_provider a = Some (str "P2")).
  { vm_compute in E. injection E as <- _ _. eexists. split; reflexivity. }
  destruct Ho as (a & -> & Hid). exists a, s', events.
  split; [reflexivity|]. split; [exact Hid|].
  exact (proj1 (send_prompt_returned sample_repr sample_dumps (always (answer "hi") true)
                  (str "q") p1_cooling s' events a E)).
Defined.

(** ** The ways through the loop *)

(** The [SKIP] events of providers that are all cooling down; each one takes
    two readings of the clock. *)
Fixpoint skips (env : Env) (c : nat) (refs : list nat) : list Event :=
  match refs with
  | [] => []
  | i :: rest => Skip i (time_at env c) :: skips env (S (S c)) rest
  end.

(** The globals after [n] more readings of the clock. *)
Definition advanced (n : nat) (s : Sys) : Sys :=
  mkSys (providers s) (current_session s) (preferred_provider_type s)
        (n + clock_reads s) (posts s) (saves s).

(** The cooldown of [p] is set and lies after the readings [c] to [hi - 1]. *)
Definition cooling_during (env : Env) (c hi : nat) (p : Provider) : Prop :=
  exists d, _disabled_until p = Some d /\ ~ (d == 0)%Q
            /\ forall m, (c <= m < hi)%nat -> (time_at env m < d)%Q.

Section Paths.

Variable py_repr : json -> text.
Variable json_dumps : json -> text.
Variable env : Env.
Variable context : list (text * json).
Variable prompt_text : text.

Lemma check_cooldown_cooling (prov : Provider) (r : Run) (hi : nat) :
  cooling_during env (clock_reads (sys r)) hi prov -> (clock_reads (sys r) < hi)%nat ->
  check_cooldown env prov r
  = (Cooling (time_at env (clock_reads (sys r))), with_sys ticked r).
Proof.
  intros (d & Hd & Hnz & Hlt) Hhi. unfold check_cooldown, read_clock. rewrite Hd. cbn [dflt].
  destruct (Qeq_bool d 0) eqn:E; [apply Qeq_bool_iff in E; contradiction|]. cbn [negb].
  assert (Hl : Qltb (time_at env (clock_reads (sys r))) d = true).
  { apply Qltb_lt, Hlt. lia. }
  now rewrite Hl.
Qed.

Lemma dispatch_cooling (refs : list nat) :
  forall (r : Run) (hi : nat),
    (clock_reads (sys r) + 2 * len refs <= hi)%nat ->
    (forall i, In i refs ->
       exists p, deref (providers (sys r)) i = Some p
                 /\ cooling_during env (clock_reads (sys r)) hi p) ->
    dispatch py_repr json_dumps env context prompt_text refs r
    = (Ok None, mkRun (advanced (2 * len refs) (sys r)) (last_exc r)
                   (trace r ++ skips env (clock_reads (sys r)) refs)).
Proof.
  induction refs as [|i rest IH]; intros r hi Hhi Hall.
  - cbn [dispatch skips len List.length]. rewrite app_nil_r. now destruct r as [[]].
  - cbn [len List.length] in Hhi. unfold len in IH.
    destruct (Hall i (or_introl eq_refl)) as (p & Hp & Hcool).
    cbn [dispatch]. rewrite Hp, (check_cooldown_cooling p r hi Hcool) by lia.
    unfold read_clock. cbn iota beta.
    rewrite (IH _ hi).
    + unfold emit, with_sys, ticked, advanced.
      cbn [sys last_exc trace providers current_session preferred_provider_type
           clock_reads posts saves skips len List.length].
      rewrite <- app_assoc. cbn [app]. f_equal. f_equal. f_equal. unfold len. lia.
    + cbn. lia.
    + intros j Hj. destruct (Hall j (or_intror Hj)) as (q & Hq & d & Hd & Hnz & Hlt).
      exists q. split; [exact Hq|]. exists d. repeat split; try assumption.
      intros m Hm. apply Hlt. cbn in Hm. lia.
Qed.

(** A round trip that fails without a rate limit: no reply, or a status
    that is neither 200 nor 429. *)
Definition transient (out : NetOutcome) : Prop :=
  match out with
  | NoReply => True
  | Replied rep => status rep <> 200 /\ status rep <> 429
  end.

Definition transient_error (out : NetOutcome) : PyExn :=
  match out with
  | NoReply => plain ClientError
  | Replied rep => plain (HttpStatus (status rep))
  end.

Lemma one_attempt_transient (i : nat) (prov : Provider) (attempt : nat) (r : Run) :
  reaches_network prov ->
  transient (post_at env (posts (sys r))) ->
  one_attempt py_repr json_dumps env i prov context prompt_text attempt r
  = (Raise (transient_error (post_at env (posts (sys r)))),
     with_sys posted (emit (Sent (request_of prov context prompt_text))
                           (emit (Try i attempt (clock_reads (sys r))) r))).
Proof.
  intros Hnet Htr. unfold one_attempt.
  rewrite (call_provider_request py_repr json_dumps env prov context prompt_text _ Hnet).
  cbn [emit sys posts].
  destruct (post_at env (posts (sys r))) as [|rep]; [reflexivity|].
  destruct Htr as [H200 H429]. unfold read_reply.
  apply Z.eqb_neq in H200, H429. now rewrite H429, H200.
Qed.

Lemma one_attempt_answer (i : nat) (prov : Provider) (attempt : nat) (r : Run)
  (rep : Reply) (data txt : json) (cs : Session) :
  reaches_network prov ->
  post_at env (posts (sys r)) = Replied rep ->
  status rep = 200 -> body_json rep = Some data ->
  content_of py_repr json_dumps prov data = Ok txt ->
  current_session (sys r) = Some cs ->
  save_ok env (saves (sys r)) = true ->
  one_attempt py_repr json_dumps env i prov context prompt_text attempt r
  = (Ok (mkAnswer (prov_id prov) data (py_or txt (JStr []))),
     mkRun (mkSys (providers (sys r))
                  (Some (with_turn cs prompt_text (py_or txt (JStr [])) (prov_id prov)
                           (int_of_time (time_at env (clock_reads (sys r))))
                           (int_of_time (time_at env (S (clock_reads (sys r)))))))
                  (preferred_provider_type (sys r)) (S (S (clock_reads (sys r))))
                  (S (posts (sys r))) (S (saves (sys r))))
           (last_exc r)
           (trace r ++ [Try i attempt (clock_reads (sys r));
                        Sent (request_of prov context prompt_text); Saved true;
                        Answered i])).
Proof.
  intros Hnet Hpost Hst Hbody Hparse Hcs Hsave. unfold one_attempt.
  rewrite (call_provider_request py_repr json_dumps env prov context prompt_text _ Hnet).
  cbn [emit sys posts]. rewrite Hpost.
  unfold read_reply, reply_json. rewrite Hst, Hbody. cbn [Z.eqb Pos.eqb negb bind].
  rewrite Hparse. cbn [bind].
  erewrite record_answer_session; [|exact Hcs | reflexivity].
  cbn [with_sys sys posted saves emit last_exc trace providers current_session
       preferred_provider_type clock_reads posts result_text raw].
  rewrite Hsave. f_equal. f_equal. now rewrite <- !app_assoc.
Qed.

End Paths.

(** X11. When every enabled provider is cooling down during the submission,
    nothing is sent: each provider is skipped in the selection order, at the
    cost of two readings of the clock, and the submission ends with "All
    providers failed. Last: None"; the providers, the session and the number
    of requests are as before. *)
Theorem all_cooling_sends_nothing (py_repr json_dumps : json -> text) (env : Env)
  (prompt_text : text) (s : Sys) :
  filter get_enabled (providers s) <> [] ->
  (forall i p, deref (providers s) i = Some p -> get_enabled p = true ->
     cooling_during env (clock_reads s)
       (clock_reads s + 2 * len (filter get_enabled (providers s))) p) ->
  send_prompt py_repr json_dumps env prompt_text s
  = (AllProvidersFailed None,
     advanced (2 * len (filter get_enabled (providers s))) s,
     skips env (clock_reads s) (selection_order (preferred_provider_type s) (providers s))).
Proof.
  intros Hne Hall.
  assert (Hlen : len (selection_order (preferred_provider_type s) (providers s))
                 = len (filter get_enabled (providers s))).
  { now rewrite selection_order_length, enabled_refs_length. }
  destruct (send_prompt_cases py_repr json_dumps env prompt_text s)
    as [[_ Hp] | [[_ He] | (o & r & Hd & ->)]].
  - rewrite Hp in Hne. now destruct Hne.
  - pose proof (enabled_refs_length (providers s)) as Hl. rewrite He in Hl.
    destruct (filter get_enabled (providers s)); [now destruct Hne | discriminate].
  - rewrite (dispatch_cooling py_repr json_dumps env _ prompt_text _ _
               (clock_reads s + 2 * len (filter get_enabled (providers s)))) in Hd.
    + injection Hd as <- <-. cbn [sys last_exc trace app]. now rewrite Hlen.
    + cbn [sys clock_reads]. rewrite Hlen. lia.
    + intros i Hi. apply selection_order_In, enabled_refs_enabled in Hi as (p & Hp & Hen).
      exists p. split; [exact Hp|]. now apply (Hall i p).
Qed.

Definition both_cooling : Sys :=
  mkSys [set_disabled_until (inject_Z 1700000030) p1;
         set_disabled_until (inject_Z 1700000060) p2]
        (Some fresh_session) (str "openrouter") 0 0 0.

Lemma all_cooling_sends_nothing_witness :
  send_prompt sample_repr sample_dumps (always (answer "hi") true) (str "q") both_cooling
  = (AllProvidersFailed None, advanced 4 both_cooling,
     [Skip 0 (inject_Z 1700000000); Skip 1 (inject_Z 1700000002)]).
Proof.
  rewrite (all_cooling_sends_nothing sample_repr sample_dumps (always (answer "hi") true)
             (str "q") both_cooling).
  - vm_compute. reflexivity.
  - vm_compute. discriminate.
  - intros i p Hp _.
    assert (Hm : forall d, (1700000004 <= d)%Z ->
               forall m, (clock_reads both_cooling <= m
                          < clock_reads both_cooling
                            + 2 * len (filter get_enabled (providers both_cooling)))%nat ->
               (time_at (always (answer "hi") true) m < inject_Z d)%Q).
    { intros d Hd m Hm. vm_compute in Hm. unfold always, time_at.
      rewrite <- Zlt_Qlt. lia. }
    destruct i as [|[|i]].
    + injection Hp as <-. exists (inject_Z 1700000030).
      split; [reflexivity|]. split; [discriminate|]. apply Hm. lia.
    + injection Hp as <-. exists (inject_Z 1700000060).
      split; [reflexivity|]. split; [discriminate|]. apply Hm. lia.
    + destruct i; discriminate.
Defined.

(** X12. A provider whose two round trips fail without a rate limit (no
    reply, or a status that is neither 200 nor 429) uses its whole budget:
    attempt 1, the warning, a sleep of 0.4 s, attempt 2, the warning, a
    sleep of 0.8 s. Two requests were sent, no cooldown is written, the
    session is as before, and the loop goes on with the next provider. *)
Theorem transient_failures_use_the_budget (py_repr json_dumps : json -> text) (env : Env)
  (i : nat) (prov : Provider) (context : list (text * json)) (prompt_text : text) (r : Run) :
  reaches_network prov ->
  transient (post_at env (posts (sys r))) ->
  transient (post_at env (S (posts (sys r)))) ->
  let e1 := transient_error (post_at env (posts (sys r))) in
  let e2 := transient_error (post_at env (S (posts (sys r)))) in
  let n := clock_reads (sys r) in
  let req := request_of prov context prompt_text in
  let r2 := mkRun (posted (posted (sys r))) (Some e2)
                  (trace r ++ [Try i 1 n; Sent req; Failed i 1 e1; Sleep 4;
                               Try i 2 n; Sent req; Failed i 2 e2; Sleep 8]) in
  retry_seconds e1 = None /\ retry_seconds e2 = None
  /\ attempts py_repr json_dumps env i prov context prompt_text
              (seq 1 MAX_PROVIDER_RETRIES) r = (Ok None, r2)
  /\ providers (sys r2) = providers (sys r)
  /\ current_session (sys r2) = current_session (sys r)
  /\ posts (sys r2) = S (S (posts (sys r)))
  /\ (forall others r0 now,
        deref (providers (sys r0)) i = Some prov ->
        check_cooldown env prov r0 = (Available now, r) ->
        dispatch py_repr json_dumps env context prompt_text (i :: others) r0
        = dispatch py_repr json_dumps env context prompt_text others
            (mkRun (sys r2) (Some e2)
               (trace r ++ [Select i now; Try i 1 n; Sent req; Failed i 1 e1; Sleep 4;
                            Try i 2 n; Sent req; Failed i 2 e2; Sleep 8]))).
Proof.
  intros Hnet H1 H2 e1 e2 n req r2.
  assert (Hplain : forall out, rate_limit_of (transient_error out) = None).
  { intros [|rep]; reflexivity. }
  assert (Hloop : forall r', posts (sys r') = posts (sys r) ->
            attempts py_repr json_dumps env i prov context prompt_text
                     (seq 1 MAX_PROVIDER_RETRIES) r'
            = (Ok None, mkRun (posted (posted (sys r'))) (Some e2)
                 (trace r' ++ [Try i 1 (clock_reads (sys r')); Sent req; Failed i 1 e1;
                               Sleep 4;
                               Try i 2 (clock_reads (sys r')); Sent req; Failed i 2 e2;
                               Sleep 8]))).
  { intros r' Hr'. cbn [seq MAX_PROVIDER_RETRIES].
    rewrite attempts_cons, one_attempt_transient by (try rewrite Hr'; assumption).
    rewrite Hr', Hplain.
    rewrite attempts_cons, one_attempt_transient;
      [|assumption | cbn [failed_attempt caught with_sys emit sys posted posts];
                     now rewrite Hr'].
    cbn [failed_attempt caught with_sys emit sys posted posts]. rewrite Hr', Hplain.
    cbn [attempts]. unfold e1, e2, req, failed_attempt, caught, with_sys, emit, posted.
    cbn [sys last_exc trace providers current_session preferred_provider_type
         clock_reads posts saves].
    f_equal. f_equal. now rewrite <- !app_assoc. }
  split; [unfold e1; now destruct (post_at env (posts (sys r)))|].
  split; [unfold e2; now destruct (post_at env (S (posts (sys r))))|].
  split; [exact (Hloop r eq_refl)|].
  split; [reflexivity|]. split; [reflexivity|]. split; [reflexivity|].
  intros others r0 now Hd Hc.
  erewrite dispatch_available; [reflexivity | exact Hd | exact Hc |].
  rewrite (Hloop (emit (Select i now) r) eq_refl).
  unfold emit. cbn [sys last_exc trace]. f_equal. f_equal. now rewrite <- app_assoc.
Qed.


Lemma transient_failures_use_the_budget_witness :
  attempts sample_repr sample_dumps (always unavailable true) 0 chat_provider []
           (str "q") (seq 1 MAX_PROVIDER_RETRIES) (start [chat_provider])
  = (Ok None,
     mkRun (posted (posted (sys (start [chat_provider])))) (Some (plain (HttpStatus 503)))
           [Try 0 1 0; Sent (request_of chat_provider [] (str "q"));
            Failed 0 1 (plain (HttpStatus 503)); Sleep 4;
            Try 0 2 0; Sent (request_of chat_provider [] (str "q"));
            Failed 0 2 (plain (HttpStatus 503)); Sleep 8]).
Proof.
  destruct (transient_failures_use_the_budget sample_repr sample_dumps
              (always unavailable true) 0 chat_provider [] (str "q")
              (start [chat_provider])) as (_ & _ & Hatt & _);
    [now left | split; discriminate | split; discriminate |].
  rewrite Hatt. reflexivity.
Defined.

(** X13. The first provider that answers ends the submission. For a
    provider without a cooldown that gets a 200 reply which the adapter can
    read, with a session and a successful write of the session file: the
    reply is returned at the first attempt, with the provider's id, the
    decoded body and the text (the empty string for a missing one); the user
    message and the assistant message are appended with two successive
    readings of the clock, each cut to its integer part as [int] does
    (towards zero); one request was sent; and the providers after it in the order are
    not looked at, whatever they are. *)
Theorem first_answer_is_returned (py_repr json_dumps : json -> text) (env : Env)
  (i : nat) (prov : Provider) (context : list (text * json)) (prompt_text : text) (r : Run)
  (rep : Reply) (data txt : json) (cs : Session) :
  deref (providers (sys r)) i = Some prov ->
  _disabled_until prov = None ->
  reaches_network prov ->
  post_at env (posts (sys r)) = Replied rep ->
  status rep = 200 ->
  body_json rep = Some data ->
  content_of py_repr json_dumps prov data = Ok txt ->
  current_session (sys r) = Some cs ->
  save_ok env (saves (sys r)) = true ->
  let n := clock_reads (sys r) in
  let raw_text := py_or txt (JStr []) in
  forall others,
    dispatch py_repr json_dumps env context prompt_text (i :: others) r
    = (Ok (Some (mkAnswer (prov_id prov) data raw_text)),
       mkRun (mkSys (providers (sys r))
                    (Some (with_turn cs prompt_text raw_text (prov_id prov)
                             (int_of_time (time_at env n)) (int_of_time (time_at env (S n)))))
                    (preferred_provider_type (sys r)) (S (S n))
                    (S (posts (sys r))) (S (saves (sys r))))
             (last_exc r)
             (trace r ++ [Select i None; Try i 1 n;
                          Sent (request_of prov context prompt_text);
                          Saved true; Answered i])).
Proof.
  intros Hd Hdu Hnet Hpost Hst Hbody Hparse Hcs Hsave n raw_text others.
  cbn [dispatch]. rewrite Hd. unfold check_cooldown. rewrite Hdu.
  cbn [dflt Qeq_bool negb]. change (Qeq_bool 0 0) with true. cbn [negb].
  cbn [seq MAX_PROVIDER_RETRIES]. rewrite attempts_cons.
  rewrite (one_attempt_answer py_repr json_dumps env context prompt_text i prov 1
             (emit (Select i None) r) rep data txt cs Hnet Hpost Hst Hbody Hparse Hcs Hsave).
  cbn [emit sys last_exc trace]. f_equal. f_equal. now rewrite <- app_assoc.
Qed.

Definition hi_body : json :=
  JObj [(str "choices",
         JArr [JObj [(str "message", JObj [(str "role", JStr (str "assistant"));
                                           (str "content", JStr (str "hi"))])]])].

Lemma first_answer_is_returned_witness :
  fst (dispatch sample_repr sample_dumps (always (answer "hi") true) [] (str "q")
         [0; 1]%nat (start [p1; p2]))
  = Ok (Some (mkAnswer (Some (str "P1")) hi_body (JStr (str "hi")))).
Proof.
  pose proof (first_answer_is_returned sample_repr sample_dumps (always (answer "hi") true)
                0 p1 [] (str "q") (start [p1; p2])
                (mkReply 200 (str "{...}") (Some hi_body)) hi_body (JStr (str "hi"))
                fresh_session) as H.
  rewrite H; try reflexivity. now left.
Defined.

(** ** The two early exits *)

Lemma enabled_refs_nil (store : list Provider) :
  enabled_refs store = [] <-> filter get_enabled store = [].
Proof.
  pose proof (enabled_refs_length store) as H. unfold len in H.
  split; intro E; rewrite E in H; cbn in H.
  - destruct (filter get_enabled store); [reflexivity | discriminate].
  - destruct (enabled_refs store); [reflexivity | discriminate].
Qed.

(** X14. [send_prompt] raises "No providers configured" exactly when the
    provider list is empty, and "No enabled providers found" exactly when
    the list is not empty and holds no enabled provider. In both cases
    nothing was done: no request, no reading of the clock, no change of the
    globals. *)
Theorem send_prompt_without_providers (py_repr json_dumps : json -> text) (env : Env)
  (prompt_text : text) (s : Sys) :
  let '(outcome, s', events) := send_prompt py_repr json_dumps env prompt_text s in
  (outcome = NoProviders <-> providers s = [])
  /\ (outcome = NoEnabledProviders
      <-> providers s <> [] /\ filter get_enabled (providers s) = [])
  /\ (outcome = NoProviders \/ outcome = NoEnabledProviders -> s' = s /\ events = []).
Proof.
  unfold send_prompt. destruct (providers s) as [|p ps] eqn:Hp.
  - repeat split; try congruence; try discriminate. now intros [Hx _].
  - destruct (enabled_refs (p :: ps)) as [|i refs] eqn:He.
    + apply enabled_refs_nil in He. repeat split; try congruence; discriminate.
    + assert (Hne : filter get_enabled (p :: ps) <> []).
      { intro E. apply enabled_refs_nil in E. congruence. }
      destruct (dispatch _ _ _ _ _ _ _) as [[[a|]|e] r];
        (split; [split; [discriminate | congruence]|]);
        (split; [split; [discriminate | intros [_ Hx]; contradiction]|]);
        intros [Hx | Hx]; discriminate.
Qed.

(** ** The context and the history *)

Lemma last_n_app {A : Type} (n : nat) (l t : list A) :
  (len t <= n)%nat -> last_n n (l ++ t) = last_n (n - len t) l ++ t.
Proof.
  intro H. unfold last_n, len in *. rewrite length_app, skipn_app.
  replace (List.length l + List.length t - n - List.length l)%nat with 0%nat by lia.
  cbn [skipn]. f_equal. f_equal. lia.
Qed.

Lemma last_n_length {A : Type} (n : nat) (l : list A) :
  len (last_n n l) = Nat.min n (len l).
Proof. unfold last_n, len. rewrite length_skipn. lia. Qed.

Lemma last_n_suffix {A : Type} (n : nat) (l : list A) :
  l = firstn (len l - n) l ++ last_n n l.
Proof. unfold last_n. symmetry. apply firstn_skipn. Qed.

Definition as_context (m : Message) : text * json := (role m, msg_text m).

(** X15. The context of a submission is the system message, then the last
    30 messages of the session (all of them when there are fewer) in their
    order, as role and text, then the prompt as the user message: at most 32
    entries. Without a session it is the system message and the prompt. *)
Theorem build_context_window (cs : Session) (prompt_text : text) :
  let ctx := build_context (Some cs) prompt_text in
  len ctx = (2 + Nat.min 30 (len (messages cs)))%nat
  /\ (exists older recent,
        messages cs = older ++ recent
        /\ len recent = Nat.min 30 (len (messages cs))
        /\ ctx = (str "system", JStr SYSTEM_MSG) :: map as_context recent
                 ++ [(str "user", JStr prompt_text)])
  /\ build_context None prompt_text
     = [(str "system", JStr SYSTEM_MSG); (str "user", JStr prompt_text)].
Proof.
  cbv zeta. unfold build_context. split; [|split; [|reflexivity]].
  - pose proof (last_n_length 30 (messages cs)) as H. unfold len in *.
    cbn [List.length]. rewrite length_app, length_map, H. cbn [List.length]. lia.
  - exists (firstn (len (messages cs) - 30) (messages cs)), (last_n 30 (messages cs)).
    split; [apply last_n_suffix|]. split; [apply last_n_length | reflexivity].
Qed.

(** X16. The history across submissions, as long as the session file can
    be written. A submission that returns has appended the user message and
    the assistant message, tagged with the provider that answered, to the
    messages of the session; so the context of the next submission ends with
    that prompt, that answer and the new prompt. A submission that raises
    has left the session as it was. *)
Theorem history_round_trip (py_repr json_dumps : json -> text) (env : Env)
  (prompt_text : text) (s : Sys) :
  saves_succeed env ->
  let '(outcome, s', events) := send_prompt py_repr json_dumps env prompt_text s in
  match outcome with
  | Returned a =>
      exists cs cs' t1 t2,
        current_session s = Some cs /\ current_session s' = Some cs'
        /\ session_id cs' = session_id cs
        /\ messages cs'
           = messages cs ++ [mkMessage (str "user") (JStr prompt_text) t1 None;
                             mkMessage (str "assistant") (answer_text a) t2
                                       (Some (answer_provider a))]
        /\ forall next,
             build_context (current_session s') next
             = (str "system", JStr SYSTEM_MSG)
               :: map as_context (last_n 28 (messages cs))
               ++ [(str "user", JStr prompt_text); (str "assistant", answer_text a);
                   (str "user", JStr next)]
  | _ => current_session s' = current_session s
  end.
Proof.
  intro Hsave.
  pose proof (send_prompt_history py_repr json_dumps env prompt_text s Hsave) as H.
  destruct (send_prompt py_repr json_dumps env prompt_text s) as [[outcome s'] events].
  destruct outcome as [a| | |last|e]; try exact H.
  destruct H as (cs & t1 & t2 & Hcs & Hcs').
  exists cs, (with_turn cs prompt_text (answer_text a) (answer_provider a) t1 t2), t1, t2.
  split; [exact Hcs|]. split; [exact Hcs'|]. split; [reflexivity|].
  assert (Hm : messages (with_turn cs prompt_text (answer_text a) (answer_provider a) t1 t2)
               = messages cs ++ [mkMessage (str "user") (JStr prompt_text) t1 None;
                                 mkMessage (str "assistant") (answer_text a) t2
                                           (Some (answer_provider a))]).
  { unfold with_turn, user_message, assistant_message. cbn [messages].
    now rewrite <- app_assoc. }
  split; [exact Hm|]. intro next. rewrite Hcs'. unfold build_context. rewrite Hm.
  rewrite last_n_app by (cbn; lia). cbn [len List.length Nat.sub].
  rewrite map_app, <- app_assoc. reflexivity.
Qed.

Lemma history_round_trip_witness :
  let '(outcome, s', events) :=
    send_prompt sample_repr sample_dumps (always (answer "hi") true) (str "q")
                (sys (start [chat_provider])) in
  option_map (fun c => map as_context (messages c)) (current_session s')
  = Some [(str "user", JStr (str "q")); (str "assistant", JStr (str "hi"))].
Proof.
  pose proof (history_round_trip sample_repr sample_dumps (always (answer "hi") true)
                (str "q") (sys (start [chat_provider])) (fun _ => eq_refl)) as H.
  destruct (send_prompt sample_repr sample_dumps (always (answer "hi") true) (str "q")
              (sys (start [chat_provider]))) as [[outcome s'] events] eqn:E.
  vm_compute in E. injection E as <- <- _.
  destruct H as (cs & cs' & t1 & t2 & Hcs & Hcs' & _ & Hm & _).
  rewrite Hcs'. cbn [option_map]. rewrite Hm. injection Hcs as <-. reflexivity.
Defined.

(** ** load_providers *)

Section SortMore.
Variable A : Type.
Variable key : A -> Z.

Lemma insert_perm (x : A) (l : list A) : Permutation (insert (key_le key) x l) (x :: l).
Proof.
  induction l as [|y l IH]; [apply Permutation_refl|]. cbn [insert].
  destruct (key_le key x y); [apply Permutation_refl|].
  apply (perm_trans (l' := y :: x :: l)); [now apply perm_skip | apply perm_swap].
Qed.

Lemma sort_perm (l : list A) : Permutation (sort (key_le key) l) l.
Proof.
  induction l as [|x l IH]; [apply Permutation_refl|]. cbn [sort].
  apply (perm_trans (l' := x :: sort (key_le key) l)); [apply insert_perm|].
  now apply perm_skip.
Qed.

(** Sorting a sorted list changes nothing. *)
Lemma sort_sorted_id (l : list A) :
  StronglySorted (key_order key) l -> sort (key_le key) l = l.
Proof.
  induction 1 as [|x l Hl IH Hx]; [reflexivity|]. cbn [sort]. rewrite IH.
  destruct l as [|y l']; [reflexivity|]. cbn [insert].
  inversion Hx as [|? ? Hy _]; subst. unfold key_order in Hy. unfold key_le.
  apply Z.leb_le in Hy. now rewrite Hy.
Qed.
End SortMore.

(** An entry after the three [setdefault] calls. *)
Definition defaulted (p : Provider) : Prop :=
  prov_id p <> None /\ priority p <> None /\ enabled p <> None.

Lemma set_defaults_defaulted (fresh : text) (p : Provider) : defaulted (set_defaults fresh p).
Proof. repeat split; discriminate. Qed.

Lemma set_defaults_fixed (fresh : text) (p : Provider) :
  defaulted p -> set_defaults fresh p = p.
Proof.
  intros (Hi & Hp & He). destruct p as [i n t b m k mt pr en du]. cbn in *.
  unfold set_defaults, get_priority, get_enabled. cbn.
  destruct i; [|congruence]. destruct pr; [|congruence]. destruct en; [|congruence].
  reflexivity.
Qed.

Lemma set_defaults_enabled (fresh : text) (p : Provider) :
  get_enabled (set_defaults fresh p) = get_enabled p.
Proof. reflexivity. Qed.

Lemma set_defaults_all_In (uuid8 : nat -> text) (raw : list Provider) :
  forall k p,
    In p (set_defaults_all uuid8 k raw)
    <-> exists n q, nth_error raw n = Some q /\ p = set_defaults (uuid8 (k + n)%nat) q.
Proof.
  induction raw as [|q raw IH]; intros k p; cbn [set_defaults_all In].
  - split; [tauto|]. intros ([|n] & q & H & _); discriminate.
  - rewrite IH. split.
    + intros [<- | (n & q' & Hn & ->)].
      * exists 0%nat, q. now rewrite Nat.add_0_r.
      * exists (S n), q'. split; [exact Hn|]. now rewrite Nat.add_succ_r.
    + intros ([|n] & q' & Hn & ->); cbn [nth_error] in Hn.
      * injection Hn as <-. left. now rewrite Nat.add_0_r.
      * right. exists n, q'. split; [exact Hn|]. now rewrite Nat.add_succ_r.
Qed.

Lemma set_defaults_all_enabled (uuid8 : nat -> text) (raw : list Provider) :
  forall k, len (filter get_enabled (set_defaults_all uuid8 k raw))
            = len (filter get_enabled raw).
Proof.
  induction raw as [|q raw IH]; intro k; [reflexivity|].
  cbn [set_defaults_all filter]. rewrite set_defaults_enabled.
  destruct (get_enabled q); cbn [len List.length]; [f_equal|]; apply IH.
Qed.

Lemma set_defaults_all_fixed (uuid8 : nat -> text) (l : list Provider) :
  Forall defaulted l -> forall k, set_defaults_all uuid8 k l = l.
Proof.
  induction 1 as [|p l Hp _ IH]; intro k; [reflexivity|].
  cbn [set_defaults_all]. now rewrite set_defaults_fixed, IH.
Qed.

(** X17. [load_providers] loses nothing and adds nothing: the loaded list
    is a rearrangement of the enabled entries of the file, each with its
    defaults set (enabled, priority 100, and as id the given one, else a
    name that is not empty, else the generated one) and every other key as
    it was written; it is in ascending priority, and its length is the
    number of enabled entries. Without the file the list is empty. *)
Theorem load_providers_spec (uuid8 : nat -> text) (raw : list Provider) :
  let loaded := load_providers uuid8 (Some raw) in
  Permutation loaded (filter get_enabled (set_defaults_all uuid8 0 raw))
  /\ (forall p, In p loaded <->
        exists n q, nth_error raw n = Some q /\ get_enabled q = true
                    /\ p = set_defaults (uuid8 n) q)
  /\ (forall fresh q,
        let p := set_defaults fresh q in
        enabled p = Some (dflt true (enabled q))
        /\ priority p = Some (dflt 100 (priority q))
        /\ prov_id p = Some (match prov_id q, prov_name q with
                             | Some i, _ => i
                             | None, Some (c :: n) => c :: n
                             | None, _ => fresh
                             end)
        /\ (prov_name p, prov_type p, base_url p, model p, api_key p, max_tokens p,
            _disabled_until p)
           = (prov_name q, prov_type q, base_url q, model q, api_key q, max_tokens q,
              _disabled_until q))
  /\ ascending loaded
  /\ len loaded = len (filter get_enabled raw)
  /\ load_providers uuid8 None = [].
Proof.
  cbv zeta. cbn [load_providers]. rewrite by_priority_key.
  split; [apply sort_perm|]. split; [|split; [|split; [|split; [|reflexivity]]]].
  - intro p. rewrite sort_In, filter_In, set_defaults_all_In. cbn [Nat.add]. split.
    + intros [(n & q & Hn & ->) He]. exists n, q. now repeat split.
    + intros (n & q & Hn & He & ->). split; [now exists n, q | exact He].
  - intros fresh q. cbv zeta. split; [reflexivity|]. split; [reflexivity|].
    split; [|reflexivity]. cbn [set_defaults prov_id].
    destruct (prov_id q) as [i|]; [reflexivity|].
    destruct (prov_name q) as [[|c n]|]; reflexivity.
  - apply sort_sorted.
  - rewrite <- (set_defaults_all_enabled uuid8 raw 0). unfold len.
    apply Permutation_length, sort_perm.
Qed.

(** X18. Loading is idempotent: a list that [load_providers] has returned,
    written back and loaded again (with whatever fresh identifiers), comes
    back unchanged, so the ids once generated are kept. *)
Theorem load_providers_idempotent (uuid8 uuid8' : nat -> text) (raw : list Provider) :
  load_providers uuid8' (Some (load_providers uuid8 (Some raw)))
  = load_providers uuid8 (Some raw).
Proof.
  set (loaded := load_providers uuid8 (Some raw)).
  assert (Hd : Forall defaulted loaded).
  { rewrite Forall_forall. intros p Hp. unfold loaded in Hp. cbn [load_providers] in Hp.
    rewrite by_priority_key in Hp. apply sort_In in Hp. apply filter_In in Hp as [Hp _].
    apply set_defaults_all_In in Hp as (n & q & _ & ->). apply set_defaults_defaulted. }
  cbn [load_providers]. rewrite (set_defaults_all_fixed uuid8' loaded Hd 0).
  rewrite (filter_all _ loaded (load_providers_enabled uuid8 (Some raw))).
  rewrite by_priority_key. apply sort_sorted_id.
  unfold loaded. cbn [load_providers]. rewrite by_priority_key. apply sort_sorted.
Qed.

(** ** minimalize_response: a text of one line, and fences in the result *)

Lemma one_line_dropwhile (f : ascii -> bool) (s : text) :
  one_line s -> one_line (dropwhile f s).
Proof.
  unfold one_line. induction s as [|c s IH]; intro H; [reflexivity|].
  cbn [dropwhile]. destruct (f c); [|exact H].
  apply IH. cbn [forallb] in H. now apply andb_true_iff in H as [_ H].
Qed.

Lemma rstrip_by_prefix (f : ascii -> bool) (s : text) :
  exists w, s = rstrip_by f s ++ w.
Proof.
  induction s as [|c s [w IH]]; [now exists []|]. cbn [rstrip_by].
  destruct (rstrip_by f s) as [|y r] eqn:E.
  - destruct (f c); [now exists (c :: s) | exists s; reflexivity].
  - exists w. cbn [app]. f_equal. exact IH.
Qed.

Lemma one_line_app_l (a b : text) : one_line (a ++ b) -> one_line a.
Proof.
  unfold one_line. rewrite forallb_app. intro H. now apply andb_true_iff in H as [H _].
Qed.

Lemma one_line_strip (s : text) : one_line s -> one_line (strip s).
Proof.
  intro H. unfold strip, rstrip, lstrip.
  destruct (rstrip_by_prefix is_space (dropwhile is_space s)) as [w Hw].
  apply (one_line_app_l _ w). rewrite <- Hw. now apply one_line_dropwhile.
Qed.

Lemma compressed_of_one_line (t : text) : one_line t -> compressed t = firstn 1200 (strip t).
Proof.
  intro H. unfold compressed. f_equal.
  destruct (strip t) as [|c s] eqn:E; [reflexivity|].
  rewrite splitlines_single; [reflexivity | | discriminate].
  rewrite <- E. now apply one_line_strip.
Qed.

(** X19. A text without a line break is never taken for code, even when it
    is a code-like line: the result is the line [// response (minimal)]
    followed by the text, stripped and cut to 1200 characters. *)
Theorem minimalize_response_one_line (t : text) :
  t <> [] ->
  one_line t ->
  minimalize_response (Some t)
  = (str "// response (minimal)" ++ [LF]) ++ firstn 1200 (strip t).
Proof.
  intros Hne Hone. rewrite (minimalize_response_nonempty t Hne).
  rewrite minimalize_text_no_fence
    by (apply findall_from_no_lf, one_line_no_lf, Hone).
  rewrite (splitlines_single t Hone Hne). cbn [filter].
  destruct (code_like t); cbn [len List.length Nat.leb];
    unfold minimal_form; now rewrite compressed_of_one_line.
Qed.

Lemma minimalize_response_one_line_witness :
  minimalize_response (Some (str "  x = 1 "))
  = str "// response (minimal)" ++ [LF] ++ str "x = 1".
Proof.
  rewrite (minimalize_response_one_line (str "  x = 1 ")); [reflexivity | discriminate
                                                            | reflexivity].
Defined.

(** *** The extracted block holds no fence *)

Lemma until_fence_no_fence (s g : text) :
  until_fence s = Some g -> contains FENCE g = false.
Proof.
  revert g. induction s as [|c r IH]; intros g; cbn [until_fence].
  - intro H. discriminate H.
  - destruct (startswith FENCE (c :: r)) eqn:E.
    + intro H. injection H as <-. reflexivity.
    + destruct (until_fence r) as [g'|] eqn:Eg; [|discriminate]. cbn [option_map].
      intro H. injection H as <-. cbn [contains]. rewrite (IH g' eq_refl), orb_false_r.
      destruct (startswith FENCE (c :: g')) eqn:Es; [|reflexivity].
      destruct (until_fence_split r g' Eg) as [rest Hr].
      apply (startswith_app_l _ _ (FENCE ++ rest)) in Es. cbn [app] in Es.
      rewrite <- Hr in Es. congruence.
Qed.

Lemma fence_at_no_fence (s g : text) (n : nat) :
  fence_at s = Some (g, n) -> contains FENCE g = false.
Proof.
  unfold fence_at. destruct (startswith FENCE s); [|discriminate].
  destruct (dropwhile is_word (skipn 3 s)) as [|c body]; [discriminate|].
  destruct (ascii_eqb c LF); [|discriminate].
  destruct (until_fence body) as [g'|] eqn:E; [|discriminate].
  intro H. injection H as <- _. now apply (until_fence_no_fence body).
Qed.

Lemma findall_from_no_fence (s : text) :
  forall k b, In b (findall_from k s) -> contains FENCE b = false.
Proof.
  induction s as [|c rest IH]; intros k b; cbn [findall_from]; [intros []|].
  destruct k as [|k]; [|apply IH].
  destruct (fence_at (c :: rest)) as [[g n]|] eqn:E; [|apply IH].
  intros [<- | Hin]; [now apply (fence_at_no_fence _ _ _ E) | now apply (IH _ _ Hin)].
Qed.

Lemma contains_prefix_false (p a b : text) :
  contains p (a ++ b) = false -> contains p a = false.
Proof.
  intro H. destruct (contains p a) eqn:E; [|reflexivity].
  now rewrite (contains_app_l p a b E) in H.
Qed.

Definition no_backquote (s : text) : Prop :=
  forallb (fun x => negb (ascii_eqb "`" x)) s = true.

Lemma startswith_fence_plain (x : ascii) (s : text) :
  ascii_eqb "`" x = false -> startswith FENCE (x :: s) = false.
Proof. intro H. unfold FENCE. cbn [str list_ascii_of_string startswith]. now rewrite H. Qed.

Lemma contains_fence_plain_prefix (p s : text) :
  no_backquote p -> contains FENCE (p ++ s) = contains FENCE s.
Proof.
  unfold no_backquote. induction p as [|x p IH]; intro H; [reflexivity|].
  cbn [forallb] in H. apply andb_true_iff in H as [Hx Hp]. apply negb_true_iff in Hx.
  cbn [app contains]. now rewrite (startswith_fence_plain _ _ Hx), IH.
Qed.

Lemma startswith_snoc_other (p a : text) (c : ascii) :
  forallb (fun x => negb (ascii_eqb x c)) p = true ->
  p <> [] ->
  startswith p (a ++ [c]) = startswith p a.
Proof.
  revert a. induction p as [|x p IH]; intros a H Hne; [congruence|].
  cbn [forallb] in H. apply andb_true_iff in H as [Hx Hp]. apply negb_true_iff in Hx.
  destruct a as [|y a]; cbn [app startswith].
  - now rewrite Hx.
  - destruct p as [|z p]; [now destruct a|]. rewrite IH; [reflexivity | exact Hp | discriminate].
Qed.

Lemma contains_fence_snoc (x : text) (c : ascii) :
  ascii_eqb "`" c = false -> contains FENCE x = false -> contains FENCE (x ++ [c]) = false.
Proof.
  intros Hc. assert (Hp : forallb (fun y => negb (ascii_eqb y c)) FENCE = true).
  { unfold FENCE. cbn [str list_ascii_of_string forallb]. now rewrite Hc. }
  induction x as [|y x IH]; intro H.
  - cbn [app contains]. now rewrite (startswith_fence_plain c [] Hc).
  - cbn [contains] in H. apply orb_false_iff in H as [H1 H2].
    cbn [app contains]. rewrite (IH H2), orb_false_r.
    change (y :: x ++ [c]) with ((y :: x) ++ [c]).
    now rewrite (startswith_snoc_other FENCE (y :: x) c Hp) by discriminate.
Qed.

Lemma no_fence_findall (s : text) :
  contains FENCE s = false -> forall k, findall_from k s = [].
Proof.
  induction s as [|c rest IH]; intros H k; [reflexivity|].
  cbn [contains] in H. apply orb_false_iff in H as [H1 H2].
  cbn [findall_from]. destruct k as [|k]; [|now apply IH].
  unfold fence_at. rewrite H1. now apply IH.
Qed.

(** X20. The extracted code holds no fence: when the text has a fenced
    block, the result starts with the line [// code (extracted)] and
    contains no run of three backquotes, so running [minimalize_response] on
    it finds no fenced block. *)
Theorem extracted_code_has_no_fence (t : text) :
  findall_fences t <> [] ->
  let out := minimalize_response (Some t) in
  startswith (str "// code (extracted)" ++ [LF]) out = true
  /\ contains (str "```") out = false
  /\ findall_fences out = [].
Proof.
  intro Hb. cbv zeta.
  assert (Hne : t <> []) by (intros ->; now apply Hb).
  rewrite (minimalize_response_nonempty t Hne). unfold minimalize_text.
  destruct (sort_longer_first_head _ Hb) as (pre & b & post & rest & E & Hs & _).
  rewrite Hs, extracted_form_eq.
  assert (Hno : contains FENCE (EXTRACTED ++ rstrip b ++ [LF]) = false).
  { rewrite contains_fence_plain_prefix by reflexivity.
    apply contains_fence_snoc; [reflexivity|].
    destruct (rstrip_by_prefix is_space b) as [w Hw]. apply (contains_prefix_false _ _ w).
    fold (rstrip b) in Hw. rewrite <- Hw.
    apply (findall_from_no_fence t 0). fold (findall_fences t). rewrite E.
    apply in_or_app. right. now left. }
  split; [apply startswith_app|]. split; [exact Hno|].
  now apply no_fence_findall.
Qed.

Lemma extracted_code_has_no_fence_witness :
  let out := minimalize_response (Some two_fences) in
  startswith (str "// code (extracted)" ++ [LF]) out = true
  /\ contains (str "```") out = false
  /\ findall_fences out = [].
Proof.
  apply (extracted_code_has_no_fence two_fences). vm_compute. discriminate.
Defined.

(** ** process_clip_as_prompt *)

Section SessionKept.

Variable py_repr : json -> text.
Variable json_dumps : json -> text.
Variable env : Env.
Variable context : list (text * json).
Variable prompt_text : text.

(** The loops neither create a session nor drop one. *)
Definition session_kept (r r' : Run) : Prop :=
  current_session (sys r) = None <-> current_session (sys r') = None.

Lemma one_attempt_session (i : nat) (prov : Provider) (k : nat) (r r1 : Run)
  (done : res Answer) :
  one_attempt py_repr json_dumps env i prov context prompt_text k r = (done, r1) ->
  session_kept r r1.
Proof.
  intro H. apply one_attempt_run in H as (_ & _ & _ & _ & Hs). unfold session_kept.
  destruct done as [a|e].
  - destruct Hs as (cs & t1 & t2 & H1 & H2 & _). rewrite H1, H2. split; discriminate.
  - destruct Hs as [-> | (_ & cs & x & t1 & t2 & H1 & H2)]; [tauto|].
    rewrite H1, H2. split; discriminate.
Qed.

Lemma attempts_session (i : nat) (prov : Provider) (todo : list nat) :
  forall (r r' : Run) (o : res (option Answer)),
    attempts py_repr json_dumps env i prov context prompt_text todo r = (o, r') ->
    session_kept r r'.
Proof.
  induction todo as [|k rest IH]; intros r r' o H.
  - cbn [attempts] in H. injection H as _ <-. unfold session_kept. tauto.
  - rewrite attempts_cons in H.
    destruct (one_attempt py_repr json_dumps env i prov context prompt_text k r)
      as [done r1] eqn:Hone.
    apply one_attempt_session in Hone. unfold session_kept in *.
    destruct done as [a|e]; [injection H as _ <-; exact Hone|].
    destruct (rate_limit_of e) as [secs|].
    + injection H as _ <-. unfold rate_limited, read_clock.
      destruct (float_of_int secs); cbn; exact Hone.
    + apply IH in H. cbn in H. tauto.
Qed.

Lemma dispatch_session (refs : list nat) :
  forall (r r' : Run) (o : res (option Answer)),
    dispatch py_repr json_dumps env context prompt_text refs r = (o, r') ->
    session_kept r r'.
Proof.
  induction refs as [|i rest IH]; intros r r' o H; cbn [dispatch] in H.
  - injection H as _ <-. unfold session_kept. tauto.
  - destruct (deref (providers (sys r)) i) as [prov|]; [|now apply IH in H].
    destruct (check_cooldown env prov r) as [c rc] eqn:Hc.
    assert (Hrc : current_session (sys rc) = current_session (sys r)).
    { destruct (check_cooldown_sys _ _ _ _ _ Hc) as [-> | ->]; reflexivity. }
    unfold session_kept in *. destruct c as [now | now].
    + unfold read_clock in H. cbn iota beta in H. apply IH in H. cbn in H.
      rewrite Hrc in H. exact H.
    + destruct (attempts py_repr json_dumps env i prov context prompt_text
                  (seq 1 MAX_PROVIDER_RETRIES) (emit (Select i now) rc))
        as [oa ra] eqn:Ha.
      apply attempts_session in Ha. unfold session_kept in Ha. cbn in Ha.
      rewrite Hrc in Ha.
      destruct oa as [[a|]|x]; [injection H as _ <-; exact Ha| |injection H as _ <-; exact Ha].
      apply IH in H. tauto.
Qed.

End SessionKept.

Lemma send_prompt_session (py_repr json_dumps : json -> text) (env : Env)
  (prompt_text : text) (s : Sys) :
  let '(outcome, s', events) := send_prompt py_repr json_dumps env prompt_text s in
  current_session s = None <-> current_session s' = None.
Proof.
  destruct (send_prompt_cases py_repr json_dumps env prompt_text s)
    as [[-> _] | [[-> _] | (o & r & Hd & ->)]]; try tauto.
  apply dispatch_session in Hd. exact Hd.
Qed.

Lemma send_prompt_preferred (py_repr json_dumps : json -> text) (env : Env)
  (prompt_text : text) (s : Sys) :
  let '(outcome, s', events) := send_prompt py_repr json_dumps env prompt_text s in
  preferred_provider_type s' = preferred_provider_type s.
Proof.
  destruct (send_prompt_frame py_repr json_dumps env prompt_text s)
    as (outcome & r & -> & Hpref & _). exact Hpref.
Qed.

Lemma start_session_run (env : Env) (sid name : text) (r r' : Run) (x : res Session) :
  start_session env sid name r = (x, r') ->
  let cs := mkSession sid (name ++ str "_" ++ sid)
                      (int_of_time (time_at env (clock_reads (sys r)))) [] in
  sys r' = mkSys (providers (sys r)) (Some cs) (preferred_provider_type (sys r))
                 (S (clock_reads (sys r))) (posts (sys r)) (S (saves (sys r)))
  /\ trace r' = trace r ++ [Saved (save_ok env (saves (sys r)))]
  /\ x = if save_ok env (saves (sys r)) then Ok cs else Raise (plain OSError).
Proof.
  unfold start_session, now_ts, read_clock, save_session, with_sys, emit, set_session,
    ticked, written.
  cbn [sys trace last_exc providers current_session preferred_provider_type clock_reads
       posts saves].
  destruct (save_ok env (saves (sys r))); intro H; injection H as <- <-; now repeat split.
Qed.

Lemma process_clip_done (py_repr json_dumps : json -> text) (env : Env)
  (sid prompt_text : text) (a a1 : App) (ans : Answer) (events : list Event) :
  process_clip_as_prompt py_repr json_dumps env sid prompt_text a = (Done ans, a1, events) ->
  exists m, clock_reads (app_sys a1) = S m /\ last_response_time a1 = time_at env m.
Proof.
  unfold process_clip_as_prompt, read_clock. cbn [sys clock_reads with_sys].
  destruct (Qltb _ 2); [discriminate|].
  assert (Hsend : forall (r2 : Run) (pre : list Event),
            (let '(outcome, s3, ev) :=
               send_prompt py_repr json_dumps env prompt_text (sys r2) in
             match outcome with
             | Returned x =>
                 (Done x,
                  mkApp (ticked s3) (mode a) (last_clip a) (time_at env (clock_reads s3))
                        (running a), pre ++ ev)
             | _ => (SendFailed outcome, with_app_sys s3 a, pre ++ ev)
             end) = (Done ans, a1, events) ->
            exists m, clock_reads (app_sys a1) = S m
                      /\ last_response_time a1 = time_at env m).
  { intros r2 pre.
    destruct (send_prompt py_repr json_dumps env prompt_text (sys r2)) as [[o s3] ev].
    destruct o; intro H; try discriminate H. injection H as _ <- _.
    now exists (clock_reads s3). }
  destruct (current_session (ticked (app_sys a))) as [cs|]; cbv iota beta.
  - apply (Hsend (with_sys ticked (mkRun (app_sys a) None []))).
  - destruct (start_session env sid (str "local_session") _) as [[cs|e] r2];
      cbn [bind]; cbv iota beta; [apply Hsend | discriminate].
Qed.

(** X21. The two-second spacing. After a prompt that was answered, a prompt
    that arrives less than two seconds after the reading of the clock that
    closed the first one is dropped: the clock is read once and nothing else
    happens; nothing is sent, and the time of the last answer stays. *)
Theorem prompts_are_spaced (py_repr json_dumps : json -> text) (env : Env)
  (sid prompt_text sid' prompt_text' : text) (a a1 : App) (ans : Answer)
  (events : list Event) :
  process_clip_as_prompt py_repr json_dumps env sid prompt_text a = (Done ans, a1, events) ->
  (Qminus (time_at env (clock_reads (app_sys a1)))
          (time_at env (pred (clock_reads (app_sys a1)))) < 2)%Q ->
  last_response_time a1 = time_at env (pred (clock_reads (app_sys a1)))
  /\ process_clip_as_prompt py_repr json_dumps env sid' prompt_text' a1
     = (TooSoon, with_app_sys (ticked (app_sys a1)) a1, []).
Proof.
  intros H Hlt. apply process_clip_done in H as (m & Hm & Hl).
  rewrite Hm in Hlt |- *. cbn [pred] in *. split; [exact Hl|].
  unfold process_clip_as_prompt, read_clock. cbn [sys clock_reads with_sys].
  rewrite Hm, Hl. apply Qltb_lt in Hlt. now rewrite Hlt.
Qed.

Definition first_prompt : App :=
  initial_app [chat_provider].

Definition after_first_prompt : App :=
  snd (fst (process_clip_as_prompt sample_repr sample_dumps (always (answer "hi") true)
              (str "1b9d6bcd") (str "q") first_prompt)).

Lemma prompts_are_spaced_witness :
  process_clip_as_prompt sample_repr sample_dumps (always (answer "hi") true)
                         (str "0f3a9c2e") (str "again") after_first_prompt
  = (TooSoon, with_app_sys (ticked (app_sys after_first_prompt)) after_first_prompt, []).
Proof.
  destruct (process_clip_as_prompt sample_repr sample_dumps (always (answer "hi") true)
              (str "1b9d6bcd") (str "q") first_prompt) as [[handled a1] events] eqn:E.
  assert (Ea : after_first_prompt = a1) by (unfold after_first_prompt; now rewrite E).
  rewrite Ea.
  assert (Eh : exists ans, handled = Done ans).
  { vm_compute in E. injection E as <- _ _. now eexists. }
  destruct Eh as [ans ->].
  apply (prompts_are_spaced sample_repr sample_dumps (always (answer "hi") true)
           (str "1b9d6bcd") (str "q") (str "0f3a9c2e") (str "again")
           first_prompt a1 ans events E).
  rewrite <- Ea. vm_compute. reflexivity.
Defined.

(** X22. A prompt that is handled. The mode, the last clipboard text, the
    running flag and the preferred type are not touched. Afterwards there is
    a session: one is started when there was none, and it stays even when
    its file could not be written, in which case nothing is sent. The time
    of the last answer changes only when [send_prompt] returned, to a
    reading of the clock taken after it; after a failure the next prompt is
    not held back. No exception leaves the function. *)
Theorem process_clip_handled (py_repr json_dumps : json -> text) (env : Env)
  (sid prompt_text : text) (a a' : App) (handled : Handled) (events : list Event) :
  process_clip_as_prompt py_repr json_dumps env sid prompt_text a = (handled, a', events) ->
  handled <> TooSoon ->
  (2 <= Qminus (time_at env (clock_reads (app_sys a))) (last_response_time a))%Q
  /\ mode a' = mode a /\ last_clip a' = last_clip a /\ running a' = running a
  /\ preferred_provider_type (app_sys a') = preferred_provider_type (app_sys a)
  /\ current_session (app_sys a') <> None
  /\ match handled with
     | Done ans =>
         exists m, (clock_reads (app_sys a) < m)%nat
                   /\ clock_reads (app_sys a') = S m
                   /\ last_response_time a' = time_at env m
     | StartFailed e =>
         e = plain OSError /\ current_session (app_sys a) = None
         /\ posts (app_sys a') = posts (app_sys a)
         /\ events = [Saved false]
         /\ last_response_time a' = last_response_time a
     | _ => last_response_time a' = last_response_time a
     end.
Proof.
  unfold process_clip_as_prompt, read_clock. cbn [sys clock_reads with_sys].
  destruct (Qltb _ 2) eqn:E2; [intro H; injection H as <- _ _; congruence|].
  apply Qltb_ge in E2.
  set (r1 := with_sys ticked (mkRun (app_sys a) None [])).
  assert (Hsend : forall r2 : Run,
            preferred_provider_type (sys r2) = preferred_provider_type (app_sys a) ->
            current_session (sys r2) <> None ->
            (clock_reads (app_sys a) < clock_reads (sys r2))%nat ->
            forall pre,
            (let '(outcome, s3, ev) :=
               send_prompt py_repr json_dumps env prompt_text (sys r2) in
             match outcome with
             | Returned ans =>
                 (Done ans,
                  mkApp (ticked s3) (mode a) (last_clip a) (time_at env (clock_reads s3))
                        (running a), pre ++ ev)
             | _ => (SendFailed outcome, with_app_sys s3 a, pre ++ ev)
             end) = (handled, a', events) ->
            mode a' = mode a /\ last_clip a' = last_clip a /\ running a' = running a
            /\ preferred_provider_type (app_sys a') = preferred_provider_type (app_sys a)
            /\ current_session (app_sys a') <> None
            /\ match handled with
               | Done ans =>
                   exists m, (clock_reads (app_sys a) < m)%nat
                             /\ clock_reads (app_sys a') = S m
                             /\ last_response_time a' = time_at env m
               | StartFailed e => False
               | _ => last_response_time a' = last_response_time a
               end).
  { intros r2 Hpref Hcs Hclk pre.
    pose proof (send_prompt_session py_repr json_dumps env prompt_text (sys r2)) as Hs.
    pose proof (send_prompt_preferred py_repr json_dumps env prompt_text (sys r2)) as Hp.
    pose proof (send_prompt_frame py_repr json_dumps env prompt_text (sys r2))
      as (o' & r3 & E3 & _ & Hk & _).
    destruct (send_prompt py_repr json_dumps env prompt_text (sys r2))
      as [[outcome s3] ev].
    injection E3 as _ -> _. cbn [sys clock_reads] in Hk.
    destruct outcome as [ans| | |last|x]; intro H; injection H as <- <- _;
      cbn [mode last_clip running app_sys with_app_sys last_response_time ticked
           preferred_provider_type current_session clock_reads];
      repeat (split; [first [reflexivity | congruence | tauto]|]);
      try reflexivity.
    exists (clock_reads (sys r3)). repeat split. lia. }
  destruct (current_session (ticked (app_sys a))) as [cs|] eqn:Hcs; cbv iota beta.
  - intros H Hne.
    destruct (Hsend r1) with (pre := trace r1) as (H1 & H2 & H3 & H4 & H5 & H6);
      [reflexivity | unfold r1; cbn [sys with_sys]; congruence | cbn; lia | exact H |].
    split; [exact E2|].
    repeat (split; [assumption|]). destruct handled; try assumption. contradiction.
  - destruct (start_session env sid (str "local_session") r1) as [x r2] eqn:Hstart.
    apply start_session_run in Hstart as (Hsys & Htr & Hx).
    cbn [r1 with_sys sys trace app ticked providers preferred_provider_type clock_reads
         posts saves] in Hsys, Hx, Htr.
    destruct (save_ok env (saves (app_sys a))); subst x; cbn [bind]; cbv iota beta.
    + intros H Hne.
      destruct (Hsend r2) with (pre := trace r2) as (H1 & H2 & H3 & H4 & H5 & H6);
        [now rewrite Hsys | rewrite Hsys; discriminate | rewrite Hsys; cbn; lia | exact H |].
      split; [exact E2|].
    repeat (split; [assumption|]). destruct handled; try assumption. contradiction.
    + intros H Hne. injection H as <- <- <-.
      cbn [mode last_clip running app_sys with_app_sys last_response_time].
      rewrite Hsys, Htr. cbn [providers current_session preferred_provider_type posts app].
      repeat split; try reflexivity; try discriminate; [exact E2 | now cbn in Hcs].
Qed.

Lemma process_clip_handled_witness :
  exists ans a' events,
    process_clip_as_prompt sample_repr sample_dumps (always (answer "hi") true)
                           (str "1b9d6bcd") (str "q") first_prompt
    = (Done ans, a', events)
    /\ option_map session_id (current_session (app_sys a')) = Some (str "1b9d6bcd")
    /\ last_response_time a' = inject_Z 1700000004.
Proof.
  destruct (process_clip_as_prompt sample_repr sample_dumps (always (answer "hi") true)
              (str "1b9d6bcd") (str "q") first_prompt) as [[handled a'] events] eqn:E.
  pose proof (process_clip_handled sample_repr sample_dumps (always (answer "hi") true)
                (str "1b9d6bcd") (str "q") first_prompt a' handled events E) as H.
  vm_compute in E. injection E as <- <- <-.
  destruct H as (_ & _ & _ & _ & _ & _ & m & _ & Hm & Hl); [discriminate|].
  eexists _, _, _. split; [reflexivity|]. split; [reflexivity|].
  cbn [app_sys clock_reads] in Hm. injection Hm as <-. rewrite Hl. reflexivity.
Defined.

(** ** clipboard_watcher *)

(** The texts that set the preferred type or the mode, by their beginning
    in lower case. *)
Definition control_text (lo : text) : bool :=
  startswith (str "model.gem") lo || startswith (str "model.openr") lo
  || startswith (str "agent.promptall") lo || startswith (str "agent.promptone") lo
  || startswith (str "agent.prompt off") lo.

Definition is_trigger (e : ClipEvent) : bool :=
  match e with
  | TriggerAll _ | TriggerInline _ => true
  | _ => false
  end.

Lemma text_eqb_startswith (lo p : text) : text_eqb lo p = true -> startswith p lo = true.
Proof.
  intro H. apply text_eqb_eq in H. subst lo. rewrite <- (app_nil_r p) at 2.
  apply startswith_app.
Qed.

Lemma or_eqb_startswith (lo p : text) :
  startswith p lo || text_eqb lo p = startswith p lo.
Proof.
  destruct (startswith p lo) eqn:E; [reflexivity|]. cbn [orb].
  destruct (text_eqb lo p) eqn:E2; [|reflexivity].
  apply text_eqb_startswith in E2. congruence.
Qed.

(** The poll of a text that is new and not empty, by the tests of the loop. *)
Lemma clipboard_poll_new (pasted : option text) (a : App) :
  let txt := or_text pasted [] in
  let lo := lower (strip txt) in
  txt <> [] ->
  text_eqb txt (last_clip a) = false ->
  clipboard_poll pasted a
  = if startswith (str "model.gem") lo then
      (PreferGemini, set_preferred (str "gemini") (set_last_clip txt a))
    else if startswith (str "model.openr") lo then
      (PreferOpenRouter, set_preferred (str "openrouter") (set_last_clip txt a))
    else if startswith (str "agent.promptall") lo then
      (PromptAllOn, set_mode (str "all") (set_last_clip txt a))
    else if startswith (str "agent.promptone") lo
            || startswith (str "agent.prompt off") lo then
      (PromptOff, set_mode (str "off") (set_last_clip txt a))
    else if text_eqb (mode a) (str "all") then
      (TriggerAll (strip txt), set_last_clip txt a)
    else if startswith (str "agent.prompt") lo then
      match strip (strip_agent_prompt (strip txt)) with
      | [] => (TokenSeen, set_last_clip txt a)
      | _ => (TriggerInline (strip_agent_prompt (strip txt)), set_last_clip txt a)
      end
    else (NotForTheBot, set_last_clip txt a).
Proof.
  intros txt lo Hne Hnew. unfold clipboard_poll. fold txt.
  destruct txt as [|c s] eqn:E; [congruence|]. rewrite Hnew. cbv zeta. fold lo.
  rewrite !or_eqb_startswith. reflexivity.
Qed.

Lemma clipboard_poll_same (pasted : option text) (a : App) :
  or_text pasted [] = [] \/ last_clip a = or_text pasted [] ->
  clipboard_poll pasted a = (Unchanged, a).
Proof.
  intros [H | H]; unfold clipboard_poll.
  - now rewrite H.
  - destruct (or_text pasted []) as [|c s]; [reflexivity|].
    now rewrite H, text_eqb_refl.
Qed.

Lemma clipboard_poll_last_clip (pasted : option text) (a : App) :
  or_text pasted [] <> [] ->
  last_clip (snd (clipboard_poll pasted a)) = or_text pasted [].
Proof.
  intro Hne. destruct (text_eqb (or_text pasted []) (last_clip a)) eqn:E.
  - apply text_eqb_eq in E. rewrite clipboard_poll_same by (right; congruence).
    cbn [snd]. congruence.
  - rewrite (clipboard_poll_new pasted a Hne E).
    repeat match goal with
           | |- context [if ?b then _ else _] => destruct b
           | |- context [match ?x with [] => _ | _ :: _ => _ end] => destruct x
           end; reflexivity.
Qed.

(** X23. A text is handled once: polling the clipboard again while it holds
    the same text does nothing, whatever the text is and whatever it
    triggered the first time. *)
Theorem clipboard_text_is_handled_once (pasted : option text) (a : App) :
  let '(e, a') := clipboard_poll pasted a in
  clipboard_poll pasted a' = (Unchanged, a').
Proof.
  pose proof (clipboard_poll_last_clip pasted a) as H.
  destruct (clipboard_poll pasted a) as [e a'] eqn:E. cbn [snd] in H.
  apply clipboard_poll_same.
  destruct (or_text pasted []) as [|c s] eqn:Et; [now left|].
  right. apply H. discriminate.
Qed.

(** X24. The control texts are never sent as prompts, in either mode: a
    new text that begins (white space and letter case apart) with
    [model.gem], [model.openr], [agent.promptall], [agent.promptone] or
    [agent.prompt off] sets the preferred type or the mode, the first of
    these tests that holds deciding, and no task is created. So a prompt
    that begins with "agent.prompt off", such as "agent.prompt offer a
    fix", switches the mode off and is dropped. *)
Theorem control_texts_are_not_prompts (pasted : option text) (a : App) :
  let txt := or_text pasted [] in
  let lo := lower (strip txt) in
  txt <> [] ->
  text_eqb txt (last_clip a) = false ->
  control_text lo = true ->
  clipboard_poll pasted a
  = (if startswith (str "model.gem") lo then
       (PreferGemini, set_preferred (str "gemini") (set_last_clip txt a))
     else if startswith (str "model.openr") lo then
       (PreferOpenRouter, set_preferred (str "openrouter") (set_last_clip txt a))
     else if startswith (str "agent.promptall") lo then
       (PromptAllOn, set_mode (str "all") (set_last_clip txt a))
     else (PromptOff, set_mode (str "off") (set_last_clip txt a)))
  /\ is_trigger (fst (clipboard_poll pasted a)) = false.
Proof.
  intros txt lo Hne Hnew Hc.
  rewrite (clipboard_poll_new pasted a Hne Hnew). fold txt lo.
  unfold control_text in Hc.
  destruct (startswith (str "model.gem") lo); [now split|].
  destruct (startswith (str "model.openr") lo); [now split|].
  destruct (startswith (str "agent.promptall") lo); [now split|].
  cbn [orb] in Hc. rewrite Hc. now split.
Qed.

Definition listening (m : string) : App :=
  mkApp (mkSys [chat_provider] (Some fresh_session) (str "openrouter") 0 0 0)
        (str m) (str "something copied before") 0%Q true.

Lemma control_texts_are_not_prompts_witness :
  clipboard_poll (Some (str " Agent.Prompt offer a fix")) (listening "all")
  = (PromptOff,
     set_mode (str "off")
       (set_last_clip (str " Agent.Prompt offer a fix") (listening "all"))).
Proof.
  destruct (control_texts_are_not_prompts (Some (str " Agent.Prompt offer a fix"))
              (listening "all")) as [H _];
    [discriminate | reflexivity | reflexivity | exact H].
Defined.

Lemma lower_app (a b : text) : lower (a ++ b) = lower a ++ lower b.
Proof. apply map_app. Qed.

Lemma lower_length (a : text) : List.length (lower a) = List.length a.
Proof. apply length_map. Qed.

(** X25. An inline prompt. A new text made of [agent.prompt] in any letter
    case, then colons and white space, then the prompt, that is none of the
    control texts: with the mode off the task gets the prompt alone, or, if
    nothing follows the token, no task is created; with the mode "all" the
    task gets the whole text, token included. Only [last_clip] changes. *)
Theorem inline_prompt (prefix sep body : text) (a : App) :
  let txt := prefix ++ sep ++ body in
  lower prefix = str "agent.prompt" ->
  forallb is_sep sep = true ->
  match body with [] => True | c :: _ => is_sep c = false end ->
  strip txt = txt ->
  control_text (lower txt) = false ->
  text_eqb txt (last_clip a) = false ->
  clipboard_poll (Some txt) a
  = (if text_eqb (mode a) (str "all") then TriggerAll txt
     else match body with
          | [] => TokenSeen
          | _ => TriggerInline body
          end,
     set_last_clip txt a).
Proof.
  intros txt Hp Hsep Hbody Hstrip Hc Hnew.
  assert (Hlen : List.length prefix = 12%nat).
  { rewrite <- lower_length, Hp. reflexivity. }
  assert (Hne : or_text (Some txt) [] <> []).
  { rewrite or_text_some. unfold txt. destruct prefix; [discriminate Hlen | discriminate]. }
  pose proof (clipboard_poll_new (Some txt) a Hne) as H.
  cbv zeta in H. rewrite or_text_some, Hstrip in H. rewrite (H Hnew). clear H.
  unfold control_text in Hc. repeat (apply orb_false_iff in Hc as [Hc ?]).
  repeat match goal with Hx : startswith _ (lower txt) = false |- _ =>
           rewrite Hx; clear Hx end.
  cbn [orb]. destruct (text_eqb (mode a) (str "all")); [reflexivity|].
  assert (Hst : startswith (str "agent.prompt") (lower txt) = true).
  { unfold txt. rewrite lower_app, Hp. apply startswith_app. }
  rewrite Hst. unfold strip_agent_prompt. rewrite Hst.
  assert (Hrest : dropwhile is_sep (skipn 12 txt) = body).
  { unfold txt. rewrite <- Hlen, skipn_prefix.
    destruct (takewhile_app is_sep sep body Hsep) as [_ Hd]; [|exact Hd].
    destruct body; [exact I | exact Hbody]. }
  rewrite Hrest. destruct body as [|c body']; [reflexivity|].
  assert (Hsp : is_space c = false).
  { unfold is_sep in Hbody. now apply orb_false_iff in Hbody as [_ Hbody]. }
  pose proof (strip_head c body' Hsp) as Hnb.
  destruct (strip (c :: body')); [congruence | reflexivity].
Qed.

Lemma inline_prompt_witness :
  clipboard_poll (Some (str "Agent.Prompt:  fix the loop")) (listening "off")
  = (TriggerInline (str "fix the loop"),
     set_last_clip (str "Agent.Prompt:  fix the loop") (listening "off"))
  /\ clipboard_poll (Some (str "Agent.Prompt:  fix the loop")) (listening "all")
     = (TriggerAll (str "Agent.Prompt:  fix the loop"),
        set_last_clip (str "Agent.Prompt:  fix the loop") (listening "all")).
Proof.
  split.
  - apply (inline_prompt (str "Agent.Prompt") (str ":  ") (str "fix the loop")
             (listening "off")); reflexivity.
  - apply (inline_prompt (str "Agent.Prompt") (str ":  ") (str "fix the loop")
             (listening "all")); reflexivity.
Defined.

(** X26. The bare token arms nothing. After the line "'agent.prompt' token
    seen - waiting for next clipboard copy for the actual prompt" only
    [last_clip] has changed, and the next text is not taken for the prompt:
    unless it is itself a control text or begins with [agent.prompt], no
    task is created for it. *)
Theorem token_arms_nothing (pasted : option text) (a : App) :
  fst (clipboard_poll pasted a) = TokenSeen ->
  snd (clipboard_poll pasted a) = set_last_clip (or_text pasted []) a
  /\ forall next,
       let lo := lower (strip (or_text next [])) in
       control_text lo = false ->
       startswith (str "agent.prompt") lo = false ->
       fst (clipboard_poll next (snd (clipboard_poll pasted a))) = Unchanged
       \/ fst (clipboard_poll next (snd (clipboard_poll pasted a))) = NotForTheBot.
Proof.
  intro H.
  destruct (text_eqb (or_text pasted []) (last_clip a)) eqn:Enew.
  { apply text_eqb_eq in Enew. rewrite clipboard_poll_same in H by (right; congruence).
    discriminate H. }
  destruct (or_text pasted []) as [|c s] eqn:Et.
  { rewrite clipboard_poll_same in H by (left; exact Et). discriminate H. }
  assert (Hne : or_text pasted [] <> []) by (rewrite Et; discriminate).
  rewrite <- Et in Enew. pose proof (clipboard_poll_new pasted a Hne Enew) as Hp.
  cbv zeta in Hp. rewrite Hp in H |- *. rewrite <- Et. clear Hp.
  set (txt := or_text pasted []) in *.
  destruct (startswith (str "model.gem") (lower (strip txt))); [discriminate H|].
  destruct (startswith (str "model.openr") (lower (strip txt))); [discriminate H|].
  destruct (startswith (str "agent.promptall") (lower (strip txt))); [discriminate H|].
  destruct (startswith (str "agent.promptone") (lower (strip txt))
            || startswith (str "agent.prompt off") (lower (strip txt))); [discriminate H|].
  destruct (text_eqb (mode a) (str "all")) eqn:Em; [discriminate H|].
  destruct (startswith (str "agent.prompt") (lower (strip txt))); [|discriminate H].
  destruct (strip (strip_agent_prompt (strip txt))); [|discriminate H].
  cbn [snd]. split; [reflexivity|]. intros next Hc Hs.
  set (lo := lower (strip (or_text next []))) in *.
  destruct (text_eqb (or_text next []) (last_clip (set_last_clip txt a))) eqn:En.
  { apply text_eqb_eq in En. left. now rewrite clipboard_poll_same by (right; congruence). }
  destruct (or_text next []) as [|d u] eqn:Eu.
  { left. now rewrite clipboard_poll_same by (left; exact Eu). }
  right. assert (Hnn : or_text next [] <> []) by (rewrite Eu; discriminate).
  rewrite <- Eu in En. rewrite (clipboard_poll_new next _ Hnn En).
  rewrite Eu. fold lo. unfold control_text in Hc.
  repeat (apply orb_false_iff in Hc as [Hc ?]).
  repeat match goal with Hx : startswith _ lo = false |- _ => rewrite Hx; clear Hx end.
  cbn [orb set_last_clip mode]. now rewrite Em.
Qed.

Lemma token_arms_nothing_witness :
  fst (clipboard_poll (Some (str "the actual prompt"))
         (snd (clipboard_poll (Some (str "agent.prompt")) (listening "off"))))
  = Unchanged
  \/ fst (clipboard_poll (Some (str "the actual prompt"))
            (snd (clipboard_poll (Some (str "agent.prompt")) (listening "off"))))
     = NotForTheBot.
Proof.
  destruct (token_arms_nothing (Some (str "agent.prompt")) (listening "off") eq_refl)
    as [_ H].
  apply (H (Some (str "the actual prompt"))); reflexivity.
Defined.

(** ** stdin_loop *)

Lemma dropwhile_nil_forallb (f : ascii -> bool) (s : text) :
  dropwhile f s = [] -> forallb f s = true.
Proof.
  induction s as [|c s IH]; [reflexivity|]. cbn [dropwhile forallb].
  destruct (f c); [exact IH | discriminate].
Qed.

(** A stripped text does not end with white space. *)
Lemma strip_no_trailing_space (l r : text) (c : ascii) :
  strip l = r ++ [c] -> is_space c = false.
Proof. apply rstrip_no_trailing_space. Qed.

(** After a word and a blank, a stripped command has a second part. *)
Lemma split_first_rest (l word rest : text) :
  strip l = word ++ " "%char :: rest ->
  word <> [] ->
  forallb (fun c => negb (is_space c)) word = true ->
  snd (split_first (strip l)) = Some (lstrip rest) /\ lstrip rest <> [].
Proof.
  intros Hcmd Hw Hword.
  assert (Hrest : lstrip rest <> []).
  { intro Hn. apply dropwhile_nil_forallb in Hn.
    destruct (exists_last (l := " "%char :: rest)) as (r & c & Hl); [discriminate|].
    assert (Hc : is_space c = true).
    { assert (Hall : forallb is_space (" "%char :: rest) = true) by (cbn [forallb]; exact Hn).
      rewrite Hl, forallb_app in Hall. apply andb_true_iff in Hall as [_ Hall].
      cbn [forallb] in Hall. now rewrite andb_true_r in Hall. }
    rewrite Hl, app_assoc in Hcmd. apply strip_no_trailing_space in Hcmd. congruence. }
  split; [|exact Hrest].
  unfold split_first. rewrite Hcmd.
  assert (Hl : lstrip (word ++ " "%char :: rest) = word ++ " "%char :: rest).
  { unfold lstrip. destruct word as [|w word']; [congruence|]. cbn [app dropwhile].
    cbn [forallb] in Hword. apply andb_true_iff in Hword as [Hw0 _].
    apply negb_true_iff in Hw0. now rewrite Hw0. }
  rewrite Hl.
  destruct (takewhile_app (fun c => negb (is_space c)) word (" "%char :: rest) Hword)
    as [_ Hd]; [reflexivity|].
  rewrite Hd. change (lstrip (" "%char :: rest)) with (lstrip rest).
  destruct (lstrip rest); [congruence | reflexivity].
Qed.

Lemma startswith_split (p s : text) :
  startswith p s = true -> exists rest, s = p ++ rest.
Proof. intro H. exists (skipn (List.length p) s). now apply startswith_skipn. Qed.

(** X27. The console. The unpacking [_, val = cmd.split(None, 1)] never
    fails, so the only exception that can leave the loop is the one of
    [start_session]. [quit], [exit] and the end of the input clear
    [running], after which the clipboard loop polls no more. An empty line,
    [help], [status], [providers], a rejected [mode] or [model] and an
    unknown command change nothing. *)
Theorem stdin_command_spec (env : Env) (sid : text) (line : option text) (a : App) :
  let '(e, a') := stdin_command env sid line a in
  e <> Crashed UnpackError
  /\ (e = ShutDown
      <-> strip (match line with Some l => l | None => str "quit" end) = str "quit"
          \/ strip (match line with Some l => l | None => str "quit" end) = str "exit")
  /\ (e = ShutDown ->
      a' = set_running false a
      /\ forall pastes, clipboard_watcher pastes a' = ([], a'))
  /\ match e with
     | NoCommand | HelpShown | StatusShown _ _ _ _ | ProvidersListed _
     | ModeRejected | ModelRejected | UnknownCommand => a' = a
     | _ => True
     end.
Proof.
  unfold stdin_command.
  set (cmd := strip (match line with Some l => l | None => str "quit" end)).
  assert (Hstop : forall pastes, clipboard_watcher pastes (set_running false a)
                                 = ([], set_running false a)).
  { intros [|p pastes]; reflexivity. }
  assert (Hsplit : forall word, word <> [] ->
            forallb (fun c => negb (is_space c)) word = true ->
            startswith (word ++ str " ") cmd = true ->
            snd (split_first cmd) <> None).
  { intros word Hw Hword Hs. apply startswith_split in Hs as [rest Hs].
    rewrite <- app_assoc in Hs. cbn [str list_ascii_of_string app] in Hs.
    destruct (split_first_rest _ word rest Hs Hw Hword) as [E _].
    fold cmd in E. rewrite E. discriminate. }
  destruct cmd as [|c s] eqn:Ecmd.
  { repeat split; try discriminate. intros [H | H]; discriminate. }
  rewrite <- Ecmd in *.
  destruct (text_eqb cmd (str "h") || text_eqb cmd (str "help")) eqn:E1.
  { apply orb_true_iff in E1 as [E1 | E1]; apply text_eqb_eq in E1; rewrite E1;
      repeat split; try discriminate; intros [H | H]; discriminate. }
  destruct (text_eqb cmd (str "status")) eqn:E2.
  { apply text_eqb_eq in E2; rewrite E2;
      repeat split; try discriminate; intros [H | H]; discriminate. }
  destruct (text_eqb cmd (str "new")) eqn:E3.
  { apply text_eqb_eq in E3; rewrite E3.
    destruct (start_session env sid (str "local_session") _) as [[cs|e] r];
      repeat split; try discriminate; intros [H | H]; discriminate. }
  destruct (text_eqb cmd (str "providers")) eqn:E4.
  { apply text_eqb_eq in E4; rewrite E4;
      repeat split; try discriminate; intros [H | H]; discriminate. }
  assert (Hq : forall w, startswith (w ++ str " ") cmd = true ->
                         w = str "mode" \/ w = str "model" ->
                         ~ (cmd = str "quit" \/ cmd = str "exit")).
  { intros w Hs Hw [H | H]; rewrite H in Hs; destruct Hw as [-> | ->]; discriminate. }
  destruct (startswith (str "mode ") cmd) eqn:E5.
  { pose proof (Hsplit (str "mode") ltac:(discriminate) eq_refl E5) as Hv.
    pose proof (Hq (str "mode") E5 (or_introl eq_refl)) as Hnq.
    destruct (snd (split_first cmd)) as [val|]; [|congruence].
    destruct (text_eqb val (str "all"));
      [repeat split; try discriminate; tauto|].
    destruct (text_eqb val (str "off") || text_eqb val (str "one"));
      repeat split; try discriminate; tauto. }
  destruct (startswith (str "model ") cmd) eqn:E6.
  { pose proof (Hsplit (str "model") ltac:(discriminate) eq_refl E6) as Hv.
    pose proof (Hq (str "model") E6 (or_intror eq_refl)) as Hnq.
    destruct (snd (split_first cmd)) as [val|]; [|congruence].
    destruct (text_eqb val (str "gem"));
      [repeat split; try discriminate; tauto|].
    destruct (text_eqb val (str "openr"));
      repeat split; try discriminate; tauto. }
  destruct (text_eqb cmd (str "quit") || text_eqb cmd (str "exit")) eqn:E7.
  - apply orb_true_iff in E7. rewrite !text_eqb_eq in E7.
    repeat split; try discriminate; tauto.
  - apply orb_false_iff in E7 as [E7 E8].
    repeat split; try discriminate.
    intros [H | H]; rewrite H in *; discriminate.
Qed.

(** ** The settings *)

(** The steps of the three coroutines, each taken as a whole. *)
Inductive Step : Type :=
| Clipboard (pasted : option text)
| Console (sid : text) (line : option text)
| Prompt (sid : text) (prompt_text : text).

Definition step (py_repr json_dumps : json -> text) (env : Env) (a : App) (st : Step) : App :=
  match st with
  | Clipboard pasted => snd (clipboard_poll pasted a)
  | Console sid line => snd (stdin_command env sid line a)
  | Prompt sid prompt_text =>
      snd (fst (process_clip_as_prompt py_repr json_dumps env sid prompt_text a))
  end.

Definition settings_ok (a : App) : Prop :=
  (preferred_provider_type (app_sys a) = str "openrouter"
   \/ preferred_provider_type (app_sys a) = str "gemini")
  /\ (mode a = str "off" \/ mode a = str "all").

Lemma clipboard_poll_settings (pasted : option text) (a : App) :
  settings_ok a -> settings_ok (snd (clipboard_poll pasted a)).
Proof.
  intro H. destruct (text_eqb (or_text pasted []) (last_clip a)) eqn:Enew.
  { apply text_eqb_eq in Enew. now rewrite clipboard_poll_same by (right; congruence). }
  destruct (or_text pasted []) as [|c s] eqn:Et.
  { now rewrite clipboard_poll_same by (left; exact Et). }
  assert (Hne : or_text pasted [] <> []) by (rewrite Et; discriminate).
  rewrite <- Et in Enew. rewrite (clipboard_poll_new pasted a Hne Enew).
  destruct H as [Hp Hm]. unfold settings_ok.
  repeat match goal with
         | |- context [if ?b then _ else _] => destruct b
         | |- context [match ?x with [] => _ | _ :: _ => _ end] => destruct x
         end; cbn; tauto.
Qed.

Lemma stdin_command_settings (env : Env) (sid : text) (line : option text) (a : App) :
  settings_ok a -> settings_ok (snd (stdin_command env sid line a)).
Proof.
  intros [Hp Hm]. unfold stdin_command, settings_ok.
  destruct (strip _) as [|c s]; [now split|].
  repeat match goal with
         | |- context [if ?b then _ else _] => destruct b
         | |- context [match snd ?x with Some _ => _ | None => _ end] => destruct (snd x)
         end; try (cbn; tauto).
  destruct (start_session env sid (str "local_session") _) as [x r] eqn:E.
  apply start_session_run in E as (Hsys & _). cbn [sys] in Hsys.
  destruct x; cbn [snd with_app_sys app_sys mode]; rewrite Hsys; cbn; tauto.
Qed.

Lemma process_clip_settings (py_repr json_dumps : json -> text) (env : Env)
  (sid prompt_text : text) (a : App) :
  settings_ok a ->
  settings_ok (snd (fst (process_clip_as_prompt py_repr json_dumps env sid prompt_text a))).
Proof.
  intros [Hp Hm]. unfold process_clip_as_prompt, read_clock, settings_ok.
  cbn [sys clock_reads with_sys].
  assert (Hsend : forall (r2 : Run) (pre : list Event),
            preferred_provider_type (sys r2) = preferred_provider_type (app_sys a) ->
            let a' := snd (fst
              (let '(outcome, s3, ev) :=
                 send_prompt py_repr json_dumps env prompt_text (sys r2) in
               match outcome with
               | Returned ans =>
                   (Done ans,
                    mkApp (ticked s3) (mode a) (last_clip a) (time_at env (clock_reads s3))
                          (running a), pre ++ ev)
               | _ => (SendFailed outcome, with_app_sys s3 a, pre ++ ev)
               end)) in
            preferred_provider_type (app_sys a') = preferred_provider_type (app_sys a)
            /\ mode a' = mode a).
  { intros r2 pre Hr2.
    pose proof (send_prompt_preferred py_repr json_dumps env prompt_text (sys r2)) as Hpref.
    destruct (send_prompt py_repr json_dumps env prompt_text (sys r2)) as [[o s3] ev].
    destruct o; cbn; split; congruence. }
  destruct (Qltb _ 2); [cbn; tauto|].
  destruct (current_session (ticked (app_sys a))) as [cs|]; cbv iota beta.
  - destruct (Hsend (with_sys ticked (mkRun (app_sys a) None [])) []) as [H1 H2];
      [reflexivity|].
    cbv zeta in H1, H2. cbn [trace with_sys app] in *. rewrite H1, H2. tauto.
  - destruct (start_session env sid (str "local_session") _) as [x r2] eqn:E.
    apply start_session_run in E as (Hsys & _ & Hx).
    destruct (save_ok env _); subst x; cbn [bind]; cbv iota beta.
    + destruct (Hsend r2 (trace r2)) as [H1 H2]; [now rewrite Hsys|].
      cbv zeta in H1, H2. rewrite H1, H2. tauto.
    + cbn [fst snd with_app_sys app_sys mode]. rewrite Hsys. cbn. tauto.
Qed.

(** X28. The settings stay within their values. Started from the globals
    of the module, whatever is copied, typed or submitted, in whatever
    order, the preferred type is "openrouter" or "gemini" (so it is never
    empty and is in lower case), and the mode is "off" or "all". *)
Theorem settings_stay_valid (py_repr json_dumps : json -> text) (env : Env)
  (loaded : list Provider) (steps : list Step) :
  let a := fold_left (step py_repr json_dumps env) steps (initial_app loaded) in
  (preferred_provider_type (app_sys a) = str "openrouter"
   \/ preferred_provider_type (app_sys a) = str "gemini")
  /\ (mode a = str "off" \/ mode a = str "all")
  /\ preferred_provider_type (app_sys a) <> []
  /\ lower (preferred_provider_type (app_sys a)) = preferred_provider_type (app_sys a).
Proof.
  cbv zeta.
  assert (H : settings_ok (fold_left (step py_repr json_dumps env) steps (initial_app loaded))).
  { assert (H0 : settings_ok (initial_app loaded)) by (split; now left).
    revert H0. generalize (initial_app loaded). induction steps as [|st steps IH];
      intros a Ha; [exact Ha|].
    cbn [fold_left]. apply IH. destruct st; cbn [step].
    - now apply clipboard_poll_settings.
    - now apply stdin_command_settings.
    - now apply process_clip_settings. }
  destruct H as [Hp Hm]. split; [exact Hp|]. split; [exact Hm|].
  destruct Hp as [-> | ->]; split; (discriminate || reflexivity).
Qed.
